(** * RMS.Formats.FrameInterface: chunked aggregation, navigation and cache

    A shallow embedding of [RMS/Formats/FrameInterface.py]: the four input
    handles ([InputTypeFF], [InputTypeVideo], [InputTypeUWOVid],
    [InputTypeImages]), the helper [computeFramesToRead] and the
    [FFMimickInterface] record, followed by the properties of chunk
    aggregation, cyclic navigation and the one-entry cache.

    Conventions of the embedding:
    - Python integers are [Z]; [%] and [//] are [Z.modulo] and [Z.div] (both
      round towards minus infinity, the sign follows the divisor, as in
      Python) and raise [ZeroDivisionError] on a zero divisor.  The frame
      counts OpenCV reports as floats hold integral values and are
      embedded as [Z]; [int(...)] is then the identity.
    - numpy [float64] is the primitive binary64 [float]; a 2-D array is a
      list of rows.  The element-wise operations are written for arrays of
      one shape, which is what a source of fixed geometry decodes to.
    - An exception is a [Raise] result; an object attribute is a record
      field, and a method takes the object and returns the mutated one.
    - The attributes [config], [beginning_datetime], [dir_path],
      [input_type] and [require_calstars] are left out, and so is [fps]
      except where a constructor computes it from the stream: the
      operations embedded here never read them. *)

From Stdlib Require Import ZArith List Lia.
From Stdlib Require Import Floats.PrimFloat Floats.FloatOps Floats.SpecFloat.
From Stdlib Require Import Numbers.Cyclic.Int63.Uint63.
From Stdlib Require Import Strings.Ascii.
From stdpp Require Import base gmap list list_numbers strings pretty.

Local Open Scope Z_scope.

(** ** Python results *)

Inductive exn : Type :=
| ZeroDivisionError
| UnboundLocalError
| AttributeError
| IndexError
| IOError
| SystemExit.

Inductive result (A : Type) : Type :=
| Ok (a : A)
| Raise (e : exn).
Arguments Ok {A} a.
Arguments Raise {A} e.

#[global] Instance result_ret : MRet result := fun A a => Ok a.
#[global] Instance result_bind : MBind result := fun A B k m =>
  match m with
  | Ok a => k a
  | Raise e => Raise e
  end.
#[global] Instance result_fmap : FMap result := fun A B f m =>
  match m with
  | Ok a => Ok (f a)
  | Raise e => Raise e
  end.

(** [a % b] *)
Definition py_mod (a b : Z) : result Z :=
  if b =? 0 then Raise ZeroDivisionError else Ok (a mod b).

(** [a // b] *)
Definition py_floordiv (a b : Z) : result Z :=
  if b =? 0 then Raise ZeroDivisionError else Ok (a / b).

(** [l[i]], with Python's negative indices. *)
Definition py_index {A : Type} (l : list A) (i : Z) : result A :=
  let n := Z.of_nat (length l) in
  let j := if i <? 0 then i + n else i in
  if (0 <=? j) && (j <? n)
  then match l !! Z.to_nat j with
       | Some x => Ok x
       | None => Raise IndexError
       end
  else Raise IndexError.

(** ** [for i in range(n)] with [break]

    The loop returns the last value bound to [i] ([None] when the range was
    empty and [i] was never bound) together with the loop state. *)

Inductive ctl (S : Type) : Type :=
| Continue (s : S)
| Break (s : S).
Arguments Continue {S} s.
Arguments Break {S} s.

Fixpoint for_in {S : Type} (body : Z -> S -> result (ctl S))
    (idx : list Z) (i : option Z) (s : S) : result (option Z * S) :=
  match idx with
  | [] => Ok (i, s)
  | j :: rest =>
      match body j s with
      | Ok (Continue s') => for_in body rest (Some j) s'
      | Ok (Break s') => Ok (Some j, s')
      | Raise e => Raise e
      end
  end.

(** [range(n)] *)
Definition py_range (n : Z) : list Z := seqZ 0 n.

(** ** Arrays *)

Abbreviation Frame := (list (list Z)).
Abbreviation FloatFrame := (list (list float)).

(** [int -> float64] conversion of a pixel value. *)
Definition float_of_Z (z : Z) : float := PrimFloat.of_uint63 (Uint63.of_Z z).

(** Truncation towards zero of a finite float; the C cast numpy's [astype]
    performs. *)
Definition float_trunc (x : float) : Z :=
  match Prim2SF x with
  | S754_finite s m e =>
      let mag := match e with
                 | Z0 => Zpos m
                 | Zpos p => Zpos m * 2 ^ Zpos p
                 | Zneg p => Zpos m / 2 ^ Zpos p
                 end in
      if s then - mag else mag
  | _ => 0
  end.

(** Cast of one float to an unsigned integer of [w] bits: truncation, then
    the low [w] bits. *)
Definition cast_uint (w : Z) (x : float) : Z := float_trunc x mod 2 ^ w.

(** [np.zeros(shape=(nrows, ncols))], for dimensions that are not
    negative: numpy raises [ValueError] on a negative one, where this
    gives an empty array. *)
Definition np_zeros {A : Type} (zero : A) (nrows ncols : Z) : list (list A) :=
  replicate (Z.to_nat nrows) (replicate (Z.to_nat ncols) zero).

(** [np.max([a, b], axis=0)], for two arrays of one shape: numpy raises
    [ValueError] on arrays of different shapes, where this keeps their
    common part. *)
Definition np_max2 (a b : Frame) : Frame := zip_with (zip_with Z.max) a b.

(** [frame.astype(np.float64)] *)
Definition astype_float64 (f : Frame) : FloatFrame :=
  (fun row : list Z => float_of_Z <$> row) <$> f.

(** [a/n] for a scalar [n] *)
Definition np_div (a : FloatFrame) (n : float) : FloatFrame :=
  (fun row : list float => (fun x => PrimFloat.div x n) <$> row) <$> a.

(** [a + b], for two arrays of one shape, as for [np.max] above. *)
Definition np_add (a b : FloatFrame) : FloatFrame :=
  zip_with (zip_with PrimFloat.add) a b.

(** [a.astype(np.uint8)] and [a.astype(np.uint16)] on a float array. *)
Definition astype_uint (w : Z) (a : FloatFrame) : Frame :=
  (fun row : list float => cast_uint w <$> row) <$> a.

(** [a.astype(np.uint16)] on an integer array. *)
Definition astype_uint16 (a : Frame) : Frame :=
  (fun row : list Z => (fun z => z mod 2 ^ 16) <$> row) <$> a.

(** One step of the running composites: [maxpixel = np.max([maxpixel,
    frame], axis=0)] and [avepixel += frame.astype(np.float64)/frames_to_read]. *)
Definition accumulate (frames_to_read : Z) (acc : Frame * FloatFrame)
    (frame : Frame) : Frame * FloatFrame :=
  (np_max2 acc.1 frame,
   np_add acc.2 (np_div (astype_float64 frame) (float_of_Z frames_to_read))).

(** [a[r][c]], for indices within the array. *)
Definition pixel {A : Type} (a : list (list A)) (r c : nat) : option A :=
  a !! r ≫= fun row => row !! c.

(** ** [FFMimickInterface] *)

Record FFMimickInterface : Type := mkFF {
  maxpixel : Frame;
  avepixel : Frame;
  nrows : Z;
  ncols : Z;
  nframes : Z
}.

(** ** [computeFramesToRead] *)

Definition is_minus_one (read_nframes : option Z) : bool :=
  match read_nframes with
  | Some n => n =? -1
  | None => false
  end.

Definition computeFramesToRead (read_nframes : option Z)
    (total_frames fr_chunk_no current_frame_chunk : Z) : Z :=
  if is_minus_one read_nframes then total_frames
  else
    let frames_to_read :=
      match read_nframes with
      | None => fr_chunk_no
      | Some n => n
      end in
    if (current_frame_chunk + 1) * fr_chunk_no >? total_frames
    then total_frames - current_frame_chunk * fr_chunk_no
    else frames_to_read.

(** The number of chunks the three streaming constructors compute,
    [total_frames//fr_chunk_no] replaced by 1 when it is 0.  The divisor is
    the literal chunk length of the constructor (256, 128 or 64). *)
Definition compute_total_fr_chunks (total_frames fr_chunk_no : Z) : Z :=
  let total_fr_chunks := total_frames / fr_chunk_no in
  if total_fr_chunks =? 0 then 1 else total_fr_chunks.

(** The key under which [loadChunk] stores an aggregate, [cache_id]: -1 for
    a request of the whole source and the chunk index otherwise.  The
    lookup at the head of [loadChunk] tests the same key, [-1 in self.cache]
    for a request of -1 and [self.current_frame_chunk in self.cache]
    otherwise. *)
Definition cache_id (read_nframes : option Z) (current_frame_chunk : Z) : Z :=
  if is_minus_one read_nframes then -1 else current_frame_chunk.

(** ** [InputTypeVideo] *)

Module InputTypeVideo.

(** [cv2.VideoCapture]: the grayscale frames the container decodes to (one
    [cap.read()] followed by [cv2.cvtColor(frame, cv2.COLOR_BGR2GRAY)]),
    the read position (property 1), and the properties the constructor
    probes: frame count (7), height (4) and width (3).  The frame count is
    container metadata and need not equal the number of decodable
    frames. *)
Record VideoCapture : Type := mkCap {
  cap_frames : list Frame;
  cap_pos : Z;
  cap_frame_count : Z;
  cap_height : Z;
  cap_width : Z
}.

(** [cap.set(1, pos)] *)
Definition cap_set_pos (c : VideoCapture) (pos : Z) : VideoCapture :=
  mkCap (cap_frames c) pos (cap_frame_count c) (cap_height c) (cap_width c).

(** [cap.read()]: the next frame, or [None] past the last frame. *)
Definition cap_read (c : VideoCapture) : option Frame * VideoCapture :=
  if cap_pos c <? 0 then (None, c)
  else match cap_frames c !! Z.to_nat (cap_pos c) with
       | Some frame => (Some frame, cap_set_pos c (cap_pos c + 1))
       | None => (None, c)
       end.

Record t : Type := mk {
  cap : VideoCapture;
  current_frame_chunk : Z;
  total_frames : Z;
  nrows : Z;
  ncols : Z;
  fr_chunk_no : Z;
  total_fr_chunks : Z;
  current_fr_chunk_size : Z;
  current_frame : Z;
  cache : gmap Z FFMimickInterface
}.

(** [__init__], from the opened capture on.  Before it the constructor
    takes the beginning time it is given, or parses it from the file name
    without its extension and ends the program when that fails; the time
    is no part of the state here, so this is the handle that a constructor
    which returns leaves. *)
Definition init (c : VideoCapture) : t :=
  let total_frames := cap_frame_count c in
  let fr_chunk_no := 256 in
  {| cap := c;
     current_frame_chunk := 0;
     total_frames := total_frames;
     nrows := cap_height c;
     ncols := cap_width c;
     fr_chunk_no := fr_chunk_no;
     total_fr_chunks := compute_total_fr_chunks total_frames fr_chunk_no;
     current_fr_chunk_size := fr_chunk_no;
     current_frame := 0;
     cache := ∅ |}.

Definition set_chunk (self : t) (chunk frame : Z) : t :=
  mk (cap self) chunk (total_frames self) (nrows self) (ncols self)
     (fr_chunk_no self) (total_fr_chunks self) (current_fr_chunk_size self)
     frame (cache self).

Definition set_current_frame (self : t) (frame : Z) : t :=
  set_chunk self (current_frame_chunk self) frame.

Definition nextChunk (self : t) : result t :=
  chunk ← py_mod (current_frame_chunk self + 1) (total_fr_chunks self);
  Ok (set_chunk self chunk (chunk * fr_chunk_no self)).

Definition prevChunk (self : t) : result t :=
  chunk ← py_mod (current_frame_chunk self - 1) (total_fr_chunks self);
  Ok (set_chunk self chunk (chunk * fr_chunk_no self)).

(** The state of the aggregation loop: the capture and the two running
    composites. *)
Definition loop_body (frames_to_read : Z) (i : Z)
    (s : VideoCapture * (Frame * FloatFrame))
    : result (ctl (VideoCapture * (Frame * FloatFrame))) :=
  match cap_read s.1 with
  | (None, c) => Ok (Break (c, s.2))
  | (Some frame, c) => Ok (Continue (c, accumulate frames_to_read s.2 frame))
  end.

Definition loadChunk (read_nframes : option Z) (self : t)
    : result (FFMimickInterface * t) :=
  match cache self !! cache_id read_nframes (current_frame_chunk self) with
  | Some ff => Ok (ff, self)
  | None =>
      let c :=
        if is_minus_one read_nframes then cap_set_pos (cap self) 0
        else cap_set_pos (cap self)
               (current_frame_chunk self * fr_chunk_no self) in
      let frames_to_read :=
        computeFramesToRead read_nframes (total_frames self)
          (fr_chunk_no self) (current_frame_chunk self) in
      let maxpixel := np_zeros 0 (nrows self) (ncols self) in
      let avepixel := np_zeros 0%float (nrows self) (ncols self) in
      '(i, (c, (maxpixel, avepixel))) ←
        for_in (loop_body frames_to_read) (py_range frames_to_read) None
          (c, (maxpixel, avepixel));
      let avepixel := astype_uint 8 avepixel in
      match i with
      | None => Raise UnboundLocalError
      | Some i =>
          let ff_struct_fake :=
            mkFF maxpixel avepixel (nrows self) (ncols self)
              (total_frames self) in
          Ok (ff_struct_fake,
              mk c (current_frame_chunk self) (total_frames self)
                (nrows self) (ncols self) (fr_chunk_no self)
                (total_fr_chunks self) (i + 1) (current_frame self)
                (<[cache_id read_nframes (current_frame_chunk self)
                   := ff_struct_fake]> ∅))
      end
  end.

Definition nextFrame (self : t) : result t :=
  frame ← py_mod (current_frame self + 1) (total_frames self);
  Ok (set_current_frame self frame).

Definition prevFrame (self : t) : result t :=
  frame ← py_mod (current_frame self - 1) (total_frames self);
  Ok (set_current_frame self frame).

Definition set_cap (self : t) (c : VideoCapture) : t :=
  mk c (current_frame_chunk self) (total_frames self) (nrows self)
     (ncols self) (fr_chunk_no self) (total_fr_chunks self)
     (current_fr_chunk_size self) (current_frame self) (cache self).

(** What [loadFrame] ends with: the frame, or the [cv2.error] that
    [cv2.cvtColor] raises when [cap.read()] had no frame to return.  The
    capture has been moved in both cases. *)
Inductive frame_result : Type :=
| FrameOk (frame : Frame) (self : t)
| CvError (self : t).

(** [loadFrame]; the argument [avepixel] is not used. *)
Definition loadFrame (avepixel : bool) (self : t) : frame_result :=
  let c := cap_set_pos (cap self) (current_frame self) in
  match cap_read c with
  | (Some frame, c) => FrameOk frame (set_cap self c)
  | (None, c) => CvError (set_cap self c)
  end.

End InputTypeVideo.

(** ** [InputTypeUWOVid] *)

Module InputTypeUWOVid.

(** [VidStruct], reduced to the fields the handle reads: the Unix time of
    the last record read ([ts] seconds, [tu] microseconds), the length of
    a record in bytes and the frame size. *)
Record VidStruct : Type := mkVid {
  ts : Z;
  tu : Z;
  seqlen : Z;
  ht : Z;
  wid : Z
}.

(** An open [.vid] file: its records, each a header and a frame, and the
    byte offset of the file pointer. *)
Record VidFile : Type := mkFile {
  vid_records : list (VidStruct * Frame);
  vid_seqlen : Z;
  vid_tell : Z
}.

(** [vid_file.seek(offset)] *)
Definition seek (f : VidFile) (offset : Z) : VidFile :=
  mkFile (vid_records f) (vid_seqlen f) offset.

(** [os.path.getsize(vid_path)] *)
Definition getsize (f : VidFile) : Z :=
  Z.of_nat (length (vid_records f)) * vid_seqlen f.

(** Modelled from the spec: [RMS.Formats.Vid.readFrame] is not part of the
    source file.  It is the decode primitive of the binary stream: it
    fills the [VidStruct] with the header of the record under the file
    pointer, moves the pointer past the record and returns the frame, or
    returns the end-of-stream sentinel [None] when no record is left. *)
Definition readVidFrame (vid : VidStruct) (f : VidFile)
    : option Frame * VidStruct * VidFile :=
  if (vid_tell f <? 0) || (vid_seqlen f <=? 0) then (None, vid, f)
  else match vid_records f !! Z.to_nat (vid_tell f / vid_seqlen f) with
       | Some (header, frame) =>
           (Some frame, header, seek f (vid_tell f + vid_seqlen f))
       | None => (None, vid, f)
       end.

(** [vid.ts + vid.tu/1000000.0] *)
Definition unix_time (vid : VidStruct) : float :=
  PrimFloat.add (float_of_Z (ts vid))
    (PrimFloat.div (float_of_Z (tu vid)) 1000000%float).

Record t : Type := mk {
  vid : VidStruct;
  vid_file : VidFile;
  vidinfo : VidStruct;
  current_frame_chunk : Z;
  current_frame : Z;
  current_fr_chunk_size : Z;
  total_frames : Z;
  nrows : Z;
  ncols : Z;
  fr_chunk_no : Z;
  total_fr_chunks : Z;
  frame_chunk_unix_times : list float;
  fps : float;
  cache : gmap Z (FFMimickInterface * list float)
}.

Definition set_chunk (self : t) (chunk frame : Z) : t :=
  mk (vid self) (vid_file self) (vidinfo self) chunk frame
     (current_fr_chunk_size self) (total_frames self) (nrows self)
     (ncols self) (fr_chunk_no self) (total_fr_chunks self)
     (frame_chunk_unix_times self) (fps self) (cache self).

Definition set_current_frame (self : t) (frame : Z) : t :=
  set_chunk self (current_frame_chunk self) frame.

Definition set_frame_chunk_unix_times (self : t) (times : list float) : t :=
  mk (vid self) (vid_file self) (vidinfo self) (current_frame_chunk self)
     (current_frame self) (current_fr_chunk_size self) (total_frames self)
     (nrows self) (ncols self) (fr_chunk_no self) (total_fr_chunks self)
     times (fps self) (cache self).

Definition set_fps (self : t) (x : float) : t :=
  mk (vid self) (vid_file self) (vidinfo self) (current_frame_chunk self)
     (current_frame self) (current_fr_chunk_size self) (total_frames self)
     (nrows self) (ncols self) (fr_chunk_no self) (total_fr_chunks self)
     (frame_chunk_unix_times self) x (cache self).

Definition nextChunk (self : t) : result t :=
  chunk ← py_mod (current_frame_chunk self + 1) (total_fr_chunks self);
  Ok (set_chunk self chunk (chunk * fr_chunk_no self)).

Definition prevChunk (self : t) : result t :=
  chunk ← py_mod (current_frame_chunk self - 1) (total_fr_chunks self);
  Ok (set_chunk self chunk (chunk * fr_chunk_no self)).

(** What [loadChunk] hands back: the aggregate, or, on the one path that
    returns the cache entry as it is stored, the two-element list of the
    aggregate and the chunk's Unix times. *)
Inductive chunk_value : Type :=
| Aggregate (ff : FFMimickInterface)
| CacheEntry (ff : FFMimickInterface) (times : list float).

(** The state of the aggregation loop: [self.vid], [self.vid_file],
    [self.frame_chunk_unix_times] and the two running composites. *)
Definition loop_state : Type :=
  VidStruct * VidFile * list float * (Frame * FloatFrame).

(** The body calls [.astype(np.uint16)] on what [readVidFrame] returned
    before it tests for [None]; on the sentinel the attribute lookup
    raises and the [break] below it is never reached. *)
Definition loop_body (frames_to_read : Z) (i : Z) (s : loop_state)
    : result (ctl loop_state) :=
  let '(vid, vid_file, times, acc) := s in
  match readVidFrame vid vid_file with
  | (None, _, _) => Raise AttributeError
  | (Some frame, vid, vid_file) =>
      let frame := astype_uint16 frame in
      Ok (Continue (vid, vid_file, times ++ [unix_time vid],
                    accumulate frames_to_read acc frame))
  end.

Definition loadChunk (read_nframes : option Z) (self : t)
    : result (chunk_value * t) :=
  match cache self !! cache_id read_nframes (current_frame_chunk self) with
  | Some (ff, times) =>
      if is_minus_one read_nframes then Ok (CacheEntry ff times, self)
      else Ok (Aggregate ff, set_frame_chunk_unix_times self times)
  | None =>
      let f :=
        if is_minus_one read_nframes then seek (vid_file self) 0
        else seek (vid_file self)
               (current_frame_chunk self * fr_chunk_no self
                * seqlen (vidinfo self)) in
      let frames_to_read :=
        computeFramesToRead read_nframes (total_frames self)
          (fr_chunk_no self) (current_frame_chunk self) in
      let maxpixel := np_zeros 0 (nrows self) (ncols self) in
      let avepixel := np_zeros 0%float (nrows self) (ncols self) in
      '(i, (v, f, times, (maxpixel, avepixel))) ←
        for_in (loop_body frames_to_read) (py_range frames_to_read) None
          (vid self, f, [], (maxpixel, avepixel));
      match i with
      | None => Raise UnboundLocalError
      | Some i =>
          let avepixel := astype_uint 16 avepixel in
          let ff_struct_fake :=
            mkFF maxpixel avepixel (nrows self) (ncols self)
              (total_frames self) in
          Ok (Aggregate ff_struct_fake,
              mk v f (vidinfo self) (current_frame_chunk self)
                (current_frame self) (i + 1) (total_frames self)
                (nrows self) (ncols self) (fr_chunk_no self)
                (total_fr_chunks self) times (fps self)
                (<[cache_id read_nframes (current_frame_chunk self)
                   := (ff_struct_fake, times)]> ∅))
      end
  end.

(** [1/((times[-1] - times[0])/current_fr_chunk_size)] *)
Definition estimate_fps (times : list float) (size : Z) : result float :=
  last_time ← py_index times (-1);
  first_time ← py_index times 0;
  if size =? 0 then Raise ZeroDivisionError
  else
    let d := PrimFloat.div (PrimFloat.sub last_time first_time)
               (float_of_Z size) in
    if PrimFloat.eqb d 0%float then Raise ZeroDivisionError
    else Ok (PrimFloat.div 1%float d).

(** [__init__], from the opened file on: one record is read into a fresh
    [VidStruct] for the stream parameters and the frame it returns is
    dropped, the file is rewound, the first chunk is loaded and the frame
    rate is estimated from its times.  On a file without a record the
    structure keeps the record length 0 and the division for the frame
    count raises. *)
Definition init (f : VidFile) : result t :=
  match readVidFrame (mkVid 0 0 0 0 0) f with
  | (_, v, f) =>
      let vidinfo := v in
      let f := seek f 0 in
      total_frames ← py_floordiv (getsize f) (seqlen vidinfo);
      let fr_chunk_no := 128 in
      let self :=
        {| vid := v; vid_file := f; vidinfo := vidinfo;
           current_frame_chunk := 0; current_frame := 0;
           current_fr_chunk_size := 0;
           total_frames := total_frames;
           nrows := ht vidinfo; ncols := wid vidinfo;
           fr_chunk_no := fr_chunk_no;
           total_fr_chunks :=
             compute_total_fr_chunks total_frames fr_chunk_no;
           frame_chunk_unix_times := [];
           fps := 0%float;
           cache := ∅ |} in
      '(_, self) ← loadChunk None self;
      x ← estimate_fps (frame_chunk_unix_times self)
            (current_fr_chunk_size self);
      Ok (set_fps self x)
  end.

Definition nextFrame (self : t) : result t :=
  frame ← py_mod (current_frame self + 1) (total_frames self);
  Ok (set_current_frame self frame).

Definition prevFrame (self : t) : result t :=
  frame ← py_mod (current_frame self - 1) (total_frames self);
  Ok (set_current_frame self frame).

(** *** Single frames and their time

    [loadFrame] creates the attribute [current_frame_time], which
    [currentFrameTime] reads; a handle with the attribute not yet created
    has [None] for it.  [unixTime2Date] of [RMS.Astrometry.Conversions] and
    the fields of the [datetime] it returns are taken as given. *)
Section FrameTime.

Variable datetime : Type.
Variable unixTime2Date : Z -> Z -> datetime.
Variables year month day hour minute second microsecond : datetime -> Z.

Record framed : Type := mkFramed {
  handle : t;
  current_frame_time : option datetime
}.

Definition set_vid (self : t) (v : VidStruct) (f : VidFile) : t :=
  mk v f (vidinfo self) (current_frame_chunk self) (current_frame self)
     (current_fr_chunk_size self) (total_frames self) (nrows self)
     (ncols self) (fr_chunk_no self) (total_fr_chunks self)
     (frame_chunk_unix_times self) (fps self) (cache self).

(** [loadFrame]; the argument [avepixel] is not used.  The frame is
    returned as [readVidFrame] gives it, also when that is [None]. *)
Definition loadFrame (avepixel : bool) (self : framed)
    : option Frame * framed :=
  let f :=
    seek (vid_file (handle self))
      (current_frame (handle self) * seqlen (vidinfo (handle self))) in
  let '(frame, v, f) := readVidFrame (vid (handle self)) f in
  (frame,
   mkFramed (set_vid (handle self) v f)
     (Some (unixTime2Date (ts v) (tu v)))).

(** What [currentFrameTime] returns: the [datetime], or the tuple of its
    fields with the milliseconds [dt.microsecond/1000]. *)
Inductive time_value : Type :=
| DateTime (dt : datetime)
| TimeTuple (y mo d h mi s : Z) (ms : float).

Definition currentFrameTime (dt_obj : bool) (self : framed)
    : result time_value :=
  match current_frame_time self with
  | None => Raise AttributeError
  | Some dt =>
      if dt_obj then Ok (DateTime dt)
      else Ok (TimeTuple (year dt) (month dt) (day dt) (hour dt) (minute dt)
                 (second dt)
                 (PrimFloat.div (float_of_Z (microsecond dt)) 1000%float))
  end.

End FrameTime.

End InputTypeUWOVid.

(** ** [InputTypeImages] *)

Module InputTypeImages.

(** An image file of the folder: its name, and the grayscale image that
    [cv2.imread] followed by [cv2.cvtColor(img, cv2.COLOR_BGR2GRAY)]
    yields for it. *)
Record ImageFile : Type := mkImg {
  img_name : string;
  img_gray : Frame
}.

Record t : Type := mk {
  img_list : list ImageFile;
  current_frame_chunk : Z;
  total_frames : Z;
  current_frame : Z;
  current_img_file : ImageFile;
  nrows : Z;
  ncols : Z;
  fr_chunk_no : Z;
  current_fr_chunk_size : Z;
  total_fr_chunks : Z;
  cache : gmap Z FFMimickInterface
}.

Definition set_chunk (self : t) (chunk frame : Z) : t :=
  mk (img_list self) chunk (total_frames self) frame
     (current_img_file self) (nrows self) (ncols self) (fr_chunk_no self)
     (current_fr_chunk_size self) (total_fr_chunks self) (cache self).

Definition set_current_frame (self : t) (frame : Z) (file : ImageFile) : t :=
  mk (img_list self) (current_frame_chunk self) (total_frames self) frame
     file (nrows self) (ncols self) (fr_chunk_no self)
     (current_fr_chunk_size self) (total_fr_chunks self) (cache self).

Definition nextChunk (self : t) : result t :=
  chunk ← py_mod (current_frame_chunk self + 1) (total_fr_chunks self);
  Ok (set_chunk self chunk (chunk * fr_chunk_no self)).

Definition prevChunk (self : t) : result t :=
  chunk ← py_mod (current_frame_chunk self - 1) (total_fr_chunks self);
  Ok (set_chunk self chunk (chunk * fr_chunk_no self)).

Definition loadFrame (img_list : list ImageFile)
    (current_img_file : ImageFile) (fr_no : option Z) : result Frame :=
  match fr_no with
  | Some fr_no =>
      current_img_file ← py_index img_list fr_no;
      Ok (img_gray current_img_file)
  | None => Ok (img_gray current_img_file)
  end.

Definition loop_body (self : t) (first_img_indx frames_to_read : Z) (i : Z)
    (acc : Frame * FloatFrame) : result (ctl (Frame * FloatFrame)) :=
  let img_indx := first_img_indx + i in
  if img_indx >=? total_frames self - 1 then Ok (Break acc)
  else
    frame ← loadFrame (img_list self) (current_img_file self)
              (Some img_indx);
    Ok (Continue (accumulate frames_to_read acc frame)).

Definition loadChunk (read_nframes : option Z) (self : t)
    : result (FFMimickInterface * t) :=
  match cache self !! cache_id read_nframes (current_frame_chunk self) with
  | Some frame => Ok (frame, self)
  | None =>
      let first_img_indx :=
        if is_minus_one read_nframes then 0
        else current_frame_chunk self * fr_chunk_no self in
      let frames_to_read :=
        computeFramesToRead read_nframes (total_frames self)
          (fr_chunk_no self) (current_frame_chunk self) in
      let maxpixel := np_zeros 0 (nrows self) (ncols self) in
      let avepixel := np_zeros 0%float (nrows self) (ncols self) in
      '(i, (maxpixel, avepixel)) ←
        for_in (loop_body self first_img_indx frames_to_read)
          (py_range frames_to_read) None (maxpixel, avepixel);
      let avepixel := astype_uint 8 avepixel in
      match i with
      | None => Raise UnboundLocalError
      | Some i =>
          let ff_struct_fake :=
            mkFF maxpixel avepixel (nrows self) (ncols self)
              (total_frames self) in
          Ok (ff_struct_fake,
              mk (img_list self) (current_frame_chunk self)
                (total_frames self) (current_frame self)
                (current_img_file self) (nrows self) (ncols self)
                (fr_chunk_no self) i (total_fr_chunks self)
                (<[cache_id read_nframes (current_frame_chunk self)
                   := ff_struct_fake]> ∅))
      end
  end.

(** [img.shape[1]] of a 2-D array given as its rows. *)
Definition shape1 (img : Frame) : Z :=
  match img with
  | [] => 0
  | row :: _ => Z.of_nat (length row)
  end.

(** [__init__], from the sorted list of the image files found on; an
    empty list ends the program.  Before it the constructor takes the
    beginning time it is given, or parses it from the name of the folder
    and ends the program when that fails; the time and the frame rate are
    no part of the state here, so a result [Ok] is the handle that a
    constructor which returns leaves. *)
Definition init (imgs : list ImageFile) : result t :=
  match imgs with
  | [] => Raise SystemExit
  | first :: _ =>
      let total_frames := Z.of_nat (length imgs) in
      img ← loadFrame imgs first None;
      let fr_chunk_no := 64 in
      '(_, self) ← loadChunk None
        {| img_list := imgs;
           current_frame_chunk := 0;
           total_frames := total_frames;
           current_frame := 0;
           current_img_file := first;
           nrows := Z.of_nat (length img);
           ncols := shape1 img;
           fr_chunk_no := fr_chunk_no;
           current_fr_chunk_size := fr_chunk_no;
           total_fr_chunks :=
             compute_total_fr_chunks total_frames fr_chunk_no;
           cache := ∅ |};
      Ok self
  end.

Definition nextFrame (self : t) : result t :=
  frame ← py_mod (current_frame self + 1) (total_frames self);
  file ← py_index (img_list self) frame;
  Ok (set_current_frame self frame file).

Definition prevFrame (self : t) : result t :=
  frame ← py_mod (current_frame self - 1) (total_frames self);
  file ← py_index (img_list self) frame;
  Ok (set_current_frame self frame file).

End InputTypeImages.

(** ** [InputTypeFF] *)

Module InputTypeFF.

Record t : Type := mk {
  ff_files : gmap string FFMimickInterface;
  ff_list : list string;
  current_ff_index : Z;
  current_ff_file : string;
  current_frame : Z;
  cache : gmap string FFMimickInterface;
  ff : option FFMimickInterface
}.

(** Modelled from the spec: [RMS.Formats.FFfile.read] is not part of the
    source file.  It reads the archive file of the given name, a stored
    maxpixel and avepixel pair with its geometry and frame count; the
    folder is the map [ff_files] from file names to their content. *)
Definition readFF (ff_files : gmap string FFMimickInterface)
    (file_name : string) : result FFMimickInterface :=
  match ff_files !! file_name with
  | Some ff => Ok ff
  | None => Raise IOError
  end.

Definition set_file (self : t) (index : Z) (file : string) : t :=
  mk (ff_files self) (ff_list self) index file (current_frame self)
     (cache self) (ff self).

Definition set_current_frame (self : t) (frame : Z) : t :=
  mk (ff_files self) (ff_list self) (current_ff_index self)
     (current_ff_file self) frame (cache self) (ff self).

Definition nextChunk (self : t) : result t :=
  index ← py_mod (current_ff_index self + 1)
            (Z.of_nat (length (ff_list self)));
  file ← py_index (ff_list self) index;
  Ok (set_file self index file).

Definition prevChunk (self : t) : result t :=
  index ← py_mod (current_ff_index self - 1)
            (Z.of_nat (length (ff_list self)));
  file ← py_index (ff_list self) index;
  Ok (set_file self index file).

Definition loadChunk (read_nframes : option Z) (self : t)
    : result (FFMimickInterface * t) :=
  match cache self !! current_ff_file self with
  | Some ff => Ok (ff, self)
  | None =>
      ff ← readFF (ff_files self) (current_ff_file self);
      Ok (ff,
          mk (ff_files self) (ff_list self) (current_ff_index self)
            (current_ff_file self) 0
            (<[current_ff_file self := ff]> ∅) (Some ff))
  end.

(** [self.ff], an attribute that exists once a chunk has been loaded. *)
Definition get_ff (self : t) : result FFMimickInterface :=
  match ff self with
  | Some ff => Ok ff
  | None => Raise AttributeError
  end.

Definition nextFrame (self : t) : result t :=
  ff ← get_ff self;
  frame ← py_mod (current_frame self + 1) (nframes ff);
  Ok (set_current_frame self frame).

Definition prevFrame (self : t) : result t :=
  ff ← get_ff self;
  frame ← py_mod (current_frame self - 1) (nframes ff);
  Ok (set_current_frame self frame).

(** [__init__], from the sorted list of the archive files found on; an
    empty list ends the program. *)
Definition init (ff_files : gmap string FFMimickInterface)
    (ff_list : list string) : result t :=
  match ff_list with
  | [] => Raise SystemExit
  | first :: _ =>
      '(_, self) ← loadChunk None
        {| ff_files := ff_files; ff_list := ff_list;
           current_ff_index := 0; current_ff_file := first;
           current_frame := 0; cache := ∅; ff := None |};
      Ok self
  end.

(** [name] *)
Definition name (self : t) : string := current_ff_file self.

End InputTypeFF.

(** ** The common interface of the four handles

    The handles share no base class; callers rely on the method names.  The
    class below is that interface, with the observations the properties are
    stated on.  [load_chunk] keeps the handle after the call only; what the
    call returns is stated per handle. *)

Class Handle (T : Type) : Type := {
  next_chunk : T -> result T;
  prev_chunk : T -> result T;
  load_chunk : option Z -> T -> result T;
  next_frame : T -> result T;
  prev_frame : T -> result T;
  chunk_index : T -> Z;
  frame_index : T -> Z;
  chunk_count : T -> Z;
  frame_count : T -> Z;
  cache_size : T -> nat;
  (** what the constructor establishes between the fields and no method
      changes *)
  consistent : T -> Prop
}.

#[global] Instance video_handle : Handle InputTypeVideo.t := {|
  next_chunk := InputTypeVideo.nextChunk;
  prev_chunk := InputTypeVideo.prevChunk;
  load_chunk := fun n self => snd <$> InputTypeVideo.loadChunk n self;
  next_frame := InputTypeVideo.nextFrame;
  prev_frame := InputTypeVideo.prevFrame;
  chunk_index := InputTypeVideo.current_frame_chunk;
  frame_index := InputTypeVideo.current_frame;
  chunk_count := InputTypeVideo.total_fr_chunks;
  frame_count := InputTypeVideo.total_frames;
  cache_size := fun self => size (InputTypeVideo.cache self);
  consistent := fun _ => True
|}.

#[global] Instance uwovid_handle : Handle InputTypeUWOVid.t := {|
  next_chunk := InputTypeUWOVid.nextChunk;
  prev_chunk := InputTypeUWOVid.prevChunk;
  load_chunk := fun n self => snd <$> InputTypeUWOVid.loadChunk n self;
  next_frame := InputTypeUWOVid.nextFrame;
  prev_frame := InputTypeUWOVid.prevFrame;
  chunk_index := InputTypeUWOVid.current_frame_chunk;
  frame_index := InputTypeUWOVid.current_frame;
  chunk_count := InputTypeUWOVid.total_fr_chunks;
  frame_count := InputTypeUWOVid.total_frames;
  cache_size := fun self => size (InputTypeUWOVid.cache self);
  consistent := fun _ => True
|}.

#[global] Instance images_handle : Handle InputTypeImages.t := {|
  next_chunk := InputTypeImages.nextChunk;
  prev_chunk := InputTypeImages.prevChunk;
  load_chunk := fun n self => snd <$> InputTypeImages.loadChunk n self;
  next_frame := InputTypeImages.nextFrame;
  prev_frame := InputTypeImages.prevFrame;
  chunk_index := InputTypeImages.current_frame_chunk;
  frame_index := InputTypeImages.current_frame;
  chunk_count := InputTypeImages.total_fr_chunks;
  frame_count := InputTypeImages.total_frames;
  cache_size := fun self => size (InputTypeImages.cache self);
  consistent := fun self =>
    InputTypeImages.total_frames self
    = Z.of_nat (length (InputTypeImages.img_list self))
|}.

(** The archive handle counts chunks in files and frames within the loaded
    file. *)
#[global] Instance ff_handle : Handle InputTypeFF.t := {|
  next_chunk := InputTypeFF.nextChunk;
  prev_chunk := InputTypeFF.prevChunk;
  load_chunk := fun n self => snd <$> InputTypeFF.loadChunk n self;
  next_frame := InputTypeFF.nextFrame;
  prev_frame := InputTypeFF.prevFrame;
  chunk_index := InputTypeFF.current_ff_index;
  frame_index := InputTypeFF.current_frame;
  chunk_count := fun self => Z.of_nat (length (InputTypeFF.ff_list self));
  frame_count := fun self =>
    match InputTypeFF.ff self with
    | Some ff => nframes ff
    | None => 0
    end;
  cache_size := fun self => size (InputTypeFF.cache self);
  consistent := fun _ => True
|}.

(** A caller's request, and a sequence of requests run until one raises. *)
Inductive call : Type :=
| NextChunk
| PrevChunk
| LoadChunk (read_nframes : option Z)
| NextFrame
| PrevFrame.

Definition do_call {T : Type} `{Handle T} (c : call) (self : T) : result T :=
  match c with
  | NextChunk => next_chunk self
  | PrevChunk => prev_chunk self
  | LoadChunk n => load_chunk n self
  | NextFrame => next_frame self
  | PrevFrame => prev_frame self
  end.

Fixpoint do_calls {T : Type} `{Handle T} (cs : list call) (self : T)
    : result T :=
  match cs with
  | [] => Ok self
  | c :: cs => self ← do_call c self; do_calls cs self
  end.

(** ** Calls on a binary-stream handle with its frame time

    The attribute [current_frame_time] is created by [loadFrame] and
    assigned by no other method: [__init__] leaves a handle without it,
    and the navigation methods and [loadChunk] leave it as they find
    it. *)
Section FrameCalls.

Variable datetime : Type.
Variable unixTime2Date : Z -> Z -> datetime.

(** [InputTypeUWOVid(dir_path, config)] *)
Definition construct (f : InputTypeUWOVid.VidFile)
    : result (InputTypeUWOVid.framed datetime) :=
  self ← InputTypeUWOVid.init f;
  Ok (InputTypeUWOVid.mkFramed datetime self None).

(** A method that assigns no [current_frame_time]. *)
Definition keep_time
    (method : InputTypeUWOVid.t -> result InputTypeUWOVid.t)
    (self : InputTypeUWOVid.framed datetime)
    : result (InputTypeUWOVid.framed datetime) :=
  self' ← method (InputTypeUWOVid.handle datetime self);
  Ok (InputTypeUWOVid.mkFramed datetime self'
        (InputTypeUWOVid.current_frame_time datetime self)).

(** A caller's request of the handle: one of the calls above, or
    [loadFrame], whose frame the sequence drops. *)
Inductive frame_call : Type :=
| Step (c : call)
| LoadFrame (avepixel : bool).

Definition do_frame_call (c : frame_call)
    (self : InputTypeUWOVid.framed datetime)
    : result (InputTypeUWOVid.framed datetime) :=
  match c with
  | Step c => keep_time (do_call c) self
  | LoadFrame avepixel =>
      Ok (InputTypeUWOVid.loadFrame datetime unixTime2Date avepixel self).2
  end.

Fixpoint do_frame_calls (cs : list frame_call)
    (self : InputTypeUWOVid.framed datetime)
    : result (InputTypeUWOVid.framed datetime) :=
  match cs with
  | [] => Ok self
  | c :: cs => self ← do_frame_call c self; do_frame_calls cs self
  end.

End FrameCalls.

(** ** The file name without its extension

    The video constructor reads the beginning time from
    [".".join(file_name.split('.')[:-1])]. *)

(** [s.split(sep)] for a separator of one character. *)
Fixpoint py_split (sep : Ascii.ascii) (s : string) : list string :=
  match s with
  | EmptyString => [EmptyString]
  | String ch rest =>
      if Ascii.eqb ch sep then EmptyString :: py_split sep rest
      else match py_split sep rest with
           | [] => [String ch EmptyString]
           | word :: words => String ch word :: words
           end
  end.

(** [sep.join(words)] *)
Fixpoint py_join (sep : string) (words : list string) : string :=
  match words with
  | [] => EmptyString
  | [word] => word
  | word :: words => String.append word (String.append sep (py_join sep words))
  end.

(** [l[:-1]] *)
Definition py_but_last {A : Type} (l : list A) : list A :=
  take (length l - 1)%nat l.

Definition file_name_noext (file_name : string) : string :=
  py_join "." (py_but_last (py_split "."%char file_name)).

(** ** Sample sources

    Small sources on which the properties below are run. *)

(** A frame of one pixel. *)
Definition pixel_frame (v : Z) : Frame := [[v]].

(** A video of [n] one-pixel frames, frame [k] of value [k mod 256], whose
    container reports [count] frames. *)
Definition sample_video (n : nat) (count : Z) : InputTypeVideo.VideoCapture :=
  InputTypeVideo.mkCap
    ((fun k => pixel_frame (Z.of_nat k mod 256)) <$> seq 0 n) 0 count 1 1.

(** A [.vid] file of [n] one-pixel records, record [k] of value [k] and read
    at second [1000 + k]. *)
Definition sample_vid (n : nat) : InputTypeUWOVid.VidFile :=
  InputTypeUWOVid.mkFile
    ((fun k => (InputTypeUWOVid.mkVid (1000 + Z.of_nat k) 0 8 1 1,
                pixel_frame (Z.of_nat k))) <$> seq 0 n)
    8 0.

(** A folder of two one-pixel images, of values 0 and 5. *)
Definition sample_images : list InputTypeImages.ImageFile :=
  [InputTypeImages.mkImg "a.png" (pixel_frame 0);
   InputTypeImages.mkImg "b.png" (pixel_frame 5)].

(** A folder of [n] archive files of 256 one-pixel frames each. *)
Definition sample_ff_names (n : nat) : list string :=
  (fun k => String.append "FF_" (pretty k)) <$> seq 0 n.

Definition sample_ff_files (n : nat) : gmap string FFMimickInterface :=
  list_to_map
    ((fun name => (name, mkFF (pixel_frame 9) (pixel_frame 4) 1 1 256))
       <$> sample_ff_names n).

(** A folder of [n] one-pixel images, image [k] of value [k]. *)
Definition sample_image_folder (n : nat) : list InputTypeImages.ImageFile :=
  (fun k => InputTypeImages.mkImg (String.append (pretty k) ".png")
              (pixel_frame (Z.of_nat k))) <$> seq 0 n.

(** The handle the image constructor returns for [sample_images]: its
    first chunk is loaded and cached. *)
Definition sample_images_handle : InputTypeImages.t :=
  {| InputTypeImages.img_list := sample_images;
     InputTypeImages.current_frame_chunk := 0;
     InputTypeImages.total_frames := 2;
     InputTypeImages.current_frame := 0;
     InputTypeImages.current_img_file :=
       InputTypeImages.mkImg "a.png" (pixel_frame 0);
     InputTypeImages.nrows := 1;
     InputTypeImages.ncols := 1;
     InputTypeImages.fr_chunk_no := 64;
     InputTypeImages.current_fr_chunk_size := 1;
     InputTypeImages.total_fr_chunks := 1;
     InputTypeImages.cache :=
       {[ 0 := mkFF (pixel_frame 0) (pixel_frame 0) 1 1 2 ]} |}.

(** The handle the binary-stream constructor returns for [sample_vid 3]. *)
Definition sample_uwovid_handle : InputTypeUWOVid.t :=
  {| InputTypeUWOVid.vid := InputTypeUWOVid.mkVid 1002 0 8 1 1;
     InputTypeUWOVid.vid_file := InputTypeUWOVid.seek (sample_vid 3) 24;
     InputTypeUWOVid.vidinfo := InputTypeUWOVid.mkVid 1000 0 8 1 1;
     InputTypeUWOVid.current_frame_chunk := 0;
     InputTypeUWOVid.current_frame := 0;
     InputTypeUWOVid.current_fr_chunk_size := 3;
     InputTypeUWOVid.total_frames := 3;
     InputTypeUWOVid.nrows := 1;
     InputTypeUWOVid.ncols := 1;
     InputTypeUWOVid.fr_chunk_no := 128;
     InputTypeUWOVid.total_fr_chunks := 1;
     InputTypeUWOVid.frame_chunk_unix_times :=
       [1000%float; 1001%float; 1002%float];
     InputTypeUWOVid.fps := 1.5%float;
     InputTypeUWOVid.cache :=
       {[ 0 := (mkFF (pixel_frame 2) (pixel_frame 1) 1 1 3,
                [1000%float; 1001%float; 1002%float]) ]} |}.

(** An archive handle on three files, two frames into the second file,
    with the first file still in the cache: the handle after the
    constructor, one [nextChunk] and two calls of [nextFrame]. *)
Definition sample_ff_handle : InputTypeFF.t :=
  {| InputTypeFF.ff_files := sample_ff_files 3;
     InputTypeFF.ff_list := sample_ff_names 3;
     InputTypeFF.current_ff_index := 1;
     InputTypeFF.current_ff_file := "FF_1";
     InputTypeFF.current_frame := 2;
     InputTypeFF.cache :=
       {[ "FF_0" := mkFF (pixel_frame 9) (pixel_frame 4) 1 1 256 ]};
     InputTypeFF.ff := Some (mkFF (pixel_frame 9) (pixel_frame 4) 1 1 256) |}.

(** * Properties *)

(** ** Arithmetic of the Python operators *)

Lemma py_mod_ok (a b : Z) : b ≠ 0 -> py_mod a b = Ok (a mod b).
Proof.
  intros Hb. unfold py_mod.
  destruct (Z.eqb_spec b 0) as [->|_]; [contradiction|reflexivity].
Qed.

Lemma py_mod_zero (a : Z) : py_mod a 0 = Raise ZeroDivisionError.
Proof. reflexivity. Qed.

Lemma py_index_ok {A : Type} (l : list A) (i : Z) :
  0 <= i < Z.of_nat (length l) -> exists x, py_index l i = Ok x.
Proof.
  intros Hi. unfold py_index.
  destruct (Z.ltb_spec i 0) as [?|_]; [lia|].
  destruct (Z.leb_spec 0 i) as [_|?]; [|lia].
  destruct (Z.ltb_spec i (Z.of_nat (length l))) as [_|?]; [|lia].
  simpl. destruct (l !! Z.to_nat i) as [x|] eqn:Hx; [eauto|].
  apply lookup_ge_None in Hx. lia.
Qed.

Lemma compute_total_fr_chunks_max (total_frames fr_chunk_no : Z) :
  0 <= total_frames -> 0 < fr_chunk_no ->
  compute_total_fr_chunks total_frames fr_chunk_no
  = Z.max 1 (total_frames / fr_chunk_no).
Proof.
  intros Ht Hc. unfold compute_total_fr_chunks.
  assert (0 <= total_frames / fr_chunk_no) by (apply Z.div_pos; lia).
  destruct (Z.eqb_spec (total_frames / fr_chunk_no) 0); lia.
Qed.

(** ** What the methods leave alone *)

(** The fields of a streaming handle that only its constructor assigns. *)
Definition video_static (self : InputTypeVideo.t) : Z * Z * Z :=
  (InputTypeVideo.total_frames self, InputTypeVideo.fr_chunk_no self,
   InputTypeVideo.total_fr_chunks self).

Definition uwovid_static (self : InputTypeUWOVid.t) : Z * Z * Z :=
  (InputTypeUWOVid.total_frames self, InputTypeUWOVid.fr_chunk_no self,
   InputTypeUWOVid.total_fr_chunks self).

Definition images_static (self : InputTypeImages.t)
    : Z * Z * Z * list InputTypeImages.ImageFile :=
  (InputTypeImages.total_frames self, InputTypeImages.fr_chunk_no self,
   InputTypeImages.total_fr_chunks self, InputTypeImages.img_list self).

(** Inversion of a monadic step in a hypothesis [H : (x ← m; k) = Ok r]. *)
Ltac inv_bind H :=
  match type of H with
  | mbind _ ?m = Ok _ =>
      let E := fresh "E" in
      destruct m eqn:E; simpl in H; [|discriminate H]
  | fmap _ ?m = Ok _ =>
      let E := fresh "E" in
      destruct m eqn:E; simpl in H; [|discriminate H]
  end.

Ltac inv_ok H := injection H as <-.

Lemma video_call_static (c : call) (self self' : InputTypeVideo.t) :
  do_call c self = Ok self' -> video_static self' = video_static self.
Proof.
  destruct c; simpl; intros H.
  - unfold InputTypeVideo.nextChunk in H. inv_bind H. inv_ok H. reflexivity.
  - unfold InputTypeVideo.prevChunk in H. inv_bind H. inv_ok H. reflexivity.
  - inv_bind H. inv_ok H. unfold InputTypeVideo.loadChunk in E.
    destruct (InputTypeVideo.cache self !! _).
    + injection E as <-. reflexivity.
    + inv_bind E. destruct a0 as [[i|] [c [mx av]]]; [|discriminate E].
      injection E as <-. reflexivity.
  - unfold InputTypeVideo.nextFrame in H. inv_bind H. inv_ok H. reflexivity.
  - unfold InputTypeVideo.prevFrame in H. inv_bind H. inv_ok H. reflexivity.
Qed.

Lemma uwovid_call_static (c : call) (self self' : InputTypeUWOVid.t) :
  do_call c self = Ok self' -> uwovid_static self' = uwovid_static self.
Proof.
  destruct c; simpl; intros H.
  - unfold InputTypeUWOVid.nextChunk in H. inv_bind H. inv_ok H. reflexivity.
  - unfold InputTypeUWOVid.prevChunk in H. inv_bind H. inv_ok H. reflexivity.
  - inv_bind H. inv_ok H. unfold InputTypeUWOVid.loadChunk in E.
    destruct (InputTypeUWOVid.cache self !! _) as [[ff times]|].
    + destruct (is_minus_one read_nframes); injection E as <-; reflexivity.
    + inv_bind E. destruct a0 as [[i|] [[[v f] times] [mx av]]];
        [|discriminate E].
      injection E as <-. reflexivity.
  - unfold InputTypeUWOVid.nextFrame in H. inv_bind H. inv_ok H. reflexivity.
  - unfold InputTypeUWOVid.prevFrame in H. inv_bind H. inv_ok H. reflexivity.
Qed.

Lemma images_call_static (c : call) (self self' : InputTypeImages.t) :
  do_call c self = Ok self' -> images_static self' = images_static self.
Proof.
  destruct c; simpl; intros H.
  - unfold InputTypeImages.nextChunk in H. inv_bind H. inv_ok H. reflexivity.
  - unfold InputTypeImages.prevChunk in H. inv_bind H. inv_ok H. reflexivity.
  - inv_bind H. inv_ok H. unfold InputTypeImages.loadChunk in E.
    destruct (InputTypeImages.cache self !! _).
    + injection E as <-. reflexivity.
    + inv_bind E. destruct a0 as [[i|] [mx av]]; [|discriminate E].
      injection E as <-. reflexivity.
  - unfold InputTypeImages.nextFrame in H. inv_bind H. inv_bind H.
    inv_ok H. reflexivity.
  - unfold InputTypeImages.prevFrame in H. inv_bind H. inv_bind H.
    inv_ok H. reflexivity.
Qed.

(** A property of the handle that each call preserves holds after any
    sequence of calls. *)
Lemma do_calls_preserve {T : Type} `{Handle T} (P : T -> Prop) :
  (forall c self self', P self -> do_call c self = Ok self' -> P self') ->
  forall cs self self', P self -> do_calls cs self = Ok self' -> P self'.
Proof.
  intros Hstep cs. induction cs as [|c cs IH]; simpl; intros self self' HP Hr.
  - injection Hr as <-. exact HP.
  - inv_bind Hr. eapply IH; [|exact Hr]. eapply Hstep; eauto.
Qed.

(** ** Construction: the number of chunks *)

(** On a constructed handle [self0] with chunk length [len]: the number of
    chunks is [frame_count // len] clamped to at least 1, and after any
    sequence of calls it is still at least 1 and both chunk steps return. *)
Definition chunks_clamped {T : Type} `{Handle T} (self0 : T) (len : Z) : Prop :=
  chunk_count self0 = Z.max 1 (frame_count self0 / len)
  /\ forall cs self, do_calls cs self0 = Ok self ->
       1 <= chunk_count self
       /\ (exists self', next_chunk self = Ok self')
       /\ (exists self', prev_chunk self = Ok self').

Lemma video_init_static (c : InputTypeVideo.VideoCapture) :
  video_static (InputTypeVideo.init c)
  = (InputTypeVideo.cap_frame_count c, 256,
     compute_total_fr_chunks (InputTypeVideo.cap_frame_count c) 256).
Proof. reflexivity. Qed.

Lemma uwovid_init_static (f : InputTypeUWOVid.VidFile)
    (self0 : InputTypeUWOVid.t) :
  InputTypeUWOVid.init f = Ok self0 ->
  uwovid_static self0
  = (InputTypeUWOVid.total_frames self0, 128,
     compute_total_fr_chunks (InputTypeUWOVid.total_frames self0) 128).
Proof.
  unfold InputTypeUWOVid.init. intros H.
  destruct (InputTypeUWOVid.readVidFrame _ f) as [[frame v] f'].
  inv_bind H. inv_bind H. destruct a0 as [r self]. inv_bind H. inv_ok H.
  match type of E0 with
  | InputTypeUWOVid.loadChunk None ?s0 = _ =>
      pose proof (uwovid_call_static (LoadChunk None) s0 self) as Hs
  end.
  simpl in Hs. rewrite E0 in Hs. specialize (Hs eq_refl).
  unfold uwovid_static in *. simpl in *. congruence.
Qed.

Lemma images_init_static (imgs : list InputTypeImages.ImageFile)
    (self0 : InputTypeImages.t) :
  InputTypeImages.init imgs = Ok self0 ->
  images_static self0
  = (Z.of_nat (length imgs), 64,
     compute_total_fr_chunks (Z.of_nat (length imgs)) 64, imgs).
Proof.
  unfold InputTypeImages.init. intros H.
  destruct imgs as [|first rest]; [discriminate H|].
  inv_bind H. inv_bind H. destruct a0 as [r self]. inv_ok H.
  match type of E0 with
  | InputTypeImages.loadChunk None ?s0 = _ =>
      pose proof (images_call_static (LoadChunk None) s0 self) as Hs
  end.
  simpl in Hs. rewrite E0 in Hs. specialize (Hs eq_refl).
  exact Hs.
Qed.

Lemma compute_total_fr_chunks_pos (total_frames fr_chunk_no : Z) :
  0 <= total_frames -> 0 < fr_chunk_no ->
  1 <= compute_total_fr_chunks total_frames fr_chunk_no.
Proof.
  intros Ht Hc. rewrite compute_total_fr_chunks_max by assumption. lia.
Qed.

Lemma video_chunks_clamped (self0 : InputTypeVideo.t) (len : Z) :
  0 <= InputTypeVideo.total_frames self0 -> 0 < len ->
  InputTypeVideo.total_fr_chunks self0
  = compute_total_fr_chunks (InputTypeVideo.total_frames self0) len ->
  chunks_clamped self0 len.
Proof.
  intros Ht Hlen Hc. split.
  - simpl. rewrite Hc. apply compute_total_fr_chunks_max; assumption.
  - intros cs self Hrun.
    assert (video_static self = video_static self0) as Hs.
    { apply (do_calls_preserve
               (fun s => video_static s = video_static self0))
        with (cs := cs) (self := self0); [|reflexivity|exact Hrun].
      intros c s s' HP Hcall. rewrite <- HP.
      eapply video_call_static; eauto. }
    injection Hs as _ _ Hs.
    pose proof (compute_total_fr_chunks_pos _ _ Ht Hlen) as Hpos.
    simpl. unfold InputTypeVideo.nextChunk, InputTypeVideo.prevChunk.
    rewrite !py_mod_ok by lia. simpl. split; [lia|eauto].
Qed.

Lemma uwovid_chunks_clamped (self0 : InputTypeUWOVid.t) (len : Z) :
  0 <= InputTypeUWOVid.total_frames self0 -> 0 < len ->
  InputTypeUWOVid.total_fr_chunks self0
  = compute_total_fr_chunks (InputTypeUWOVid.total_frames self0) len ->
  chunks_clamped self0 len.
Proof.
  intros Ht Hlen Hc. split.
  - simpl. rewrite Hc. apply compute_total_fr_chunks_max; assumption.
  - intros cs self Hrun.
    assert (uwovid_static self = uwovid_static self0) as Hs.
    { apply (do_calls_preserve
               (fun s => uwovid_static s = uwovid_static self0))
        with (cs := cs) (self := self0); [|reflexivity|exact Hrun].
      intros c s s' HP Hcall. rewrite <- HP.
      eapply uwovid_call_static; eauto. }
    injection Hs as _ _ Hs.
    pose proof (compute_total_fr_chunks_pos _ _ Ht Hlen) as Hpos.
    simpl. unfold InputTypeUWOVid.nextChunk, InputTypeUWOVid.prevChunk.
    rewrite !py_mod_ok by lia. simpl. split; [lia|eauto].
Qed.

Lemma images_chunks_clamped (self0 : InputTypeImages.t) (len : Z) :
  0 <= InputTypeImages.total_frames self0 -> 0 < len ->
  InputTypeImages.total_fr_chunks self0
  = compute_total_fr_chunks (InputTypeImages.total_frames self0) len ->
  chunks_clamped self0 len.
Proof.
  intros Ht Hlen Hc. split.
  - simpl. rewrite Hc. apply compute_total_fr_chunks_max; assumption.
  - intros cs self Hrun.
    assert (images_static self = images_static self0) as Hs.
    { apply (do_calls_preserve
               (fun s => images_static s = images_static self0))
        with (cs := cs) (self := self0); [|reflexivity|exact Hrun].
      intros c s s' HP Hcall. rewrite <- HP.
      eapply images_call_static; eauto. }
    injection Hs as _ _ Hs _.
    pose proof (compute_total_fr_chunks_pos _ _ Ht Hlen) as Hpos.
    simpl. unfold InputTypeImages.nextChunk, InputTypeImages.prevChunk.
    rewrite !py_mod_ok by lia. simpl. split; [lia|eauto].
Qed.

(** C9: each of the three handles that aggregate raw frames is constructed
    with [total_fr_chunks = total_frames // fr_chunk_no] clamped to at least
    1 (for a frame count that is not negative); the count stays at least 1
    under every sequence of calls, also for a source shorter than one chunk,
    and [nextChunk] and [prevChunk] then return instead of dividing by
    zero. *)
Theorem C9_total_chunks_clamped :
  (forall c : InputTypeVideo.VideoCapture,
     0 <= InputTypeVideo.cap_frame_count c ->
     chunks_clamped (InputTypeVideo.init c) 256)
  /\ (forall (f : InputTypeUWOVid.VidFile) (self0 : InputTypeUWOVid.t),
        InputTypeUWOVid.init f = Ok self0 ->
        0 <= InputTypeUWOVid.total_frames self0 ->
        chunks_clamped self0 128)
  /\ (forall (imgs : list InputTypeImages.ImageFile)
        (self0 : InputTypeImages.t),
        InputTypeImages.init imgs = Ok self0 ->
        chunks_clamped self0 64).
Proof.
  split; [|split].
  - intros c Hc. apply video_chunks_clamped; [exact Hc|lia|reflexivity].
  - intros f self0 Hinit Ht.
    pose proof (uwovid_init_static f self0 Hinit) as Hs.
    injection Hs as _ Hs.
    apply uwovid_chunks_clamped; [exact Ht|lia|exact Hs].
  - intros imgs self0 Hinit.
    pose proof (images_init_static imgs self0 Hinit) as Hs.
    injection Hs as Ht _ Hs _.
    apply images_chunks_clamped; [lia|lia|congruence].
Qed.

(** ** Frame navigation *)

(** One frame step of a handle: it returns, moves the frame index by
    [delta] modulo the frame count and leaves the chunk index, the frame
    count and the consistency of the fields as they were. *)
Definition frame_step {T : Type} `{Handle T} (step : T -> result T)
    (delta : Z) (self : T) : Prop :=
  exists self', step self = Ok self'
    /\ frame_index self' = (frame_index self + delta) mod frame_count self
    /\ chunk_index self' = chunk_index self
    /\ frame_count self' = frame_count self
    /\ consistent self'.

Definition frame_navigation (T : Type) `{Handle T} : Prop :=
  forall self : T, consistent self -> 0 < frame_count self ->
    (exists self', next_frame self = Ok self'
       /\ frame_index self' = (frame_index self + 1) mod frame_count self
       /\ chunk_index self' = chunk_index self)
    /\ (exists self', prev_frame self = Ok self'
          /\ frame_index self' = (frame_index self - 1) mod frame_count self
          /\ chunk_index self' = chunk_index self)
    /\ (forall N : nat, frame_index self = 0 ->
          exists self', do_calls (replicate N NextFrame) self = Ok self'
            /\ frame_index self' = Z.of_nat N mod frame_count self).

Lemma frame_steps_iterate (T : Type) `{Handle T} :
  (forall self : T, consistent self -> 0 < frame_count self ->
     frame_step next_frame 1 self) ->
  forall (N : nat) (self : T) (k : Z),
    consistent self -> 0 < frame_count self ->
    frame_index self = k mod frame_count self ->
    exists self', do_calls (replicate N NextFrame) self = Ok self'
      /\ frame_index self' = (k + Z.of_nat N) mod frame_count self.
Proof.
  intros Hstep. induction N as [|N IH]; intros self k Hc Hpos Hk.
  - exists self. split; [reflexivity|]. rewrite Z.add_0_r. exact Hk.
  - destruct (Hstep self Hc Hpos) as (s1 & E1 & F1 & _ & T1 & C1).
    destruct (IH s1 (k + 1)) as (s2 & E2 & F2).
    + exact C1.
    + rewrite T1. exact Hpos.
    + rewrite F1, T1, Hk. apply Zplus_mod_idemp_l.
    + exists s2. split.
      * simpl. rewrite E1. exact E2.
      * rewrite F2, T1. f_equal. lia.
Qed.

Lemma frame_steps_navigation (T : Type) `{Handle T} :
  (forall self : T, consistent self -> 0 < frame_count self ->
     frame_step next_frame 1 self /\ frame_step prev_frame (-1) self) ->
  frame_navigation T.
Proof.
  intros Hstep self Hc Hpos.
  destruct (Hstep self Hc Hpos)
    as [(s1 & E1 & F1 & C1 & _) (s2 & E2 & F2 & C2 & _)].
  split; [eauto|]. split.
  - exists s2. split; [exact E2|]. split; [exact F2|exact C2].
  - intros N H0.
    destruct (frame_steps_iterate T (fun s c p => proj1 (Hstep s c p))
                N self 0 Hc Hpos) as (s' & E & F).
    + rewrite H0. symmetry. apply Z.mod_0_l. lia.
    + exists s'. split; [exact E|exact F].
Qed.

Lemma video_frame_steps (self : InputTypeVideo.t) :
  0 < frame_count self ->
  frame_step next_frame 1 self /\ frame_step prev_frame (-1) self.
Proof.
  simpl. intros Hpos.
  unfold frame_step; simpl.
  unfold InputTypeVideo.nextFrame, InputTypeVideo.prevFrame.
  rewrite !py_mod_ok by lia. simpl. split; eexists; eauto.
Qed.

Lemma uwovid_frame_steps (self : InputTypeUWOVid.t) :
  0 < frame_count self ->
  frame_step next_frame 1 self /\ frame_step prev_frame (-1) self.
Proof.
  simpl. intros Hpos.
  unfold frame_step; simpl.
  unfold InputTypeUWOVid.nextFrame, InputTypeUWOVid.prevFrame.
  rewrite !py_mod_ok by lia. simpl. split; eexists; eauto.
Qed.

Lemma images_frame_steps (self : InputTypeImages.t) :
  consistent self -> 0 < frame_count self ->
  frame_step next_frame 1 self /\ frame_step prev_frame (-1) self.
Proof.
  simpl. intros Hc Hpos.
  unfold frame_step; simpl.
  unfold InputTypeImages.nextFrame, InputTypeImages.prevFrame.
  rewrite !py_mod_ok by lia. simpl.
  destruct (py_index_ok (InputTypeImages.img_list self)
              ((InputTypeImages.current_frame self + 1)
               mod InputTypeImages.total_frames self)) as [x1 E1].
  { rewrite <- Hc. apply Z.mod_pos_bound. exact Hpos. }
  destruct (py_index_ok (InputTypeImages.img_list self)
              ((InputTypeImages.current_frame self - 1)
               mod InputTypeImages.total_frames self)) as [x2 E2].
  { rewrite <- Hc. apply Z.mod_pos_bound. exact Hpos. }
  rewrite E1, E2. simpl. split; eexists; eauto.
Qed.

Lemma ff_frame_steps (self : InputTypeFF.t) :
  0 < frame_count self ->
  frame_step next_frame 1 self /\ frame_step prev_frame (-1) self.
Proof.
  simpl. intros Hpos.
  unfold frame_step; simpl.
  unfold InputTypeFF.nextFrame, InputTypeFF.prevFrame, InputTypeFF.get_ff.
  destruct (InputTypeFF.ff self) as [ff|] eqn:Eff; [|lia]. simpl.
  rewrite !py_mod_ok by lia. simpl.
  split; eexists; (split; [reflexivity|]); simpl; rewrite Eff; auto.
Qed.

(** C7: on every handle with at least one frame, [nextFrame] and
    [prevFrame] return and set the frame index to (index + 1) and
    (index - 1) modulo the frame count, the chunk index is unchanged, and
    [N] calls of [nextFrame] from frame 0 leave the index at [N] modulo the
    frame count.  The archive handle counts the frames of its loaded file;
    the image handle is taken with [total_frames = len(img_list)], which its
    constructor sets. *)
Theorem C7_frame_navigation :
  frame_navigation InputTypeFF.t
  /\ frame_navigation InputTypeVideo.t
  /\ frame_navigation InputTypeUWOVid.t
  /\ frame_navigation InputTypeImages.t.
Proof.
  split; [|split; [|split]];
    apply frame_steps_navigation; intros self Hc Hpos.
  - apply ff_frame_steps; exact Hpos.
  - apply video_frame_steps; exact Hpos.
  - apply uwovid_frame_steps; exact Hpos.
  - apply images_frame_steps; assumption.
Qed.

(** ** Chunk navigation *)

(** Both chunk steps of a handle with at least one chunk return and move the
    chunk index by one modulo the number of chunks; [frame_after self self']
    says what the step does to the frame index. *)
Definition chunk_navigation (T : Type) `{Handle T}
    (frame_after : T -> T -> Prop) : Prop :=
  forall self : T, 0 < chunk_count self ->
    (exists self', next_chunk self = Ok self'
       /\ chunk_index self' = (chunk_index self + 1) mod chunk_count self
       /\ frame_after self self')
    /\ (exists self', prev_chunk self = Ok self'
          /\ chunk_index self' = (chunk_index self - 1) mod chunk_count self
          /\ frame_after self self').

Lemma video_chunk_navigation :
  chunk_navigation InputTypeVideo.t
    (fun _ self' =>
       frame_index self' = chunk_index self' * InputTypeVideo.fr_chunk_no self').
Proof.
  intros self Hpos. simpl in *.
  unfold InputTypeVideo.nextChunk, InputTypeVideo.prevChunk.
  rewrite !py_mod_ok by lia. simpl. split; eexists; eauto.
Qed.

Lemma uwovid_chunk_navigation :
  chunk_navigation InputTypeUWOVid.t
    (fun _ self' =>
       frame_index self'
       = chunk_index self' * InputTypeUWOVid.fr_chunk_no self').
Proof.
  intros self Hpos. simpl in *.
  unfold InputTypeUWOVid.nextChunk, InputTypeUWOVid.prevChunk.
  rewrite !py_mod_ok by lia. simpl. split; eexists; eauto.
Qed.

Lemma images_chunk_navigation :
  chunk_navigation InputTypeImages.t
    (fun _ self' =>
       frame_index self'
       = chunk_index self' * InputTypeImages.fr_chunk_no self').
Proof.
  intros self Hpos. simpl in *.
  unfold InputTypeImages.nextChunk, InputTypeImages.prevChunk.
  rewrite !py_mod_ok by lia. simpl. split; eexists; eauto.
Qed.

Lemma ff_chunk_navigation :
  chunk_navigation InputTypeFF.t
    (fun self self' => frame_index self' = frame_index self).
Proof.
  intros self Hpos. simpl in *.
  unfold InputTypeFF.nextChunk, InputTypeFF.prevChunk.
  rewrite !py_mod_ok by lia. simpl.
  destruct (py_index_ok (InputTypeFF.ff_list self)
              ((InputTypeFF.current_ff_index self + 1)
               mod Z.of_nat (length (InputTypeFF.ff_list self)))) as [x1 E1].
  { apply Z.mod_pos_bound. exact Hpos. }
  destruct (py_index_ok (InputTypeFF.ff_list self)
              ((InputTypeFF.current_ff_index self - 1)
               mod Z.of_nat (length (InputTypeFF.ff_list self)))) as [x2 E2].
  { apply Z.mod_pos_bound. exact Hpos. }
  rewrite E1, E2. simpl. split; eexists; eauto.
Qed.

(** C6, as the code has it: on every handle with at least one chunk,
    [nextChunk] and [prevChunk] return and set the chunk index to
    (index + 1) and (index - 1) modulo the number of chunks.  The three
    streaming handles then reset the frame index to
    [chunk index * fr_chunk_no]; the archive handle leaves its frame index
    as it was.  With 300 archive files, [nextChunk] from index 299 gives
    index 0. *)
Theorem C6_chunk_navigation :
  chunk_navigation InputTypeVideo.t
    (fun _ self' =>
       frame_index self' = chunk_index self' * InputTypeVideo.fr_chunk_no self')
  /\ chunk_navigation InputTypeUWOVid.t
       (fun _ self' =>
          frame_index self'
          = chunk_index self' * InputTypeUWOVid.fr_chunk_no self')
  /\ chunk_navigation InputTypeImages.t
       (fun _ self' =>
          frame_index self'
          = chunk_index self' * InputTypeImages.fr_chunk_no self')
  /\ chunk_navigation InputTypeFF.t
       (fun self self' => frame_index self' = frame_index self)
  /\ (forall self : InputTypeFF.t,
        length (InputTypeFF.ff_list self) = 300%nat ->
        InputTypeFF.current_ff_index self = 299 ->
        exists self', InputTypeFF.nextChunk self = Ok self'
          /\ InputTypeFF.current_ff_index self' = 0).
Proof.
  split; [apply video_chunk_navigation|].
  split; [apply uwovid_chunk_navigation|].
  split; [apply images_chunk_navigation|].
  split; [apply ff_chunk_navigation|].
  intros self Hlen Hidx.
  destruct (ff_chunk_navigation self) as [(self' & E & C & _) _].
  { simpl. rewrite Hlen. lia. }
  exists self'. split; [exact E|].
  simpl in C. rewrite C, Hlen, Hidx. reflexivity.
Qed.

(** ** The aggregation loop of the video handle *)

(** The frames the capture can still decode from its position on. *)
Definition frames_ahead (c : InputTypeVideo.VideoCapture) : list Frame :=
  drop (Z.to_nat (InputTypeVideo.cap_pos c)) (InputTypeVideo.cap_frames c).

(** The value of [i] after [for i in range(j, j + m)] when [ahead] frames
    can be decoded: the index of the iteration that met the end of the
    stream, or else the last index of the range. *)
Definition last_index (j : Z) (i : option Z) (m ahead : nat) : option Z :=
  if (ahead <? m)%nat then Some (j + Z.of_nat ahead)
  else if (m =? 0)%nat then i
  else Some (j + Z.of_nat m - 1).

Lemma cap_set_pos_same (c : InputTypeVideo.VideoCapture) :
  InputTypeVideo.cap_set_pos c (InputTypeVideo.cap_pos c + Z.of_nat 0) = c.
Proof. destruct c. unfold InputTypeVideo.cap_set_pos. simpl. f_equal. lia. Qed.

Lemma video_loop (n : Z) (m : nat) :
  forall (j : Z) (i : option Z) (c : InputTypeVideo.VideoCapture)
         (acc : Frame * FloatFrame),
    0 <= InputTypeVideo.cap_pos c ->
    for_in (InputTypeVideo.loop_body n) (seqZ j (Z.of_nat m)) i (c, acc)
    = Ok (last_index j i m (length (frames_ahead c)),
          (InputTypeVideo.cap_set_pos c
             (InputTypeVideo.cap_pos c
              + Z.of_nat (length (take m (frames_ahead c)))),
           fold_left (accumulate n) (take m (frames_ahead c)) acc)).
Proof.
  induction m as [|m IH]; intros j i c acc Hpos.
  - simpl. rewrite cap_set_pos_same. unfold last_index.
    destruct (length (frames_ahead c)); reflexivity.
  - rewrite seqZ_cons by lia.
    replace (Z.pred (Z.of_nat (S m))) with (Z.of_nat m) by lia.
    simpl. unfold InputTypeVideo.loop_body at 1. simpl.
    unfold InputTypeVideo.cap_read.
    destruct (Z.ltb_spec (InputTypeVideo.cap_pos c) 0) as [?|_]; [lia|].
    unfold frames_ahead.
    destruct (InputTypeVideo.cap_frames c
                !! Z.to_nat (InputTypeVideo.cap_pos c)) as [frame|] eqn:Hf.
    + rewrite (drop_S _ _ _ Hf). simpl.
      rewrite IH by (simpl; lia).
      unfold frames_ahead. simpl.
      replace (Z.to_nat (InputTypeVideo.cap_pos c + 1))
        with (S (Z.to_nat (InputTypeVideo.cap_pos c))) by lia.
      set (rest := drop (S (Z.to_nat (InputTypeVideo.cap_pos c)))
                     (InputTypeVideo.cap_frames c)).
      f_equal. f_equal.
      * unfold last_index.
        change (S (length rest) <? S m)%nat with (length rest <? m)%nat.
        destruct (length rest <? m)%nat; [f_equal; lia|].
        destruct m; simpl; f_equal; lia.
      * f_equal. unfold InputTypeVideo.cap_set_pos. simpl. f_equal. lia.
    + apply lookup_ge_None in Hf. rewrite drop_ge by exact Hf. simpl.
      rewrite cap_set_pos_same. unfold last_index. simpl.
      do 3 f_equal. lia.
Qed.

(** The two composites are accumulated independently of each other. *)
Definition sum_step (frames_to_read : Z) (avepixel : FloatFrame)
    (frame : Frame) : FloatFrame :=
  np_add avepixel (np_div (astype_float64 frame) (float_of_Z frames_to_read)).

Lemma fold_accumulate (n : Z) (fs : list Frame) :
  forall (mx : Frame) (av : FloatFrame),
    fold_left (accumulate n) fs (mx, av)
    = (fold_left np_max2 fs mx, fold_left (sum_step n) fs av).
Proof.
  induction fs as [|f fs IH]; intros mx av; [reflexivity|].
  simpl. unfold accumulate at 2. simpl. apply IH.
Qed.

(** The first frame, the requested count and the frames processed by a
    [loadChunk] of the video handle that misses the cache. *)
Definition video_start (read_nframes : option Z) (self : InputTypeVideo.t)
    : Z :=
  if is_minus_one read_nframes then 0
  else InputTypeVideo.current_frame_chunk self * InputTypeVideo.fr_chunk_no self.

Definition video_frames_to_read (read_nframes : option Z)
    (self : InputTypeVideo.t) : Z :=
  computeFramesToRead read_nframes (InputTypeVideo.total_frames self)
    (InputTypeVideo.fr_chunk_no self) (InputTypeVideo.current_frame_chunk self).

Definition video_ahead (read_nframes : option Z) (self : InputTypeVideo.t)
    : list Frame :=
  frames_ahead
    (InputTypeVideo.cap_set_pos (InputTypeVideo.cap self)
       (video_start read_nframes self)).

Definition video_window (read_nframes : option Z) (self : InputTypeVideo.t)
    : list Frame :=
  take (Z.to_nat (video_frames_to_read read_nframes self))
    (video_ahead read_nframes self).

(** What a [loadChunk] that misses the cache computes, stores and returns. *)
Lemma video_loadChunk_miss (read_nframes : option Z)
    (self : InputTypeVideo.t) :
  InputTypeVideo.cache self
    !! cache_id read_nframes (InputTypeVideo.current_frame_chunk self) = None ->
  0 <= video_start read_nframes self ->
  0 < video_frames_to_read read_nframes self ->
  let n := video_frames_to_read read_nframes self in
  let fs := video_window read_nframes self in
  let ff :=
    mkFF (fold_left np_max2 fs
            (np_zeros 0 (InputTypeVideo.nrows self) (InputTypeVideo.ncols self)))
         (astype_uint 8
            (fold_left (sum_step n) fs
               (np_zeros 0%float (InputTypeVideo.nrows self)
                  (InputTypeVideo.ncols self))))
         (InputTypeVideo.nrows self) (InputTypeVideo.ncols self)
         (InputTypeVideo.total_frames self) in
  exists self',
    InputTypeVideo.loadChunk read_nframes self = Ok (ff, self')
    /\ InputTypeVideo.cache self'
       = {[ cache_id read_nframes (InputTypeVideo.current_frame_chunk self)
            := ff ]}
    /\ InputTypeVideo.current_fr_chunk_size self'
       = (if (length (video_ahead read_nframes self) <? Z.to_nat n)%nat
          then Z.of_nat (length (video_ahead read_nframes self)) + 1
          else n)
    /\ InputTypeVideo.cap_pos (InputTypeVideo.cap self')
       = video_start read_nframes self + Z.of_nat (length fs)
    /\ InputTypeVideo.current_frame_chunk self'
       = InputTypeVideo.current_frame_chunk self
    /\ InputTypeVideo.current_frame self' = InputTypeVideo.current_frame self.
Proof.
  intros Hmiss Hstart Hn n fs ff.
  unfold InputTypeVideo.loadChunk. rewrite Hmiss.
  fold (video_frames_to_read read_nframes self). fold n.
  unfold py_range.
  replace (seqZ 0 n) with (seqZ 0 (Z.of_nat (Z.to_nat n)))
    by (rewrite Z2Nat.id; [reflexivity|lia]).
  assert ((if is_minus_one read_nframes
           then InputTypeVideo.cap_set_pos (InputTypeVideo.cap self) 0
           else InputTypeVideo.cap_set_pos (InputTypeVideo.cap self)
                  (InputTypeVideo.current_frame_chunk self
                   * InputTypeVideo.fr_chunk_no self))
          = InputTypeVideo.cap_set_pos (InputTypeVideo.cap self)
              (video_start read_nframes self)) as ->.
  { unfold video_start. destruct (is_minus_one read_nframes); reflexivity. }
  rewrite video_loop by exact Hstart.
  rewrite fold_accumulate. simpl.
  fold (video_ahead read_nframes self).
  fold (video_window read_nframes self). fold fs.
  unfold last_index.
  destruct (length (video_ahead read_nframes self) <? Z.to_nat n)%nat eqn:Hlt.
  - eexists. split; [reflexivity|]. simpl. repeat split.
  - destruct (Nat.eqb_spec (Z.to_nat n) 0) as [?|_]; [lia|].
    eexists. split; [reflexivity|]. simpl. repeat split. lia.
Qed.

(** ** The number of frames to read *)

Lemma computeFramesToRead_spec (read_nframes : option Z)
    (total_frames fr_chunk_no chunk : Z) :
  computeFramesToRead read_nframes total_frames fr_chunk_no chunk
  = if decide (read_nframes = Some (-1)) then total_frames
    else if decide ((chunk + 1) * fr_chunk_no <= total_frames)
         then default fr_chunk_no read_nframes
         else total_frames - chunk * fr_chunk_no.
Proof.
  unfold computeFramesToRead, is_minus_one.
  destruct read_nframes as [n|]; simpl.
  - destruct (Z.eqb_spec n (-1)) as [->|Hn].
    + rewrite decide_True by reflexivity. reflexivity.
    + rewrite decide_False by congruence.
      destruct (Z.gtb_spec ((chunk + 1) * fr_chunk_no) total_frames);
        case_decide; solve [reflexivity | lia].
  - destruct (decide (@None Z = Some (-1))) as [Heq|_]; [discriminate Heq|].
    destruct (Z.gtb_spec ((chunk + 1) * fr_chunk_no) total_frames);
      case_decide; solve [reflexivity | lia].
Qed.

(** C2, as the code has it: without a count, the number of frames to read is
    the nominal chunk length when the nominal window of the chunk ends
    within the source and the remaining length from the chunk offset
    otherwise; for -1 it is the frame count of the source; for a positive
    [N] it is [N] capped at the remaining length whenever [N] is at most
    the remaining length and the nominal window ends within the source, or
    [N] is at least the remaining length and the nominal window does not.
    On a video of 600 frames the constructor sets 2 chunks, the default
    request on chunk 1 records 256 frames and the request -1 records
    600. *)
Theorem C2_frames_to_read :
  (forall total_frames fr_chunk_no chunk : Z,
     computeFramesToRead (Some (-1)) total_frames fr_chunk_no chunk
     = total_frames
     /\ ((chunk + 1) * fr_chunk_no <= total_frames ->
         computeFramesToRead None total_frames fr_chunk_no chunk
         = fr_chunk_no)
     /\ (total_frames < (chunk + 1) * fr_chunk_no ->
         computeFramesToRead None total_frames fr_chunk_no chunk
         = total_frames - chunk * fr_chunk_no)
     /\ (forall N : Z, 0 < N ->
           ((chunk + 1) * fr_chunk_no <= total_frames
            /\ N <= total_frames - chunk * fr_chunk_no)
           \/ (total_frames < (chunk + 1) * fr_chunk_no
               /\ total_frames - chunk * fr_chunk_no <= N) ->
           computeFramesToRead (Some N) total_frames fr_chunk_no chunk
           = Z.min N (total_frames - chunk * fr_chunk_no)))
  /\ (forall c : InputTypeVideo.VideoCapture,
        InputTypeVideo.cap_frame_count c = 600 ->
        length (InputTypeVideo.cap_frames c) = 600%nat ->
        InputTypeVideo.total_fr_chunks (InputTypeVideo.init c) = 2
        /\ exists self1 ff self2 ff' self3,
             InputTypeVideo.nextChunk (InputTypeVideo.init c) = Ok self1
             /\ InputTypeVideo.current_frame_chunk self1 = 1
             /\ InputTypeVideo.loadChunk None self1 = Ok (ff, self2)
             /\ InputTypeVideo.current_fr_chunk_size self2 = 256
             /\ InputTypeVideo.loadChunk (Some (-1)) self1 = Ok (ff', self3)
             /\ InputTypeVideo.current_fr_chunk_size self3 = 600).
Proof.
  split.
  - intros total_frames fr_chunk_no chunk.
    split; [reflexivity|]. split; [|split].
    + intros H. rewrite computeFramesToRead_spec.
      repeat case_decide; solve [discriminate | reflexivity | lia].
    + intros H. rewrite computeFramesToRead_spec.
      repeat case_decide; solve [discriminate | reflexivity | lia].
    + intros N HN H. rewrite computeFramesToRead_spec.
      case_decide as Heq; [injection Heq as ->; lia|].
      case_decide; simpl; lia.
  - intros c Hcount Hlen.
    assert (InputTypeVideo.total_fr_chunks (InputTypeVideo.init c) = 2) as H2.
    { simpl. rewrite Hcount. reflexivity. }
    split; [exact H2|].
    set (self1 := InputTypeVideo.set_chunk (InputTypeVideo.init c) 1 256).
    assert (length (video_ahead None self1) = 344%nat) as Ha1.
    { unfold video_ahead, frames_ahead. simpl. rewrite length_drop, Hlen.
      reflexivity. }
    assert (length (video_ahead (Some (-1)) self1) = 600%nat) as Ha2.
    { unfold video_ahead, frames_ahead. simpl. rewrite drop_0. exact Hlen. }
    assert (video_frames_to_read None self1 = 256) as Hn1.
    { unfold video_frames_to_read. simpl. rewrite Hcount. reflexivity. }
    assert (video_frames_to_read (Some (-1)) self1 = 600) as Hn2.
    { unfold video_frames_to_read. simpl. rewrite Hcount. reflexivity. }
    destruct (video_loadChunk_miss None self1)
      as (self2 & E2 & _ & S2 & _);
      [reflexivity|unfold video_start; simpl; lia|lia|].
    destruct (video_loadChunk_miss (Some (-1)) self1)
      as (self3 & E3 & _ & S3 & _);
      [reflexivity|unfold video_start; simpl; lia|lia|].
    rewrite Ha1, Hn1 in S2. rewrite Ha2, Hn2 in S3.
    eexists self1, _, self2, _, self3.
    split; [|split; [reflexivity|]].
    { unfold InputTypeVideo.nextChunk. rewrite H2. reflexivity. }
    split; [exact E2|]. split; [exact S2|].
    split; [exact E3|exact S3].
Qed.

Lemma C2_frames_to_read_witness :
  computeFramesToRead None 600 256 1 = 256
  /\ computeFramesToRead None 100 256 0 = 100 - 0 * 256
  /\ computeFramesToRead (Some 100) 600 256 1 = Z.min 100 (600 - 1 * 256)
  /\ computeFramesToRead (Some 300) 600 256 0 = Z.min 300 (600 - 0 * 256)
  /\ computeFramesToRead (Some 344) 600 256 1 = Z.min 344 (600 - 1 * 256)
  /\ computeFramesToRead (Some 300) 100 256 0 = Z.min 300 (100 - 0 * 256)
  /\ InputTypeVideo.total_fr_chunks
       (InputTypeVideo.init (sample_video 600 600)) = 2.
Proof.
  destruct C2_frames_to_read as [Hc Hv].
  split; [apply (Hc 600 256 1); lia|].
  split; [apply (Hc 100 256 0); lia|].
  split; [apply (Hc 600 256 1); lia|].
  split; [apply (Hc 600 256 0); lia|].
  split; [apply (Hc 600 256 1); lia|].
  split; [apply (Hc 100 256 0); lia|].
  apply (Hv (sample_video 600 600)); reflexivity.
Defined.

(** C2, as stated, fails on the video of 600 frames: the default request
    on chunk 1 reads and records 256 frames, the chunk length its
    docstring promises, not the 344 that remain from the chunk offset.
    The cap on a positive count fails too, on both sides of the test on
    the nominal window: a request of 400 frames on chunk 1 is not capped
    to the 344 that remain, and on a source of 100 frames a request of 10
    frames becomes a request of 100.  On that source of 100 frames the
    request without a count is one of 100 frames, not of the chunk
    length. *)
Lemma C2_counterexample :
  exists self1 ff self2,
    InputTypeVideo.nextChunk (InputTypeVideo.init (sample_video 600 600))
    = Ok self1
    /\ InputTypeVideo.current_frame_chunk self1 = 1
    /\ InputTypeVideo.loadChunk None self1 = Ok (ff, self2)
    /\ InputTypeVideo.current_fr_chunk_size self2 = 256
    /\ InputTypeVideo.current_fr_chunk_size self2 <> 344
    /\ computeFramesToRead (Some 400) 600 256 1 = 400
    /\ computeFramesToRead (Some 400) 600 256 1 <> Z.min 400 (600 - 1 * 256)
    /\ computeFramesToRead (Some 10) 100 256 0 = 100
    /\ computeFramesToRead (Some 10) 100 256 0 <> Z.min 10 (100 - 0 * 256)
    /\ computeFramesToRead None 100 256 0 = 100
    /\ computeFramesToRead None 100 256 0 <> 256.
Proof.
  eexists _, _, _.
  split; [reflexivity|]. split; [reflexivity|].
  split; [vm_compute; reflexivity|].
  repeat split; discriminate.
Qed.

(** ** Windows cut short by the end of the stream *)

(** On the video handle a window that the stream cuts short is aggregated
    over the frames that were left, and the recorded size is one more than
    their number. *)
Lemma video_truncated_window (read_nframes : option Z)
    (self : InputTypeVideo.t) :
  InputTypeVideo.cache self
    !! cache_id read_nframes (InputTypeVideo.current_frame_chunk self) = None ->
  0 <= video_start read_nframes self ->
  Z.of_nat (length (video_ahead read_nframes self))
  < video_frames_to_read read_nframes self ->
  exists ff self',
    InputTypeVideo.loadChunk read_nframes self = Ok (ff, self')
    /\ video_window read_nframes self = video_ahead read_nframes self
    /\ maxpixel ff
       = fold_left np_max2 (video_ahead read_nframes self)
           (np_zeros 0 (InputTypeVideo.nrows self) (InputTypeVideo.ncols self))
    /\ avepixel ff
       = astype_uint 8
           (fold_left (sum_step (video_frames_to_read read_nframes self))
              (video_ahead read_nframes self)
              (np_zeros 0%float (InputTypeVideo.nrows self)
                 (InputTypeVideo.ncols self)))
    /\ InputTypeVideo.current_fr_chunk_size self'
       = Z.of_nat (length (video_ahead read_nframes self)) + 1.
Proof.
  intros Hmiss Hstart Hcut.
  destruct (video_loadChunk_miss read_nframes self Hmiss Hstart)
    as (self' & E & _ & S & _); [lia|].
  assert (video_window read_nframes self = video_ahead read_nframes self)
    as Hw.
  { unfold video_window. apply take_ge. lia. }
  rewrite Hw in E.
  eexists _, self'. split; [exact E|]. split; [exact Hw|].
  split; [reflexivity|]. split; [reflexivity|].
  rewrite S.
  destruct (Nat.ltb_spec (length (video_ahead read_nframes self))
              (Z.to_nat (video_frames_to_read read_nframes self)));
    [reflexivity|lia].
Qed.

(** C4 on the video of 600 frames: a request of 400 frames on chunk 1 meets
    the end of the stream after the 344 frames from frame 256 on; the
    window is cut to these 344 frames and nothing is raised, and the size
    recorded is 345. *)
Theorem C4_video_truncation_records_one_more :
  exists self1 ff self2,
    InputTypeVideo.nextChunk (InputTypeVideo.init (sample_video 600 600))
    = Ok self1
    /\ video_frames_to_read (Some 400) self1 = 400
    /\ length (video_window (Some 400) self1) = 344%nat
    /\ InputTypeVideo.loadChunk (Some 400) self1 = Ok (ff, self2)
    /\ InputTypeVideo.cap_pos (InputTypeVideo.cap self2) = 256 + 344
    /\ InputTypeVideo.current_fr_chunk_size self2 = 345.
Proof.
  eexists _, _, _.
  split; [reflexivity|]. split; [reflexivity|]. split; [reflexivity|].
  split; [vm_compute; reflexivity|]. split; reflexivity.
Qed.

(** ** The aggregation loop of the binary-stream handle *)

(** The records left from the file pointer on. *)
Definition records_ahead (f : InputTypeUWOVid.VidFile)
    : list (InputTypeUWOVid.VidStruct * Frame) :=
  drop (Z.to_nat (InputTypeUWOVid.vid_tell f / InputTypeUWOVid.vid_seqlen f))
    (InputTypeUWOVid.vid_records f).

(** [self.vid] after the records [l] were read. *)
Definition last_header (v : InputTypeUWOVid.VidStruct)
    (l : list (InputTypeUWOVid.VidStruct * Frame)) : InputTypeUWOVid.VidStruct :=
  default v (last (fst <$> l)).

Lemma last_header_cons (v h : InputTypeUWOVid.VidStruct) (frame : Frame)
    (l : list (InputTypeUWOVid.VidStruct * Frame)) :
  last_header v ((h, frame) :: l) = last_header h l.
Proof.
  unfold last_header. rewrite fmap_cons, last_cons. simpl.
  destruct (last (fst <$> l)); reflexivity.
Qed.

Lemma seek_same (f : InputTypeUWOVid.VidFile) :
  InputTypeUWOVid.seek f
    (InputTypeUWOVid.vid_tell f + Z.of_nat 0 * InputTypeUWOVid.vid_seqlen f)
  = f.
Proof. destruct f. unfold InputTypeUWOVid.seek. simpl. f_equal. lia. Qed.

Lemma uwovid_loop (n : Z) (m : nat) :
  forall (j : Z) (i : option Z) (v : InputTypeUWOVid.VidStruct)
         (f : InputTypeUWOVid.VidFile) (times : list float)
         (acc : Frame * FloatFrame),
    0 <= InputTypeUWOVid.vid_tell f ->
    0 < InputTypeUWOVid.vid_seqlen f ->
    for_in (InputTypeUWOVid.loop_body n) (seqZ j (Z.of_nat m)) i
      (v, f, times, acc)
    = if (length (records_ahead f) <? m)%nat then Raise AttributeError
      else
        let read := take m (records_ahead f) in
        Ok (if (m =? 0)%nat then i else Some (j + Z.of_nat m - 1),
            (last_header v read,
             InputTypeUWOVid.seek f
               (InputTypeUWOVid.vid_tell f
                + Z.of_nat m * InputTypeUWOVid.vid_seqlen f),
             times ++ (InputTypeUWOVid.unix_time ∘ fst <$> read),
             fold_left (accumulate n) (astype_uint16 ∘ snd <$> read) acc)).
Proof.
  induction m as [|m IH]; intros j i v f times acc Htell Hlen.
  - simpl. rewrite seek_same, app_nil_r. reflexivity.
  - rewrite seqZ_cons by lia.
    replace (Z.pred (Z.of_nat (S m))) with (Z.of_nat m) by lia.
    simpl for_in. unfold InputTypeUWOVid.loop_body at 1.
    unfold InputTypeUWOVid.readVidFrame.
    destruct (Z.ltb_spec (InputTypeUWOVid.vid_tell f) 0) as [?|_]; [lia|].
    destruct (Z.leb_spec (InputTypeUWOVid.vid_seqlen f) 0) as [?|_]; [lia|].
    simpl orb. cbv iota. unfold records_ahead.
    set (k := Z.to_nat (InputTypeUWOVid.vid_tell f
                        / InputTypeUWOVid.vid_seqlen f)).
    destruct (InputTypeUWOVid.vid_records f !! k) as [[h frame]|] eqn:Hk.
    + rewrite (drop_S _ _ _ Hk).
      rewrite IH by (simpl; lia).
      unfold records_ahead. simpl InputTypeUWOVid.vid_tell.
      simpl InputTypeUWOVid.vid_seqlen. simpl InputTypeUWOVid.vid_records.
      replace (Z.to_nat ((InputTypeUWOVid.vid_tell f
                          + InputTypeUWOVid.vid_seqlen f)
                         / InputTypeUWOVid.vid_seqlen f)) with (S k).
      2:{ subst k.
          replace (InputTypeUWOVid.vid_tell f + InputTypeUWOVid.vid_seqlen f)
            with (InputTypeUWOVid.vid_tell f
                  + 1 * InputTypeUWOVid.vid_seqlen f) by lia.
          rewrite Z.div_add by lia.
          assert (0 <= InputTypeUWOVid.vid_tell f
                       / InputTypeUWOVid.vid_seqlen f)
            by (apply Z.div_pos; lia).
          lia. }
      set (rest := drop (S k) (InputTypeUWOVid.vid_records f)).
      change (length ((h, frame) :: rest) <? S m)%nat
        with (length rest <? m)%nat.
      destruct (length rest <? m)%nat; [reflexivity|].
      cbv zeta. rewrite firstn_cons, last_header_cons.
      rewrite !fmap_cons. simpl fold_left. rewrite <- app_assoc. simpl app.
      f_equal. f_equal; [destruct m; simpl; f_equal; lia|].
      f_equal. f_equal. f_equal.
      unfold InputTypeUWOVid.seek. simpl. f_equal. lia.
    + apply lookup_ge_None in Hk. rewrite drop_ge by exact Hk. reflexivity.
Qed.

Definition uwovid_start (read_nframes : option Z) (self : InputTypeUWOVid.t)
    : Z :=
  if is_minus_one read_nframes then 0
  else InputTypeUWOVid.current_frame_chunk self
       * InputTypeUWOVid.fr_chunk_no self
       * InputTypeUWOVid.seqlen (InputTypeUWOVid.vidinfo self).

Definition uwovid_frames_to_read (read_nframes : option Z)
    (self : InputTypeUWOVid.t) : Z :=
  computeFramesToRead read_nframes (InputTypeUWOVid.total_frames self)
    (InputTypeUWOVid.fr_chunk_no self)
    (InputTypeUWOVid.current_frame_chunk self).

Definition uwovid_ahead (read_nframes : option Z) (self : InputTypeUWOVid.t)
    : list (InputTypeUWOVid.VidStruct * Frame) :=
  records_ahead
    (InputTypeUWOVid.seek (InputTypeUWOVid.vid_file self)
       (uwovid_start read_nframes self)).

(** The frames a [loadChunk] of the binary-stream handle aggregates when
    the stream holds all the frames requested. *)
Definition uwovid_window (read_nframes : option Z)
    (self : InputTypeUWOVid.t) : list Frame :=
  astype_uint16 ∘ snd
    <$> take (Z.to_nat (uwovid_frames_to_read read_nframes self))
          (uwovid_ahead read_nframes self).

(** A [loadChunk] of the binary-stream handle that misses the cache raises
    when the stream ends within the window, and otherwise computes, stores
    and returns the aggregate of the window. *)
Lemma uwovid_loadChunk_miss (read_nframes : option Z)
    (self : InputTypeUWOVid.t) :
  InputTypeUWOVid.cache self
    !! cache_id read_nframes (InputTypeUWOVid.current_frame_chunk self)
  = None ->
  0 <= uwovid_start read_nframes self ->
  0 < InputTypeUWOVid.vid_seqlen (InputTypeUWOVid.vid_file self) ->
  0 < uwovid_frames_to_read read_nframes self ->
  let n := uwovid_frames_to_read read_nframes self in
  let fs := uwovid_window read_nframes self in
  let ff :=
    mkFF (fold_left np_max2 fs
            (np_zeros 0 (InputTypeUWOVid.nrows self)
               (InputTypeUWOVid.ncols self)))
         (astype_uint 16
            (fold_left (sum_step n) fs
               (np_zeros 0%float (InputTypeUWOVid.nrows self)
                  (InputTypeUWOVid.ncols self))))
         (InputTypeUWOVid.nrows self) (InputTypeUWOVid.ncols self)
         (InputTypeUWOVid.total_frames self) in
  if (length (uwovid_ahead read_nframes self) <? Z.to_nat n)%nat
  then InputTypeUWOVid.loadChunk read_nframes self = Raise AttributeError
  else
    exists self',
      InputTypeUWOVid.loadChunk read_nframes self
      = Ok (InputTypeUWOVid.Aggregate ff, self')
      /\ InputTypeUWOVid.cache self'
         = {[ cache_id read_nframes (InputTypeUWOVid.current_frame_chunk self)
              := (ff, InputTypeUWOVid.frame_chunk_unix_times self') ]}
      /\ InputTypeUWOVid.current_fr_chunk_size self' = n
      /\ InputTypeUWOVid.current_frame_chunk self'
         = InputTypeUWOVid.current_frame_chunk self
      /\ InputTypeUWOVid.current_frame self'
         = InputTypeUWOVid.current_frame self.
Proof.
  intros Hmiss Hstart Hseq Hn n fs ff.
  unfold InputTypeUWOVid.loadChunk. rewrite Hmiss.
  fold (uwovid_frames_to_read read_nframes self). fold n.
  unfold py_range.
  replace (seqZ 0 n) with (seqZ 0 (Z.of_nat (Z.to_nat n)))
    by (rewrite Z2Nat.id; [reflexivity|lia]).
  assert ((if is_minus_one read_nframes
           then InputTypeUWOVid.seek (InputTypeUWOVid.vid_file self) 0
           else InputTypeUWOVid.seek (InputTypeUWOVid.vid_file self)
                  (InputTypeUWOVid.current_frame_chunk self
                   * InputTypeUWOVid.fr_chunk_no self
                   * InputTypeUWOVid.seqlen (InputTypeUWOVid.vidinfo self)))
          = InputTypeUWOVid.seek (InputTypeUWOVid.vid_file self)
              (uwovid_start read_nframes self)) as ->.
  { unfold uwovid_start. destruct (is_minus_one read_nframes); reflexivity. }
  rewrite uwovid_loop by (simpl; assumption).
  fold (uwovid_ahead read_nframes self).
  destruct (length (uwovid_ahead read_nframes self) <? Z.to_nat n)%nat;
    [reflexivity|].
  cbv zeta. rewrite fold_accumulate.
  destruct (Nat.eqb_spec (Z.to_nat n) 0) as [?|_]; [lia|].
  simpl. eexists. split; [reflexivity|]. simpl. repeat split. lia.
Qed.

(** ** The aggregation loop of the image handle *)

Lemma py_index_lookup {A : Type} (l : list A) (i : Z) (x : A) :
  0 <= i -> l !! Z.to_nat i = Some x -> py_index l i = Ok x.
Proof.
  intros Hi Hx. unfold py_index.
  pose proof (lookup_lt_Some _ _ _ Hx) as Hlt.
  destruct (Z.ltb_spec i 0) as [?|_]; [lia|].
  destruct (Z.leb_spec 0 i) as [_|?]; [|lia].
  destruct (Z.ltb_spec i (Z.of_nat (length l))) as [_|?]; [|lia].
  simpl. rewrite Hx. reflexivity.
Qed.

(** The images from index [first] on that the loop reaches: its guard stops
    it at index [total_frames - 1], the last image of the folder. *)
Definition images_ahead (self : InputTypeImages.t) (first : Z) : list Frame :=
  InputTypeImages.img_gray
    <$> drop (Z.to_nat first)
          (take (Z.to_nat (InputTypeImages.total_frames self - 1))
             (InputTypeImages.img_list self)).

Lemma images_loop (self : InputTypeImages.t) (first n : Z) (m : nat) :
  consistent self ->
  forall (j : Z) (i : option Z) (acc : Frame * FloatFrame),
    0 <= first + j ->
    for_in (InputTypeImages.loop_body self first n) (seqZ j (Z.of_nat m)) i acc
    = Ok (last_index j i m (length (images_ahead self (first + j))),
          fold_left (accumulate n) (take m (images_ahead self (first + j)))
            acc).
Proof.
  simpl. intros Hc. induction m as [|m IH]; intros j i acc Hj.
  - simpl. unfold last_index.
    destruct (length (images_ahead self (first + j))); reflexivity.
  - rewrite seqZ_cons by lia.
    replace (Z.pred (Z.of_nat (S m))) with (Z.of_nat m) by lia.
    simpl for_in. unfold InputTypeImages.loop_body at 1.
    unfold images_ahead.
    set (reach := take (Z.to_nat (InputTypeImages.total_frames self - 1))
                    (InputTypeImages.img_list self)).
    destruct (Z.geb_spec (first + j) (InputTypeImages.total_frames self - 1))
      as [Hge|Hlt].
    + rewrite drop_ge.
      2:{ subst reach. rewrite length_take. lia. }
      simpl. unfold last_index. simpl. do 3 f_equal. lia.
    + destruct (reach !! Z.to_nat (first + j)) as [x|] eqn:Hx.
      2:{ apply lookup_ge_None in Hx. subst reach.
          rewrite length_take in Hx. lia. }
      rewrite (drop_S _ _ _ Hx).
      assert (InputTypeImages.img_list self !! Z.to_nat (first + j) = Some x)
        as Hx'.
      { subst reach. rewrite lookup_take_Some in Hx. apply Hx. }
      unfold InputTypeImages.loadFrame.
      rewrite (py_index_lookup _ _ _ Hj Hx'). simpl mbind. cbv iota.
      rewrite IH by lia. unfold images_ahead. fold reach.
      replace (Z.to_nat (first + Z.succ j)) with (S (Z.to_nat (first + j)))
        by lia.
      set (rest := drop (S (Z.to_nat (first + j))) reach).
      rewrite fmap_cons. simpl.
      f_equal. f_equal.
      unfold last_index.
      change (S (length (InputTypeImages.img_gray <$> rest)) <? S m)%nat
        with (length (InputTypeImages.img_gray <$> rest) <? m)%nat.
      destruct (length (InputTypeImages.img_gray <$> rest) <? m)%nat;
        [f_equal; lia|].
      destruct m; simpl; f_equal; lia.
Qed.

Definition images_first (read_nframes : option Z) (self : InputTypeImages.t)
    : Z :=
  if is_minus_one read_nframes then 0
  else InputTypeImages.current_frame_chunk self
       * InputTypeImages.fr_chunk_no self.

Definition images_frames_to_read (read_nframes : option Z)
    (self : InputTypeImages.t) : Z :=
  computeFramesToRead read_nframes (InputTypeImages.total_frames self)
    (InputTypeImages.fr_chunk_no self)
    (InputTypeImages.current_frame_chunk self).

Definition images_window (read_nframes : option Z)
    (self : InputTypeImages.t) : list Frame :=
  take (Z.to_nat (images_frames_to_read read_nframes self))
    (images_ahead self (images_first read_nframes self)).

(** What a [loadChunk] of the image handle that misses the cache computes,
    stores and returns. *)
Lemma images_loadChunk_miss (read_nframes : option Z)
    (self : InputTypeImages.t) :
  consistent self ->
  InputTypeImages.cache self
    !! cache_id read_nframes (InputTypeImages.current_frame_chunk self)
  = None ->
  0 <= images_first read_nframes self ->
  0 < images_frames_to_read read_nframes self ->
  let n := images_frames_to_read read_nframes self in
  let ahead := images_ahead self (images_first read_nframes self) in
  let fs := images_window read_nframes self in
  let ff :=
    mkFF (fold_left np_max2 fs
            (np_zeros 0 (InputTypeImages.nrows self)
               (InputTypeImages.ncols self)))
         (astype_uint 8
            (fold_left (sum_step n) fs
               (np_zeros 0%float (InputTypeImages.nrows self)
                  (InputTypeImages.ncols self))))
         (InputTypeImages.nrows self) (InputTypeImages.ncols self)
         (InputTypeImages.total_frames self) in
  exists self',
    InputTypeImages.loadChunk read_nframes self = Ok (ff, self')
    /\ InputTypeImages.cache self'
       = {[ cache_id read_nframes (InputTypeImages.current_frame_chunk self)
            := ff ]}
    /\ InputTypeImages.current_fr_chunk_size self'
       = (if (length ahead <? Z.to_nat n)%nat then Z.of_nat (length ahead)
          else n - 1)
    /\ InputTypeImages.current_frame_chunk self'
       = InputTypeImages.current_frame_chunk self
    /\ InputTypeImages.current_frame self'
       = InputTypeImages.current_frame self
    /\ images_static self' = images_static self.
Proof.
  intros Hc Hmiss Hfirst Hn n ahead fs ff.
  unfold InputTypeImages.loadChunk. rewrite Hmiss.
  fold (images_frames_to_read read_nframes self). fold n.
  fold (images_first read_nframes self).
  unfold py_range.
  replace (seqZ 0 n) with (seqZ 0 (Z.of_nat (Z.to_nat n)))
    by (rewrite Z2Nat.id; [reflexivity|lia]).
  rewrite images_loop by (assumption || lia).
  rewrite Z.add_0_r. fold ahead. rewrite fold_accumulate. simpl.
  fold n. fold (images_window read_nframes self). fold fs.
  unfold last_index.
  destruct (length ahead <? Z.to_nat n)%nat.
  - eexists. split; [reflexivity|]. simpl. repeat split.
  - destruct (Nat.eqb_spec (Z.to_nat n) 0) as [?|_]; [lia|].
    eexists. split; [reflexivity|]. simpl. repeat split. lia.
Qed.

(** ** Pixels of the running sum *)

Lemma pixel_zip_with {A B C : Type} (f : A -> B -> C)
    (a : list (list A)) (b : list (list B)) (r c : nat) (x : A) (y : B) :
  pixel a r c = Some x -> pixel b r c = Some y ->
  pixel (zip_with (zip_with f) a b) r c = Some (f x y).
Proof.
  unfold pixel. intros Ha Hb. rewrite lookup_zip_with.
  destruct (a !! r) as [ra|]; [|discriminate Ha].
  destruct (b !! r) as [rb|]; [|discriminate Hb].
  simpl in *. rewrite lookup_zip_with, Ha, Hb. reflexivity.
Qed.

Lemma pixel_fmap {A B : Type} (f : A -> B) (a : list (list A)) (r c : nat) :
  pixel ((fun row : list A => f <$> row) <$> a) r c = f <$> pixel a r c.
Proof.
  unfold pixel. rewrite list_lookup_fmap.
  destruct (a !! r) as [ra|]; [|reflexivity].
  simpl. apply list_lookup_fmap.
Qed.

Lemma pixel_np_zeros {A : Type} (zero : A) (nrows ncols : Z) (r c : nat) :
  (r < Z.to_nat nrows)%nat -> (c < Z.to_nat ncols)%nat ->
  pixel (np_zeros zero nrows ncols) r c = Some zero.
Proof.
  intros Hr Hc. unfold pixel, np_zeros.
  rewrite lookup_replicate_2 by exact Hr. simpl.
  apply lookup_replicate_2. exact Hc.
Qed.

(** The float sum one pixel accumulates over the frames [fs]. *)
Definition pixel_sum (frames_to_read : Z) (r c : nat) (fs : list Frame)
    (start : float) : float :=
  fold_left
    (fun (sum : float) (frame : Frame) =>
       PrimFloat.add sum
         (PrimFloat.div (float_of_Z (default 0 (pixel frame r c)))
            (float_of_Z frames_to_read)))
    fs start.

Lemma pixel_fold_sum (n : Z) (r c : nat) (fs : list Frame) :
  forall (av : FloatFrame) (x : float),
    pixel av r c = Some x ->
    Forall (fun frame => is_Some (pixel frame r c)) fs ->
    pixel (fold_left (sum_step n) fs av) r c = Some (pixel_sum n r c fs x).
Proof.
  induction fs as [|f fs IH]; intros av x Hx Hfs; [exact Hx|].
  apply Forall_cons in Hfs as [[v Hv] Hfs].
  simpl. apply IH; [|exact Hfs].
  unfold sum_step, np_add, np_div, astype_float64.
  rewrite Hv. simpl.
  apply pixel_zip_with; [exact Hx|].
  rewrite !pixel_fmap, Hv. reflexivity.
Qed.

(** C1: on the video handle, a window that the end of the stream cuts
    short (fewer frames left than the number requested) returns an
    [avepixel] whose every pixel is the float sum, over the frames
    processed, of the pixel's value divided by [frames_to_read], the number
    requested, truncated to 8 bits after the loop; as an array it is the
    sum of the arrays [frame/frames_to_read], cast after the loop.  The
    image handle does the same with the frames its loop reaches.  On the
    binary-stream handle every aggregate that [loadChunk] computes and
    returns is that sum over its window, cast to 16 bits. *)
Theorem C1_truncated_window_avepixel :
  (forall (read_nframes : option Z) (self : InputTypeVideo.t) (r c : nat),
     InputTypeVideo.cache self
       !! cache_id read_nframes (InputTypeVideo.current_frame_chunk self)
     = None ->
     0 <= video_start read_nframes self ->
     Z.of_nat (length (video_ahead read_nframes self))
     < video_frames_to_read read_nframes self ->
     (r < Z.to_nat (InputTypeVideo.nrows self))%nat ->
     (c < Z.to_nat (InputTypeVideo.ncols self))%nat ->
     Forall (fun frame => is_Some (pixel frame r c))
       (video_ahead read_nframes self) ->
     exists ff self',
       InputTypeVideo.loadChunk read_nframes self = Ok (ff, self')
       /\ pixel (avepixel ff) r c
          = Some (cast_uint 8
                    (pixel_sum (video_frames_to_read read_nframes self) r c
                       (video_ahead read_nframes self) 0%float)))
  /\ (forall (read_nframes : option Z) (self : InputTypeVideo.t),
     InputTypeVideo.cache self
       !! cache_id read_nframes (InputTypeVideo.current_frame_chunk self)
     = None ->
     0 <= video_start read_nframes self ->
     Z.of_nat (length (video_ahead read_nframes self))
     < video_frames_to_read read_nframes self ->
     exists ff self',
       InputTypeVideo.loadChunk read_nframes self = Ok (ff, self')
       /\ avepixel ff
          = astype_uint 8
              (fold_left
                 (fun (sum : FloatFrame) (frame : Frame) =>
                    np_add sum
                      (np_div (astype_float64 frame)
                         (float_of_Z (video_frames_to_read read_nframes self))))
                 (video_ahead read_nframes self)
                 (np_zeros 0%float (InputTypeVideo.nrows self)
                    (InputTypeVideo.ncols self))))
  /\ (forall (read_nframes : option Z) (self : InputTypeImages.t),
        consistent self ->
        InputTypeImages.cache self
          !! cache_id read_nframes (InputTypeImages.current_frame_chunk self)
        = None ->
        0 <= images_first read_nframes self ->
        Z.of_nat (length (images_ahead self (images_first read_nframes self)))
        < images_frames_to_read read_nframes self ->
        exists ff self',
          InputTypeImages.loadChunk read_nframes self = Ok (ff, self')
          /\ avepixel ff
             = astype_uint 8
                 (fold_left
                    (fun (sum : FloatFrame) (frame : Frame) =>
                       np_add sum
                         (np_div (astype_float64 frame)
                            (float_of_Z
                               (images_frames_to_read read_nframes self))))
                    (images_ahead self (images_first read_nframes self))
                    (np_zeros 0%float (InputTypeImages.nrows self)
                       (InputTypeImages.ncols self))))
  /\ (forall (read_nframes : option Z) (self self' : InputTypeUWOVid.t)
        (ff : FFMimickInterface),
        InputTypeUWOVid.cache self
          !! cache_id read_nframes (InputTypeUWOVid.current_frame_chunk self)
        = None ->
        0 <= uwovid_start read_nframes self ->
        0 < InputTypeUWOVid.vid_seqlen (InputTypeUWOVid.vid_file self) ->
        InputTypeUWOVid.loadChunk read_nframes self
        = Ok (InputTypeUWOVid.Aggregate ff, self') ->
        avepixel ff
        = astype_uint 16
            (fold_left
               (fun (sum : FloatFrame) (frame : Frame) =>
                  np_add sum
                    (np_div (astype_float64 frame)
                       (float_of_Z (uwovid_frames_to_read read_nframes self))))
               (uwovid_window read_nframes self)
               (np_zeros 0%float (InputTypeUWOVid.nrows self)
                  (InputTypeUWOVid.ncols self)))).
Proof.
  split; [|split; [|split]].
  - intros read_nframes self r c Hmiss Hstart Hcut Hr Hc Hfs.
    destruct (video_truncated_window read_nframes self Hmiss Hstart Hcut)
      as (ff & self' & E & _ & _ & A & _).
    exists ff, self'. split; [exact E|].
    rewrite A. unfold astype_uint. rewrite pixel_fmap.
    rewrite (pixel_fold_sum _ r c _ _ 0%float);
      [reflexivity|apply pixel_np_zeros; assumption|exact Hfs].
  - intros read_nframes self Hmiss Hstart Hcut.
    destruct (video_truncated_window read_nframes self Hmiss Hstart Hcut)
      as (ff & self' & E & _ & _ & A & _).
    exists ff, self'. split; [exact E|exact A].
  - intros read_nframes self Hc Hmiss Hfirst Hcut.
    destruct (images_loadChunk_miss read_nframes self Hc Hmiss Hfirst)
      as (self' & E & _); [lia|].
    eexists _, self'. split; [exact E|]. simpl.
    unfold images_window. rewrite take_ge by lia. reflexivity.
  - intros read_nframes self self' ff Hmiss Hstart Hseq Hret.
    destruct (Z.ltb_spec 0 (uwovid_frames_to_read read_nframes self))
      as [Hn|Hn].
    + pose proof (uwovid_loadChunk_miss read_nframes self Hmiss Hstart Hseq Hn)
        as H. cbv zeta in H.
      destruct (length (uwovid_ahead read_nframes self)
                <? Z.to_nat (uwovid_frames_to_read read_nframes self))%nat.
      * rewrite H in Hret. discriminate Hret.
      * destruct H as (self'' & E & _). rewrite E in Hret.
        injection Hret as <- _. reflexivity.
    + unfold InputTypeUWOVid.loadChunk in Hret. rewrite Hmiss in Hret.
      fold (uwovid_frames_to_read read_nframes self) in Hret.
      unfold py_range in Hret. rewrite seqZ_nil in Hret by lia.
      simpl in Hret. discriminate Hret.
Qed.

(** ** The cache *)

(** A [loadChunk] that returns either found its key in the cache, and then
    hands back the entry and leaves the handle as it was, or did not, and
    then leaves a cache that holds the new aggregate under that key and
    nothing else. *)
Lemma video_loadChunk_cache (read_nframes : option Z)
    (self self' : InputTypeVideo.t) (ff : FFMimickInterface) :
  InputTypeVideo.loadChunk read_nframes self = Ok (ff, self') ->
  let key := cache_id read_nframes (InputTypeVideo.current_frame_chunk self) in
  (InputTypeVideo.cache self !! key = Some ff /\ self' = self)
  \/ (InputTypeVideo.cache self !! key = None
      /\ InputTypeVideo.cache self' = {[ key := ff ]}
      /\ InputTypeVideo.current_frame_chunk self'
         = InputTypeVideo.current_frame_chunk self
      /\ InputTypeVideo.current_frame self' = InputTypeVideo.current_frame self).
Proof.
  intros H key. unfold InputTypeVideo.loadChunk in H. fold key in H.
  destruct (InputTypeVideo.cache self !! key) as [ff0|].
  - injection H as <- <-. left. split; reflexivity.
  - inv_bind H. destruct a as [[i|] [c [mx av]]]; [|discriminate H].
    injection H as <- <-. right. repeat split.
Qed.

Lemma images_loadChunk_cache (read_nframes : option Z)
    (self self' : InputTypeImages.t) (ff : FFMimickInterface) :
  InputTypeImages.loadChunk read_nframes self = Ok (ff, self') ->
  let key := cache_id read_nframes (InputTypeImages.current_frame_chunk self) in
  (InputTypeImages.cache self !! key = Some ff /\ self' = self)
  \/ (InputTypeImages.cache self !! key = None
      /\ InputTypeImages.cache self' = {[ key := ff ]}
      /\ InputTypeImages.current_frame_chunk self'
         = InputTypeImages.current_frame_chunk self
      /\ InputTypeImages.current_frame self'
         = InputTypeImages.current_frame self).
Proof.
  intros H key. unfold InputTypeImages.loadChunk in H. fold key in H.
  destruct (InputTypeImages.cache self !! key) as [ff0|].
  - injection H as <- <-. left. split; reflexivity.
  - inv_bind H. destruct a as [[i|] [mx av]]; [|discriminate H].
    injection H as <- <-. right. repeat split.
Qed.

Lemma ff_loadChunk_cache (read_nframes : option Z)
    (self self' : InputTypeFF.t) (ff : FFMimickInterface) :
  InputTypeFF.loadChunk read_nframes self = Ok (ff, self') ->
  let key := InputTypeFF.current_ff_file self in
  (InputTypeFF.cache self !! key = Some ff /\ self' = self)
  \/ (InputTypeFF.cache self !! key = None
      /\ InputTypeFF.cache self' = {[ key := ff ]}
      /\ InputTypeFF.current_ff_file self' = key
      /\ InputTypeFF.current_ff_index self' = InputTypeFF.current_ff_index self
      /\ InputTypeFF.current_frame self' = 0).
Proof.
  intros H key. unfold InputTypeFF.loadChunk in H. fold key in H.
  destruct (InputTypeFF.cache self !! key) as [ff0|].
  - injection H as <- <-. left. split; reflexivity.
  - inv_bind H. injection H as <- <-. right. repeat split.
Qed.

(** The binary-stream handle stores the aggregate together with the Unix
    times of the chunk.  On a hit under a chunk index it unpacks the entry;
    on a hit under -1 it returns the entry itself. *)
Lemma uwovid_loadChunk_cache (read_nframes : option Z)
    (self self' : InputTypeUWOVid.t) (v : InputTypeUWOVid.chunk_value) :
  InputTypeUWOVid.loadChunk read_nframes self = Ok (v, self') ->
  let key :=
    cache_id read_nframes (InputTypeUWOVid.current_frame_chunk self) in
  (exists ff times,
     InputTypeUWOVid.cache self !! key = Some (ff, times)
     /\ InputTypeUWOVid.cache self' = InputTypeUWOVid.cache self
     /\ ((is_minus_one read_nframes = true
          /\ v = InputTypeUWOVid.CacheEntry ff times /\ self' = self)
         \/ (is_minus_one read_nframes = false
             /\ v = InputTypeUWOVid.Aggregate ff
             /\ self'
                = InputTypeUWOVid.set_frame_chunk_unix_times self times)))
  \/ (exists ff,
        InputTypeUWOVid.cache self !! key = None
        /\ v = InputTypeUWOVid.Aggregate ff
        /\ InputTypeUWOVid.cache self'
           = {[ key := (ff, InputTypeUWOVid.frame_chunk_unix_times self') ]}
        /\ InputTypeUWOVid.current_frame_chunk self'
           = InputTypeUWOVid.current_frame_chunk self
        /\ InputTypeUWOVid.current_frame self'
           = InputTypeUWOVid.current_frame self).
Proof.
  intros H key. unfold InputTypeUWOVid.loadChunk in H. fold key in H.
  destruct (InputTypeUWOVid.cache self !! key) as [[ff0 times0]|].
  - left. exists ff0, times0. split; [reflexivity|].
    destruct (is_minus_one read_nframes); injection H as <- <-.
    + split; [reflexivity|]. left. repeat split.
    + split; [reflexivity|]. right. repeat split.
  - inv_bind H. destruct a as [[i|] [[[vd f] times] [mx av]]];
      [|discriminate H].
    injection H as <- <-. right. eexists. repeat split.
Qed.

(** Under every sequence of calls a cache of at most one entry stays a
    cache of at most one entry. *)
Definition cache_bounded (T : Type) `{Handle T} : Prop :=
  forall (cs : list call) (self self' : T),
    (cache_size self <= 1)%nat -> do_calls cs self = Ok self' ->
    (cache_size self' <= 1)%nat.

Lemma cache_bounded_step (T : Type) `{Handle T} :
  (forall (c : call) (self self' : T),
     do_call c self = Ok self' ->
     cache_size self' = cache_size self \/ cache_size self' = 1%nat) ->
  cache_bounded T.
Proof.
  intros Hstep cs self self' Hsize Hrun.
  apply (do_calls_preserve (fun s => (cache_size s <= 1)%nat))
    with (cs := cs) (self := self); [|exact Hsize|exact Hrun].
  intros c s s' Hs Hcall. destruct (Hstep c s s' Hcall) as [-> | ->]; lia.
Qed.

Lemma video_chunk_step_cache (self self' : InputTypeVideo.t) :
  InputTypeVideo.nextChunk self = Ok self'
  \/ InputTypeVideo.prevChunk self = Ok self' ->
  InputTypeVideo.cache self' = InputTypeVideo.cache self.
Proof.
  unfold InputTypeVideo.nextChunk, InputTypeVideo.prevChunk.
  intros [H|H]; inv_bind H; inv_ok H; reflexivity.
Qed.

Lemma uwovid_chunk_step_cache (self self' : InputTypeUWOVid.t) :
  InputTypeUWOVid.nextChunk self = Ok self'
  \/ InputTypeUWOVid.prevChunk self = Ok self' ->
  InputTypeUWOVid.cache self' = InputTypeUWOVid.cache self.
Proof.
  unfold InputTypeUWOVid.nextChunk, InputTypeUWOVid.prevChunk.
  intros [H|H]; inv_bind H; inv_ok H; reflexivity.
Qed.

Lemma images_chunk_step_cache (self self' : InputTypeImages.t) :
  InputTypeImages.nextChunk self = Ok self'
  \/ InputTypeImages.prevChunk self = Ok self' ->
  InputTypeImages.cache self' = InputTypeImages.cache self.
Proof.
  unfold InputTypeImages.nextChunk, InputTypeImages.prevChunk.
  intros [H|H]; inv_bind H; inv_ok H; reflexivity.
Qed.

Lemma ff_chunk_step_cache (self self' : InputTypeFF.t) :
  InputTypeFF.nextChunk self = Ok self'
  \/ InputTypeFF.prevChunk self = Ok self' ->
  InputTypeFF.cache self' = InputTypeFF.cache self.
Proof.
  unfold InputTypeFF.nextChunk, InputTypeFF.prevChunk.
  intros [H|H]; inv_bind H; inv_bind H; inv_ok H; reflexivity.
Qed.

Lemma video_cache_bounded : cache_bounded InputTypeVideo.t.
Proof.
  apply cache_bounded_step. intros c self self' H.
  destruct c; simpl in H.
  - left. simpl. f_equal. apply video_chunk_step_cache. left. exact H.
  - left. simpl. f_equal. apply video_chunk_step_cache. right. exact H.
  - inv_bind H. inv_ok H. destruct a as [ff s]. simpl.
    destruct (video_loadChunk_cache _ _ _ _ E) as [[_ ->]|(_ & -> & _)].
    + left. reflexivity.
    + right. apply map_size_singleton.
  - left. unfold InputTypeVideo.nextFrame in H. inv_bind H. inv_ok H.
    reflexivity.
  - left. unfold InputTypeVideo.prevFrame in H. inv_bind H. inv_ok H.
    reflexivity.
Qed.

Lemma uwovid_cache_bounded : cache_bounded InputTypeUWOVid.t.
Proof.
  apply cache_bounded_step. intros c self self' H.
  destruct c; simpl in H.
  - left. simpl. f_equal. apply uwovid_chunk_step_cache. left. exact H.
  - left. simpl. f_equal. apply uwovid_chunk_step_cache. right. exact H.
  - inv_bind H. inv_ok H. destruct a as [v s]. simpl.
    destruct (uwovid_loadChunk_cache _ _ _ _ E)
      as [(ff & times & _ & -> & _)|(ff & _ & _ & -> & _)].
    + left. reflexivity.
    + right. apply map_size_singleton.
  - left. unfold InputTypeUWOVid.nextFrame in H. inv_bind H. inv_ok H.
    reflexivity.
  - left. unfold InputTypeUWOVid.prevFrame in H. inv_bind H. inv_ok H.
    reflexivity.
Qed.

Lemma images_cache_bounded : cache_bounded InputTypeImages.t.
Proof.
  apply cache_bounded_step. intros c self self' H.
  destruct c; simpl in H.
  - left. simpl. f_equal. apply images_chunk_step_cache. left. exact H.
  - left. simpl. f_equal. apply images_chunk_step_cache. right. exact H.
  - inv_bind H. inv_ok H. destruct a as [ff s]. simpl.
    destruct (images_loadChunk_cache _ _ _ _ E) as [[_ ->]|(_ & -> & _)].
    + left. reflexivity.
    + right. apply map_size_singleton.
  - left. unfold InputTypeImages.nextFrame in H. inv_bind H. inv_bind H.
    inv_ok H. reflexivity.
  - left. unfold InputTypeImages.prevFrame in H. inv_bind H. inv_bind H.
    inv_ok H. reflexivity.
Qed.

Lemma ff_cache_bounded : cache_bounded InputTypeFF.t.
Proof.
  apply cache_bounded_step. intros c self self' H.
  destruct c; simpl in H.
  - left. simpl. f_equal. apply ff_chunk_step_cache. left. exact H.
  - left. simpl. f_equal. apply ff_chunk_step_cache. right. exact H.
  - inv_bind H. inv_ok H. destruct a as [ff s]. simpl.
    destruct (ff_loadChunk_cache _ _ _ _ E) as [[_ ->]|(_ & -> & _)].
    + left. reflexivity.
    + right. apply map_size_singleton.
  - left. unfold InputTypeFF.nextFrame in H. inv_bind H. inv_bind H.
    inv_ok H. reflexivity.
  - left. unfold InputTypeFF.prevFrame in H. inv_bind H. inv_bind H.
    inv_ok H. reflexivity.
Qed.

Lemma uwovid_init_cache (f : InputTypeUWOVid.VidFile)
    (self0 : InputTypeUWOVid.t) :
  InputTypeUWOVid.init f = Ok self0 -> cache_size self0 = 1%nat.
Proof.
  unfold InputTypeUWOVid.init. intros H.
  destruct (InputTypeUWOVid.readVidFrame _ f) as [[frame v] f'].
  inv_bind H. inv_bind H. destruct a0 as [r self]. inv_bind H. inv_ok H.
  destruct (uwovid_loadChunk_cache _ _ _ _ E0)
    as [(ff & times & Hhit & _)|(ff & _ & _ & Hc & _)].
  - simpl in Hhit. rewrite lookup_empty in Hhit. discriminate Hhit.
  - simpl. rewrite Hc. apply map_size_singleton.
Qed.

Lemma images_init_cache (imgs : list InputTypeImages.ImageFile)
    (self0 : InputTypeImages.t) :
  InputTypeImages.init imgs = Ok self0 -> cache_size self0 = 1%nat.
Proof.
  unfold InputTypeImages.init. intros H.
  destruct imgs as [|first rest]; [discriminate H|].
  inv_bind H. inv_bind H. destruct a0 as [r self]. inv_ok H.
  destruct (images_loadChunk_cache _ _ _ _ E0) as [[Hhit _]|(_ & Hc & _)].
  - simpl in Hhit. rewrite lookup_empty in Hhit. discriminate Hhit.
  - simpl. rewrite Hc. apply map_size_singleton.
Qed.

Lemma ff_init_cache (ff_files : gmap string FFMimickInterface)
    (ff_list : list string) (self0 : InputTypeFF.t) :
  InputTypeFF.init ff_files ff_list = Ok self0 -> cache_size self0 = 1%nat.
Proof.
  unfold InputTypeFF.init. intros H.
  destruct ff_list as [|first rest]; [discriminate H|].
  inv_bind H. destruct a as [r self]. inv_ok H.
  destruct (ff_loadChunk_cache _ _ _ _ E) as [[Hhit _]|(_ & Hc & _)].
  - simpl in Hhit. rewrite lookup_empty in Hhit. discriminate Hhit.
  - simpl. rewrite Hc. apply map_size_singleton.
Qed.

(** C8, as the code has it: the cache of every handle holds no entry or one
    entry, at construction and after every sequence of calls; [nextChunk]
    and [prevChunk] leave the cache as it is; and every [loadChunk] that
    does not find its key empties the cache before it stores the new
    aggregate, which is then the only entry. *)
Theorem C8_cache_at_most_one_entry :
  (cache_bounded InputTypeFF.t /\ cache_bounded InputTypeVideo.t
   /\ cache_bounded InputTypeUWOVid.t /\ cache_bounded InputTypeImages.t)
  /\ ((forall c, cache_size (InputTypeVideo.init c) = 0%nat)
      /\ (forall f self0,
            InputTypeUWOVid.init f = Ok self0 -> cache_size self0 = 1%nat)
      /\ (forall imgs self0,
            InputTypeImages.init imgs = Ok self0 -> cache_size self0 = 1%nat)
      /\ (forall ff_files ff_list self0,
            InputTypeFF.init ff_files ff_list = Ok self0 ->
            cache_size self0 = 1%nat))
  /\ ((forall self self',
         InputTypeFF.nextChunk self = Ok self'
         \/ InputTypeFF.prevChunk self = Ok self' ->
         InputTypeFF.cache self' = InputTypeFF.cache self)
      /\ (forall self self',
            InputTypeVideo.nextChunk self = Ok self'
            \/ InputTypeVideo.prevChunk self = Ok self' ->
            InputTypeVideo.cache self' = InputTypeVideo.cache self)
      /\ (forall self self',
            InputTypeUWOVid.nextChunk self = Ok self'
            \/ InputTypeUWOVid.prevChunk self = Ok self' ->
            InputTypeUWOVid.cache self' = InputTypeUWOVid.cache self)
      /\ (forall self self',
            InputTypeImages.nextChunk self = Ok self'
            \/ InputTypeImages.prevChunk self = Ok self' ->
            InputTypeImages.cache self' = InputTypeImages.cache self))
  /\ ((forall read_nframes self ff self',
         InputTypeFF.cache self !! InputTypeFF.current_ff_file self = None ->
         InputTypeFF.loadChunk read_nframes self = Ok (ff, self') ->
         InputTypeFF.cache self'
         = {[ InputTypeFF.current_ff_file self := ff ]})
      /\ (forall read_nframes self ff self',
            InputTypeVideo.cache self
              !! cache_id read_nframes (InputTypeVideo.current_frame_chunk self)
            = None ->
            InputTypeVideo.loadChunk read_nframes self = Ok (ff, self') ->
            InputTypeVideo.cache self'
            = {[ cache_id read_nframes
                   (InputTypeVideo.current_frame_chunk self) := ff ]})
      /\ (forall read_nframes self v self',
            InputTypeUWOVid.cache self
              !! cache_id read_nframes
                   (InputTypeUWOVid.current_frame_chunk self)
            = None ->
            InputTypeUWOVid.loadChunk read_nframes self = Ok (v, self') ->
            exists ff,
              v = InputTypeUWOVid.Aggregate ff
              /\ InputTypeUWOVid.cache self'
                 = {[ cache_id read_nframes
                        (InputTypeUWOVid.current_frame_chunk self)
                      := (ff, InputTypeUWOVid.frame_chunk_unix_times self') ]})
      /\ (forall read_nframes self ff self',
            InputTypeImages.cache self
              !! cache_id read_nframes
                   (InputTypeImages.current_frame_chunk self)
            = None ->
            InputTypeImages.loadChunk read_nframes self = Ok (ff, self') ->
            InputTypeImages.cache self'
            = {[ cache_id read_nframes
                   (InputTypeImages.current_frame_chunk self) := ff ]})).
Proof.
  split; [|split; [|split]].
  - split; [apply ff_cache_bounded|].
    split; [apply video_cache_bounded|].
    split; [apply uwovid_cache_bounded|apply images_cache_bounded].
  - split; [reflexivity|].
    split; [apply uwovid_init_cache|].
    split; [apply images_init_cache|apply ff_init_cache].
  - split; [apply ff_chunk_step_cache|].
    split; [apply video_chunk_step_cache|].
    split; [apply uwovid_chunk_step_cache|apply images_chunk_step_cache].
  - split; [|split; [|split]].
    + intros r self ff self' Hmiss H.
      destruct (ff_loadChunk_cache _ _ _ _ H) as [[Hhit _]|(_ & Hc & _)];
        [congruence|exact Hc].
    + intros r self ff self' Hmiss H.
      destruct (video_loadChunk_cache _ _ _ _ H) as [[Hhit _]|(_ & Hc & _)];
        [congruence|exact Hc].
    + intros r self v self' Hmiss H.
      destruct (uwovid_loadChunk_cache _ _ _ _ H)
        as [(ff & times & Hhit & _)|(ff & _ & Hv & Hc & _)];
        [congruence|]. exists ff. split; assumption.
    + intros r self ff self' Hmiss H.
      destruct (images_loadChunk_cache _ _ _ _ H) as [[Hhit _]|(_ & Hc & _)];
        [congruence|exact Hc].
Qed.

(** C8, as stated, fails: after the first chunk of the video of 600 frames
    is loaded, [nextChunk] moves to chunk 1 and the cache still holds the
    aggregate of chunk 0. *)
Lemma C8_counterexample :
  exists ff self1 self2,
    InputTypeVideo.loadChunk None (InputTypeVideo.init (sample_video 600 600))
    = Ok (ff, self1)
    /\ InputTypeVideo.nextChunk self1 = Ok self2
    /\ InputTypeVideo.current_frame_chunk self2 = 1
    /\ InputTypeVideo.cache self2 = {[ 0 := ff ]}
    /\ InputTypeVideo.cache self2 <> ∅.
Proof.
  eexists _, _, _. split; [vm_compute; reflexivity|].
  split; [reflexivity|]. split; [reflexivity|].
  split; [reflexivity|].
  intros H. apply (f_equal size) in H. vm_compute in H. discriminate H.
Qed.

(** ** The sample handles are the constructed ones *)

Lemma sample_images_handle_init :
  InputTypeImages.init sample_images = Ok sample_images_handle.
Proof. vm_compute. reflexivity. Qed.

Lemma sample_uwovid_handle_init :
  InputTypeUWOVid.init (sample_vid 3) = Ok sample_uwovid_handle.
Proof. vm_compute. reflexivity. Qed.

Lemma sample_ff_handle_reached :
  InputTypeFF.init (sample_ff_files 3) (sample_ff_names 3)
    ≫= do_calls [NextChunk; NextFrame; NextFrame]
  = Ok sample_ff_handle.
Proof. vm_compute. reflexivity. Qed.

(** ** Repeated loads *)

(** On the video, image and archive handles a load that follows a load of
    the same kind, with no navigation in between, returns the aggregate of
    the first and changes nothing. *)
Lemma video_load_again (r r' : option Z) (self self' : InputTypeVideo.t)
    (ff : FFMimickInterface) :
  InputTypeVideo.loadChunk r self = Ok (ff, self') ->
  is_minus_one r' = is_minus_one r ->
  InputTypeVideo.loadChunk r' self' = Ok (ff, self').
Proof.
  intros H Hr.
  assert (forall chunk, cache_id r' chunk = cache_id r chunk) as Hkey.
  { intros chunk. unfold cache_id. rewrite Hr. reflexivity. }
  destruct (video_loadChunk_cache _ _ _ _ H)
    as [[Hhit ->]|(_ & Hc & Hchunk & _)];
    unfold InputTypeVideo.loadChunk; rewrite Hkey.
  - rewrite Hhit. reflexivity.
  - rewrite Hc, Hchunk, lookup_singleton_eq. reflexivity.
Qed.

Lemma images_load_again (r r' : option Z) (self self' : InputTypeImages.t)
    (ff : FFMimickInterface) :
  InputTypeImages.loadChunk r self = Ok (ff, self') ->
  is_minus_one r' = is_minus_one r ->
  InputTypeImages.loadChunk r' self' = Ok (ff, self').
Proof.
  intros H Hr.
  assert (forall chunk, cache_id r' chunk = cache_id r chunk) as Hkey.
  { intros chunk. unfold cache_id. rewrite Hr. reflexivity. }
  destruct (images_loadChunk_cache _ _ _ _ H)
    as [[Hhit ->]|(_ & Hc & Hchunk & _)];
    unfold InputTypeImages.loadChunk; rewrite Hkey.
  - rewrite Hhit. reflexivity.
  - rewrite Hc, Hchunk, lookup_singleton_eq. reflexivity.
Qed.

Lemma ff_load_again (r r' : option Z) (self self' : InputTypeFF.t)
    (ff : FFMimickInterface) :
  InputTypeFF.loadChunk r self = Ok (ff, self') ->
  InputTypeFF.loadChunk r' self' = Ok (ff, self').
Proof.
  intros H.
  destruct (ff_loadChunk_cache _ _ _ _ H)
    as [[Hhit ->]|(_ & Hc & Hfile & _)];
    unfold InputTypeFF.loadChunk.
  - rewrite Hhit. reflexivity.
  - rewrite Hc, Hfile, lookup_singleton_eq. reflexivity.
Qed.

(** On the binary-stream handle a load under a chunk index is repeated in
    the same way, but a load of the whole source that finds its entry
    returns the stored pair of the aggregate and the times. *)
Lemma uwovid_whole_source_hit (self : InputTypeUWOVid.t)
    (ff : FFMimickInterface) (times : list float) :
  InputTypeUWOVid.cache self !! (-1) = Some (ff, times) ->
  InputTypeUWOVid.loadChunk (Some (-1)) self
  = Ok (InputTypeUWOVid.CacheEntry ff times, self).
Proof.
  intros H. unfold InputTypeUWOVid.loadChunk. simpl.
  unfold cache_id. simpl. rewrite H. reflexivity.
Qed.

(** C5 on the binary stream of three records: the first load of the whole
    source computes and returns the aggregate; the second, with nothing in
    between, finds the entry under -1 and returns the stored list of the
    aggregate and the Unix times, which is not the aggregate returned
    before. *)
Theorem C5_uwovid_whole_source_hit_returns_entry :
  exists ff self1 times,
    InputTypeUWOVid.init (sample_vid 3) = Ok sample_uwovid_handle
    /\ InputTypeUWOVid.loadChunk (Some (-1)) sample_uwovid_handle
       = Ok (InputTypeUWOVid.Aggregate ff, self1)
    /\ InputTypeUWOVid.loadChunk (Some (-1)) self1
       = Ok (InputTypeUWOVid.CacheEntry ff times, self1)
    /\ InputTypeUWOVid.CacheEntry ff times <> InputTypeUWOVid.Aggregate ff.
Proof.
  eexists _, _, _. split; [exact sample_uwovid_handle_init|].
  split; [vm_compute; reflexivity|].
  split; [vm_compute; reflexivity|]. discriminate.
Qed.

(** ** The archive handle: loads and the frame index *)

(** C10: on the archive handle a [loadChunk] that does not find the
    current file in the cache reads it and resets the frame index to 0; a
    [loadChunk] that finds it returns the cached structure and leaves the
    frame index, and the rest of the handle, as it was. *)
Theorem C10_ff_load_resets_frame_on_miss :
  forall (read_nframes : option Z) (self : InputTypeFF.t)
         (ff : FFMimickInterface),
    (InputTypeFF.cache self !! InputTypeFF.current_ff_file self = None ->
     InputTypeFF.ff_files self !! InputTypeFF.current_ff_file self = Some ff ->
     exists self',
       InputTypeFF.loadChunk read_nframes self = Ok (ff, self')
       /\ InputTypeFF.current_frame self' = 0)
    /\ (InputTypeFF.cache self !! InputTypeFF.current_ff_file self = Some ff ->
        exists self',
          InputTypeFF.loadChunk read_nframes self = Ok (ff, self')
          /\ InputTypeFF.current_frame self' = InputTypeFF.current_frame self
          /\ self' = self).
Proof.
  intros read_nframes self ff. split.
  - intros Hmiss Hfile. unfold InputTypeFF.loadChunk, InputTypeFF.readFF.
    rewrite Hmiss, Hfile. simpl. eexists. split; reflexivity.
  - intros Hhit. unfold InputTypeFF.loadChunk. rewrite Hhit.
    exists self. repeat split.
Qed.

Lemma C10_ff_load_witness :
  (exists self',
     InputTypeFF.loadChunk None sample_ff_handle
     = Ok (mkFF (pixel_frame 9) (pixel_frame 4) 1 1 256, self')
     /\ InputTypeFF.current_frame sample_ff_handle = 2
     /\ InputTypeFF.current_frame self' = 0)
  /\ (exists self0 self',
        InputTypeFF.prevChunk sample_ff_handle = Ok self0
        /\ InputTypeFF.loadChunk None self0
           = Ok (mkFF (pixel_frame 9) (pixel_frame 4) 1 1 256, self')
        /\ InputTypeFF.current_frame self' = 2).
Proof.
  split.
  - destruct (C10_ff_load_resets_frame_on_miss None sample_ff_handle
                (mkFF (pixel_frame 9) (pixel_frame 4) 1 1 256))
      as [Hmiss _].
    destruct Hmiss as (self' & E & F);
      [vm_compute; reflexivity|vm_compute; reflexivity|].
    exists self'. split; [exact E|]. split; [reflexivity|exact F].
  - eexists. 
    destruct (C10_ff_load_resets_frame_on_miss None
                (InputTypeFF.set_file sample_ff_handle 0 "FF_0")
                (mkFF (pixel_frame 9) (pixel_frame 4) 1 1 256))
      as [_ Hhit].
    destruct Hhit as (self' & E & F & _); [vm_compute; reflexivity|].
    exists self'. split; [vm_compute; reflexivity|].
    split; [exact E|exact F].
Defined.

(** ** Loads of the whole source *)

(** On the video handle whose capture decodes as many frames as it
    reports, the load of the whole source takes the maximum over every
    frame and records the frame count. *)
Lemma video_whole_source (self : InputTypeVideo.t) :
  InputTypeVideo.cache self !! (-1) = None ->
  0 < InputTypeVideo.total_frames self ->
  Z.of_nat (length (InputTypeVideo.cap_frames (InputTypeVideo.cap self)))
  = InputTypeVideo.total_frames self ->
  exists ff self',
    InputTypeVideo.loadChunk (Some (-1)) self = Ok (ff, self')
    /\ maxpixel ff
       = fold_left np_max2 (InputTypeVideo.cap_frames (InputTypeVideo.cap self))
           (np_zeros 0 (InputTypeVideo.nrows self) (InputTypeVideo.ncols self))
    /\ InputTypeVideo.current_fr_chunk_size self'
       = InputTypeVideo.total_frames self.
Proof.
  intros Hmiss Hpos Hlen.
  destruct (video_loadChunk_miss (Some (-1)) self)
    as (self' & E & _ & S & _); [exact Hmiss|reflexivity|exact Hpos|].
  assert (video_ahead (Some (-1)) self
          = InputTypeVideo.cap_frames (InputTypeVideo.cap self)) as Ha.
  { unfold video_ahead, frames_ahead. simpl. apply drop_0. }
  assert (video_frames_to_read (Some (-1)) self
          = InputTypeVideo.total_frames self) as Hn by reflexivity.
  assert (video_window (Some (-1)) self
          = InputTypeVideo.cap_frames (InputTypeVideo.cap self)) as Hw.
  { unfold video_window. rewrite Ha, Hn. apply take_ge. lia. }
  rewrite Hw in E. rewrite Ha, Hn in S.
  eexists _, self'. split; [exact E|]. split; [reflexivity|].
  rewrite S.
  destruct (Nat.ltb_spec
              (length (InputTypeVideo.cap_frames (InputTypeVideo.cap self)))
              (Z.to_nat (InputTypeVideo.total_frames self)));
    [lia|reflexivity].
Qed.

(** On the image handle the load of the whole source stops at the last
    image: it aggregates every image but the last and records one less than
    the frame count. *)
Lemma images_whole_source (self : InputTypeImages.t) :
  consistent self ->
  InputTypeImages.cache self !! (-1) = None ->
  0 < InputTypeImages.total_frames self ->
  exists ff self',
    InputTypeImages.loadChunk (Some (-1)) self = Ok (ff, self')
    /\ maxpixel ff
       = fold_left np_max2
           (InputTypeImages.img_gray
              <$> take (Z.to_nat (InputTypeImages.total_frames self - 1))
                    (InputTypeImages.img_list self))
           (np_zeros 0 (InputTypeImages.nrows self)
              (InputTypeImages.ncols self))
    /\ InputTypeImages.current_fr_chunk_size self'
       = InputTypeImages.total_frames self - 1.
Proof.
  intros Hc Hmiss Hpos.
  destruct (images_loadChunk_miss (Some (-1)) self Hc)
    as (self' & E & _ & S & _); [exact Hmiss|reflexivity|exact Hpos|].
  assert (images_ahead self (images_first (Some (-1)) self)
          = InputTypeImages.img_gray
              <$> take (Z.to_nat (InputTypeImages.total_frames self - 1))
                    (InputTypeImages.img_list self)) as Ha.
  { unfold images_ahead. simpl. rewrite drop_0. reflexivity. }
  assert (images_frames_to_read (Some (-1)) self
          = InputTypeImages.total_frames self) as Hn by reflexivity.
  simpl in Hc.
  assert (length (images_ahead self (images_first (Some (-1)) self))
          = Z.to_nat (InputTypeImages.total_frames self - 1)) as Hl.
  { rewrite Ha, length_fmap, length_take. lia. }
  assert (images_window (Some (-1)) self
          = images_ahead self (images_first (Some (-1)) self)) as Hw.
  { unfold images_window. apply take_ge. rewrite Hl, Hn. lia. }
  rewrite Hw, Ha in E. rewrite Hl, Hn in S.
  eexists _, self'. split; [exact E|]. split; [reflexivity|].
  rewrite S.
  destruct (Nat.ltb_spec (Z.to_nat (InputTypeImages.total_frames self - 1))
              (Z.to_nat (InputTypeImages.total_frames self))); lia.
Qed.

(** C3 on the folder of two images, of values 0 and 5: the load of the
    whole source returns the maximum 0, where the maximum over both images
    is 5, and records 1 frame, where the folder holds 2. *)
Theorem C3_images_whole_source_skips_last_image :
  exists ff self1,
    InputTypeImages.init sample_images = Ok sample_images_handle
    /\ InputTypeImages.loadChunk (Some (-1)) sample_images_handle
       = Ok (ff, self1)
    /\ maxpixel ff = [[0]]
    /\ fold_left np_max2 (InputTypeImages.img_gray <$> sample_images)
         (np_zeros 0 1 1) = [[5]]
    /\ InputTypeImages.total_frames sample_images_handle = 2
    /\ InputTypeImages.current_fr_chunk_size self1 = 1.
Proof.
  eexists _, _. split; [exact sample_images_handle_init|].
  split; [vm_compute; reflexivity|]. repeat split.
Qed.

(** On the binary-stream handle a window that the stream cuts short raises
    instead of returning. *)
Lemma uwovid_truncated_window_raises (read_nframes : option Z)
    (self : InputTypeUWOVid.t) :
  InputTypeUWOVid.cache self
    !! cache_id read_nframes (InputTypeUWOVid.current_frame_chunk self)
  = None ->
  0 <= uwovid_start read_nframes self ->
  0 < InputTypeUWOVid.vid_seqlen (InputTypeUWOVid.vid_file self) ->
  Z.of_nat (length (uwovid_ahead read_nframes self))
  < uwovid_frames_to_read read_nframes self ->
  InputTypeUWOVid.loadChunk read_nframes self = Raise AttributeError.
Proof.
  intros Hmiss Hstart Hseq Hcut.
  pose proof (uwovid_loadChunk_miss read_nframes self Hmiss Hstart Hseq) as H.
  cbv zeta in H.
  destruct (Nat.ltb_spec (length (uwovid_ahead read_nframes self))
              (Z.to_nat (uwovid_frames_to_read read_nframes self)));
    [apply H; lia|lia].
Qed.

Example uwovid_truncated_window_sample :
  exists self0 self1,
    InputTypeUWOVid.init (sample_vid 300) = Ok self0
    /\ InputTypeUWOVid.nextChunk self0 = Ok self1
    /\ InputTypeUWOVid.current_frame_chunk self1 = 1
    /\ uwovid_frames_to_read (Some 200) self1 = 200
    /\ length (uwovid_ahead (Some 200) self1) = 172%nat
    /\ InputTypeUWOVid.loadChunk (Some 200) self1 = Raise AttributeError.
Proof.
  eexists _, _. split; [vm_compute; reflexivity|].
  split; [vm_compute; reflexivity|].
  split; [vm_compute; reflexivity|].
  split; [vm_compute; reflexivity|].
  split; vm_compute; reflexivity.
Qed.

(** ** The properties on the sample sources *)

Ltac run := vm_compute; first [reflexivity | discriminate | exact I | lia].

Lemma C1_truncated_window_witness :
  (exists ff self',
     InputTypeVideo.loadChunk (Some 400)
       (InputTypeVideo.set_chunk
          (InputTypeVideo.init (sample_video 600 600)) 1 256)
     = Ok (ff, self')
     /\ pixel (avepixel ff) 0 0 = Some 91)
  /\ (exists ff self',
     InputTypeVideo.loadChunk (Some 400)
       (InputTypeVideo.set_chunk
          (InputTypeVideo.init (sample_video 600 600)) 1 256)
     = Ok (ff, self')
     /\ avepixel ff = [[91]])
  /\ (exists ff self',
        InputTypeImages.loadChunk (Some (-1)) sample_images_handle
        = Ok (ff, self')
        /\ avepixel ff = [[0]])
  /\ (exists ff self',
        InputTypeUWOVid.loadChunk (Some (-1)) sample_uwovid_handle
        = Ok (InputTypeUWOVid.Aggregate ff, self')
        /\ avepixel ff = [[1]]).
Proof.
  destruct C1_truncated_window_avepixel as (Hp & Hv & Hi & Hu).
  split; [|split; [|split]].
  - destruct (Hp (Some 400)
                (InputTypeVideo.set_chunk
                   (InputTypeVideo.init (sample_video 600 600)) 1 256)
                0%nat 0%nat)
      as (ff & self' & E & A); [run|run|run|run|run| |].
    { apply Forall_forall. intros frame Hin.
      apply list_elem_of_In in Hin. vm_compute in Hin.
      repeat (destruct Hin as [<-|Hin]; [eexists; reflexivity|]).
      contradiction. }
    exists ff, self'. split; [exact E|]. rewrite A. run.
  - destruct (Hv (Some 400)
                (InputTypeVideo.set_chunk
                   (InputTypeVideo.init (sample_video 600 600)) 1 256))
      as (ff & self' & E & A); [run|run|run|].
    exists ff, self'. split; [exact E|]. rewrite A. run.
  - destruct (Hi (Some (-1)) sample_images_handle)
      as (ff & self' & E & A); [run|run|run|run|].
    exists ff, self'. split; [exact E|]. rewrite A. run.
  - exists (mkFF (pixel_frame 2) (pixel_frame 1) 1 1 3),
      (InputTypeUWOVid.mk (InputTypeUWOVid.mkVid 1002 0 8 1 1)
         (InputTypeUWOVid.seek (sample_vid 3) 24)
         (InputTypeUWOVid.mkVid 1000 0 8 1 1) 0 0 3 3 1 1 128 1
         [1000%float; 1001%float; 1002%float] 1.5%float
         {[ (-1) := (mkFF (pixel_frame 2) (pixel_frame 1) 1 1 3,
                     [1000%float; 1001%float; 1002%float]) ]}).
    split; [run|].
    rewrite (Hu (Some (-1)) sample_uwovid_handle
               (InputTypeUWOVid.mk (InputTypeUWOVid.mkVid 1002 0 8 1 1)
                  (InputTypeUWOVid.seek (sample_vid 3) 24)
                  (InputTypeUWOVid.mkVid 1000 0 8 1 1) 0 0 3 3 1 1 128 1
                  [1000%float; 1001%float; 1002%float] 1.5%float
                  {[ (-1) := (mkFF (pixel_frame 2) (pixel_frame 1) 1 1 3,
                              [1000%float; 1001%float; 1002%float]) ]})
               (mkFF (pixel_frame 2) (pixel_frame 1) 1 1 3));
      run.
Defined.

(** C6, as stated, fails on the archive handle: from the second file, two
    frames in, [nextChunk] and [prevChunk] move to the neighbouring files
    and the frame index stays 2, which is the index of the chunk times a
    chunk length for no chunk length at index 0. *)
Lemma C6_counterexample :
  exists self0 self2,
    InputTypeFF.prevChunk sample_ff_handle = Ok self0
    /\ InputTypeFF.current_ff_index self0 = 0
    /\ InputTypeFF.current_frame self0 = 2
    /\ (forall chunk_length : Z,
          InputTypeFF.current_frame self0
          <> InputTypeFF.current_ff_index self0 * chunk_length)
    /\ InputTypeFF.nextChunk sample_ff_handle = Ok self2
    /\ InputTypeFF.current_ff_index self2 = 2
    /\ InputTypeFF.current_frame self2 = 2.
Proof.
  eexists _, _. split; [vm_compute; reflexivity|].
  split; [reflexivity|]. split; [reflexivity|].
  split; [intros chunk_length; simpl; lia|].
  split; [vm_compute; reflexivity|]. split; reflexivity.
Qed.

(** The archive handle on 300 files, at the last file. *)
Lemma C6_chunk_navigation_witness :
  (exists self',
     InputTypeVideo.nextChunk
       (InputTypeVideo.set_chunk
          (InputTypeVideo.init (sample_video 600 600)) 1 256)
     = Ok self'
     /\ InputTypeVideo.current_frame_chunk self' = 0
     /\ InputTypeVideo.current_frame self' = 0)
  /\ (exists self',
        InputTypeUWOVid.prevChunk sample_uwovid_handle = Ok self'
        /\ InputTypeUWOVid.current_frame_chunk self' = 0)
  /\ (exists self',
        InputTypeImages.nextChunk sample_images_handle = Ok self'
        /\ InputTypeImages.current_frame_chunk self' = 0)
  /\ (exists self',
        InputTypeFF.nextChunk sample_ff_handle = Ok self'
        /\ InputTypeFF.current_ff_index self' = 2
        /\ InputTypeFF.current_frame self' = 2)
  /\ (exists self',
        InputTypeFF.nextChunk
          (InputTypeFF.mk (sample_ff_files 300) (sample_ff_names 300) 299
             "FF_299" 0 ∅ None)
        = Ok self'
        /\ InputTypeFF.current_ff_index self' = 0).
Proof.
  destruct C6_chunk_navigation as (Hv & Hu & Hi & Hf & H300).
  split; [|split; [|split; [|split]]].
  - destruct (Hv (InputTypeVideo.set_chunk
                    (InputTypeVideo.init (sample_video 600 600)) 1 256))
      as [(self' & E & C & F) _]; [run|].
    exists self'. split; [exact E|]. split; [exact C|].
    simpl in C, F. rewrite C in F. exact F.
  - destruct (Hu sample_uwovid_handle) as [_ (self' & E & C & F)]; [run|].
    exists self'. split; [exact E|exact C].
  - destruct (Hi sample_images_handle) as [(self' & E & C & F) _]; [run|].
    exists self'. split; [exact E|exact C].
  - destruct (Hf sample_ff_handle) as [(self' & E & C & F) _]; [run|].
    exists self'. split; [exact E|]. split; [exact C|exact F].
  - apply H300; run.
Defined.

Lemma C7_frame_navigation_witness :
  (exists self',
     do_calls (replicate 258 NextFrame)
       (InputTypeFF.set_current_frame sample_ff_handle 0) = Ok self'
     /\ InputTypeFF.current_frame self' = 2)
  /\ (exists self',
        InputTypeVideo.prevFrame (InputTypeVideo.init (sample_video 600 600))
        = Ok self'
        /\ InputTypeVideo.current_frame self' = 599
        /\ InputTypeVideo.current_frame_chunk self' = 0)
  /\ (exists self',
        do_calls (replicate 605 NextFrame)
          (InputTypeVideo.init (sample_video 600 600)) = Ok self'
        /\ InputTypeVideo.current_frame self' = 5)
  /\ (exists self',
        do_calls (replicate 4 NextFrame) sample_uwovid_handle = Ok self'
        /\ InputTypeUWOVid.current_frame self' = 1)
  /\ (exists self',
        do_calls (replicate 3 NextFrame) sample_images_handle = Ok self'
        /\ InputTypeImages.current_frame self' = 1).
Proof.
  destruct C7_frame_navigation as (Hf & Hv & Hu & Hi).
  split; [|split; [|split; [|split]]].
  - destruct (Hf (InputTypeFF.set_current_frame sample_ff_handle 0))
      as (_ & _ & HN); [run|run|].
    destruct (HN 258%nat) as (self' & E & F); [run|].
    exists self'. split; [exact E|exact F].
  - destruct (Hv (InputTypeVideo.init (sample_video 600 600)))
      as (_ & (self' & E & F & C) & _); [run|run|].
    exists self'. split; [exact E|]. split; [exact F|exact C].
  - destruct (Hv (InputTypeVideo.init (sample_video 600 600)))
      as (_ & _ & HN); [run|run|].
    destruct (HN 605%nat) as (self' & E & F); [run|].
    exists self'. split; [exact E|exact F].
  - destruct (Hu sample_uwovid_handle) as (_ & _ & HN); [run|run|].
    destruct (HN 4%nat) as (self' & E & F); [run|].
    exists self'. split; [exact E|exact F].
  - destruct (Hi sample_images_handle) as (_ & _ & HN); [run|run|].
    destruct (HN 3%nat) as (self' & E & F); [run|].
    exists self'. split; [exact E|exact F].
Defined.

Lemma C8_cache_witness :
  (exists self',
     do_calls [LoadChunk None; NextChunk; LoadChunk None; LoadChunk (Some (-1))]
       (InputTypeVideo.init (sample_video 600 600)) = Ok self'
     /\ (cache_size self' <= 1)%nat)
  /\ (exists self',
        do_calls [NextChunk; LoadChunk None; PrevChunk] sample_ff_handle
        = Ok self'
        /\ (cache_size self' <= 1)%nat)
  /\ (exists self',
        do_calls [LoadChunk (Some (-1)); LoadChunk None] sample_uwovid_handle
        = Ok self'
        /\ (cache_size self' <= 1)%nat)
  /\ (exists self',
        do_calls [LoadChunk (Some (-1)); NextChunk] sample_images_handle
        = Ok self'
        /\ (cache_size self' <= 1)%nat)
  /\ cache_size sample_uwovid_handle = 1%nat
  /\ cache_size sample_images_handle = 1%nat
  /\ (exists self',
        InputTypeFF.nextChunk sample_ff_handle = Ok self'
        /\ InputTypeFF.cache self' = InputTypeFF.cache sample_ff_handle)
  /\ (exists ff self',
        InputTypeFF.loadChunk None sample_ff_handle = Ok (ff, self')
        /\ InputTypeFF.cache self' = {[ "FF_1" := ff ]})
  /\ (exists ff self',
        InputTypeImages.loadChunk (Some (-1)) sample_images_handle
        = Ok (ff, self')
        /\ InputTypeImages.cache self' = {[ (-1) := ff ]}).
Proof.
  destruct C8_cache_at_most_one_entry
    as ((Bf & Bv & Bu & Bi) & (_ & Iu & Ii & _) & (Kf & _) & (Mf & _ & _ & Mi)).
  split; [|split; [|split; [|split; [|split; [|split; [|split; [|split]]]]]]].
  - eexists. split; [run|].
    apply (Bv [LoadChunk None; NextChunk; LoadChunk None; LoadChunk (Some (-1))]
             (InputTypeVideo.init (sample_video 600 600))); run.
  - eexists. split; [run|].
    apply (Bf [NextChunk; LoadChunk None; PrevChunk] sample_ff_handle); run.
  - eexists. split; [run|].
    apply (Bu [LoadChunk (Some (-1)); LoadChunk None] sample_uwovid_handle);
      run.
  - eexists. split; [run|].
    apply (Bi [LoadChunk (Some (-1)); NextChunk] sample_images_handle); run.
  - apply (Iu (sample_vid 3)). run.
  - apply (Ii sample_images). run.
  - eexists. split; [run|]. apply Kf. left. run.
  - eexists _, _. split; [run|].
    apply (Mf None sample_ff_handle); run.
  - eexists _, _. split; [run|].
    apply (Mi (Some (-1)) sample_images_handle); run.
Defined.

Lemma C9_total_chunks_witness :
  chunks_clamped (InputTypeVideo.init (sample_video 100 100)) 256
  /\ InputTypeVideo.total_fr_chunks (InputTypeVideo.init (sample_video 100 100))
     = 1
  /\ chunks_clamped sample_uwovid_handle 128
  /\ chunks_clamped sample_images_handle 64.
Proof.
  destruct C9_total_chunks_clamped as (Hv & Hu & Hi).
  split; [apply Hv; run|]. split; [reflexivity|].
  split; [apply (Hu (sample_vid 3)); run|].
  apply (Hi sample_images); run.
Defined.

(** * Further properties *)

(** ** Chunk steps, repeated *)

(** One chunk step of a handle: it returns, moves the chunk index by
    [delta] modulo the number of chunks and keeps the number of chunks. *)
Definition chunk_step {T : Type} `{Handle T} (step : T -> result T)
    (delta : Z) (self : T) : Prop :=
  exists self', step self = Ok self'
    /\ chunk_index self' = (chunk_index self + delta) mod chunk_count self
    /\ chunk_count self' = chunk_count self.

Lemma video_chunk_steps (self : InputTypeVideo.t) :
  0 < chunk_count self ->
  chunk_step next_chunk 1 self /\ chunk_step prev_chunk (-1) self.
Proof.
  simpl. intros Hpos. unfold chunk_step; simpl.
  unfold InputTypeVideo.nextChunk, InputTypeVideo.prevChunk.
  rewrite !py_mod_ok by lia. simpl. split; eexists; eauto.
Qed.

Lemma uwovid_chunk_steps (self : InputTypeUWOVid.t) :
  0 < chunk_count self ->
  chunk_step next_chunk 1 self /\ chunk_step prev_chunk (-1) self.
Proof.
  simpl. intros Hpos. unfold chunk_step; simpl.
  unfold InputTypeUWOVid.nextChunk, InputTypeUWOVid.prevChunk.
  rewrite !py_mod_ok by lia. simpl. split; eexists; eauto.
Qed.

Lemma images_chunk_steps (self : InputTypeImages.t) :
  0 < chunk_count self ->
  chunk_step next_chunk 1 self /\ chunk_step prev_chunk (-1) self.
Proof.
  simpl. intros Hpos. unfold chunk_step; simpl.
  unfold InputTypeImages.nextChunk, InputTypeImages.prevChunk.
  rewrite !py_mod_ok by lia. simpl. split; eexists; eauto.
Qed.

Lemma ff_chunk_steps (self : InputTypeFF.t) :
  0 < chunk_count self ->
  chunk_step next_chunk 1 self /\ chunk_step prev_chunk (-1) self.
Proof.
  simpl. intros Hpos. unfold chunk_step; simpl.
  unfold InputTypeFF.nextChunk, InputTypeFF.prevChunk.
  rewrite !py_mod_ok by lia. simpl.
  destruct (py_index_ok (InputTypeFF.ff_list self)
              ((InputTypeFF.current_ff_index self + 1)
               mod Z.of_nat (length (InputTypeFF.ff_list self)))) as [x1 E1].
  { apply Z.mod_pos_bound. exact Hpos. }
  destruct (py_index_ok (InputTypeFF.ff_list self)
              ((InputTypeFF.current_ff_index self + -1)
               mod Z.of_nat (length (InputTypeFF.ff_list self)))) as [x2 E2].
  { apply Z.mod_pos_bound. exact Hpos. }
  rewrite E1. change (InputTypeFF.current_ff_index self - 1)
    with (InputTypeFF.current_ff_index self + -1). rewrite E2.
  simpl. split; eexists; eauto.
Qed.

Lemma chunk_steps_iterate (T : Type) `{Handle T} (c : call)
    (step : T -> result T) (delta : Z) :
  (forall self : T, do_call c self = step self) ->
  (forall self : T, 0 < chunk_count self -> chunk_step step delta self) ->
  forall (N : nat) (self : T) (k : Z),
    0 < chunk_count self ->
    chunk_index self = k mod chunk_count self ->
    exists self', do_calls (replicate N c) self = Ok self'
      /\ chunk_index self' = (k + Z.of_nat N * delta) mod chunk_count self.
Proof.
  intros Hc Hstep. induction N as [|N IH]; intros self k Hpos Hk.
  - exists self. split; [reflexivity|]. rewrite Z.add_0_r. exact Hk.
  - destruct (Hstep self Hpos) as (s1 & E1 & C1 & T1).
    destruct (IH s1 (k + delta)) as (s2 & E2 & C2).
    + rewrite T1. exact Hpos.
    + rewrite C1, T1, Hk. apply Zplus_mod_idemp_l.
    + exists s2. split.
      * simpl. rewrite Hc, E1. exact E2.
      * rewrite C2, T1. f_equal. lia.
Qed.

(** From chunk 0 of a handle with at least one chunk, [N] calls of
    [nextChunk] end at chunk [N mod chunk_count], [N] calls of [prevChunk]
    end at chunk [(-N) mod chunk_count], and as many calls of [nextChunk]
    as there are chunks end at chunk 0 again. *)
Definition chunk_cycle (T : Type) `{Handle T} : Prop :=
  forall (self : T) (N : nat),
    0 < chunk_count self -> chunk_index self = 0 ->
    (exists self', do_calls (replicate N NextChunk) self = Ok self'
       /\ chunk_index self' = Z.of_nat N mod chunk_count self)
    /\ (exists self', do_calls (replicate N PrevChunk) self = Ok self'
          /\ chunk_index self' = (- Z.of_nat N) mod chunk_count self)
    /\ (exists self',
          do_calls (replicate (Z.to_nat (chunk_count self)) NextChunk) self
          = Ok self'
          /\ chunk_index self' = 0).

Lemma chunk_steps_cycle (T : Type) `{Handle T} :
  (forall self : T, 0 < chunk_count self ->
     chunk_step next_chunk 1 self /\ chunk_step prev_chunk (-1) self) ->
  chunk_cycle T.
Proof.
  intros Hstep self N Hpos H0.
  assert (chunk_index self = 0 mod chunk_count self) as Hk.
  { rewrite H0. symmetry. apply Z.mod_0_l. lia. }
  split; [|split].
  - destruct (chunk_steps_iterate T NextChunk next_chunk 1
                (fun _ => eq_refl) (fun s p => proj1 (Hstep s p))
                N self 0 Hpos Hk) as (s' & E & C).
    exists s'. split; [exact E|]. rewrite C. f_equal. lia.
  - destruct (chunk_steps_iterate T PrevChunk prev_chunk (-1)
                (fun _ => eq_refl) (fun s p => proj2 (Hstep s p))
                N self 0 Hpos Hk) as (s' & E & C).
    exists s'. split; [exact E|]. rewrite C. f_equal. lia.
  - destruct (chunk_steps_iterate T NextChunk next_chunk 1
                (fun _ => eq_refl) (fun s p => proj1 (Hstep s p))
                (Z.to_nat (chunk_count self)) self 0 Hpos Hk)
      as (s' & E & C).
    exists s'. split; [exact E|]. rewrite C.
    replace (0 + Z.of_nat (Z.to_nat (chunk_count self)) * 1)
      with (chunk_count self) by lia.
    apply Z_mod_same_full.
Qed.

(** X1: on every handle, from chunk 0, [N] calls of [nextChunk] lead to
    chunk [N mod total_chunks] and [N] calls of [prevChunk] to chunk
    [(-N) mod total_chunks]; [total_chunks] calls of [nextChunk] lead back
    to chunk 0. *)
Theorem X1_chunk_steps_cycle :
  chunk_cycle InputTypeFF.t /\ chunk_cycle InputTypeVideo.t
  /\ chunk_cycle InputTypeUWOVid.t /\ chunk_cycle InputTypeImages.t.
Proof.
  split; [|split; [|split]]; apply chunk_steps_cycle; intros self Hpos.
  - apply ff_chunk_steps; exact Hpos.
  - apply video_chunk_steps; exact Hpos.
  - apply uwovid_chunk_steps; exact Hpos.
  - apply images_chunk_steps; exact Hpos.
Qed.

Lemma X1_chunk_steps_witness :
  (exists self',
     do_calls (replicate 7 NextChunk)
       (InputTypeVideo.init (sample_video 600 600)) = Ok self'
     /\ InputTypeVideo.current_frame_chunk self' = 1)
  /\ (exists self',
        do_calls (replicate 4 PrevChunk)
          (InputTypeFF.set_file sample_ff_handle 0 "FF_0") = Ok self'
        /\ InputTypeFF.current_ff_index self' = 2)
  /\ (exists self',
        do_calls (replicate 1 NextChunk) sample_uwovid_handle = Ok self'
        /\ InputTypeUWOVid.current_frame_chunk self' = 0)
  /\ (exists self',
        do_calls (replicate 3 NextChunk) sample_images_handle = Ok self'
        /\ InputTypeImages.current_frame_chunk self' = 0).
Proof.
  destruct X1_chunk_steps_cycle as (Hf & Hv & Hu & Hi).
  split; [|split; [|split]].
  - destruct (Hv (InputTypeVideo.init (sample_video 600 600)) 7%nat)
      as ((self' & E & C) & _); [run|run|].
    exists self'. split; [exact E|exact C].
  - destruct (Hf (InputTypeFF.set_file sample_ff_handle 0 "FF_0") 4%nat)
      as (_ & (self' & E & C) & _); [run|run|].
    exists self'. split; [exact E|exact C].
  - destruct (Hu sample_uwovid_handle 1%nat)
      as (_ & _ & (self' & E & C)); [run|run|].
    exists self'. split; [exact E|exact C].
  - destruct (Hi sample_images_handle 3%nat)
      as ((self' & E & C) & _); [run|run|].
    exists self'. split; [exact E|exact C].
Defined.

(** ** The indices stay within the source *)

Definition in_range {T : Type} `{Handle T} (self : T) : Prop :=
  0 <= chunk_index self < chunk_count self
  /\ 0 <= frame_index self < frame_count self.

(** The first frame of every chunk of a constructed streaming handle is a
    frame of the source. *)
Lemma chunk_start_in_source (total_frames fr_chunk_no chunk : Z) :
  0 < total_frames -> 0 < fr_chunk_no ->
  0 <= chunk < compute_total_fr_chunks total_frames fr_chunk_no ->
  0 <= chunk * fr_chunk_no < total_frames.
Proof.
  intros Ht Hl. unfold compute_total_fr_chunks.
  pose proof (Z.mul_div_le total_frames fr_chunk_no Hl).
  destruct (Z.eqb_spec (total_frames / fr_chunk_no) 0); intros Hc; nia.
Qed.

(** The invariant of a streaming handle: the constructor's relation
    between frame count, chunk length and number of chunks, and both
    indices in range. *)
Definition streaming_inv (total_frames fr_chunk_no total_fr_chunks : Z)
    (chunk frame : Z) : Prop :=
  0 < total_frames /\ 0 < fr_chunk_no
  /\ total_fr_chunks = compute_total_fr_chunks total_frames fr_chunk_no
  /\ 0 <= chunk < total_fr_chunks /\ 0 <= frame < total_frames.

Lemma streaming_inv_chunk (total_frames fr_chunk_no total_fr_chunks : Z)
    (chunk frame delta : Z) :
  streaming_inv total_frames fr_chunk_no total_fr_chunks chunk frame ->
  streaming_inv total_frames fr_chunk_no total_fr_chunks
    ((chunk + delta) mod total_fr_chunks)
    ((chunk + delta) mod total_fr_chunks * fr_chunk_no).
Proof.
  intros (Ht & Hl & Hc & Hchunk & Hframe).
  assert (0 <= (chunk + delta) mod total_fr_chunks < total_fr_chunks) as Hm
    by (apply Z.mod_pos_bound; lia).
  repeat split; try lia; try assumption;
    apply (chunk_start_in_source total_frames fr_chunk_no); try assumption;
    rewrite <- Hc; exact Hm.
Qed.

Lemma streaming_inv_frame (total_frames fr_chunk_no total_fr_chunks : Z)
    (chunk frame delta : Z) :
  streaming_inv total_frames fr_chunk_no total_fr_chunks chunk frame ->
  streaming_inv total_frames fr_chunk_no total_fr_chunks chunk
    ((frame + delta) mod total_frames).
Proof.
  intros (Ht & Hl & Hc & Hchunk & Hframe).
  assert (0 <= (frame + delta) mod total_frames < total_frames) as Hm
    by (apply Z.mod_pos_bound; lia).
  repeat split; try lia; assumption.
Qed.

Definition video_inv (self : InputTypeVideo.t) : Prop :=
  streaming_inv (InputTypeVideo.total_frames self)
    (InputTypeVideo.fr_chunk_no self) (InputTypeVideo.total_fr_chunks self)
    (InputTypeVideo.current_frame_chunk self)
    (InputTypeVideo.current_frame self).

Definition uwovid_inv (self : InputTypeUWOVid.t) : Prop :=
  streaming_inv (InputTypeUWOVid.total_frames self)
    (InputTypeUWOVid.fr_chunk_no self) (InputTypeUWOVid.total_fr_chunks self)
    (InputTypeUWOVid.current_frame_chunk self)
    (InputTypeUWOVid.current_frame self).

Definition images_inv (self : InputTypeImages.t) : Prop :=
  streaming_inv (InputTypeImages.total_frames self)
    (InputTypeImages.fr_chunk_no self) (InputTypeImages.total_fr_chunks self)
    (InputTypeImages.current_frame_chunk self)
    (InputTypeImages.current_frame self).

Lemma video_call_inv (c : call) (self self' : InputTypeVideo.t) :
  video_inv self -> do_call c self = Ok self' -> video_inv self'.
Proof.
  unfold video_inv. intros Hinv H.
  pose proof Hinv as (Ht & Hl & Hc & Hchunk & Hframe).
  destruct c; simpl in H.
  - unfold InputTypeVideo.nextChunk in H. rewrite py_mod_ok in H by lia.
    injection H as <-. simpl.
    exact (streaming_inv_chunk _ _ _ _ _ 1 Hinv).
  - unfold InputTypeVideo.prevChunk in H. rewrite py_mod_ok in H by lia.
    injection H as <-. simpl.
    exact (streaming_inv_chunk _ _ _ _ _ (-1) Hinv).
  - inv_bind H. inv_ok H. destruct a as [ff s]. simpl.
    pose proof (video_call_static (LoadChunk read_nframes) self s) as Hs.
    simpl in Hs. rewrite E in Hs. specialize (Hs eq_refl).
    injection Hs as -> -> ->.
    destruct (video_loadChunk_cache _ _ _ _ E)
      as [[_ ->]|(_ & _ & -> & ->)]; exact Hinv.
  - unfold InputTypeVideo.nextFrame in H. rewrite py_mod_ok in H by lia.
    injection H as <-. simpl.
    exact (streaming_inv_frame _ _ _ _ _ 1 Hinv).
  - unfold InputTypeVideo.prevFrame in H. rewrite py_mod_ok in H by lia.
    injection H as <-. simpl.
    exact (streaming_inv_frame _ _ _ _ _ (-1) Hinv).
Qed.

Lemma uwovid_call_inv (c : call) (self self' : InputTypeUWOVid.t) :
  uwovid_inv self -> do_call c self = Ok self' -> uwovid_inv self'.
Proof.
  unfold uwovid_inv. intros Hinv H.
  pose proof Hinv as (Ht & Hl & Hc & Hchunk & Hframe).
  destruct c; simpl in H.
  - unfold InputTypeUWOVid.nextChunk in H. rewrite py_mod_ok in H by lia.
    injection H as <-. simpl.
    exact (streaming_inv_chunk _ _ _ _ _ 1 Hinv).
  - unfold InputTypeUWOVid.prevChunk in H. rewrite py_mod_ok in H by lia.
    injection H as <-. simpl.
    exact (streaming_inv_chunk _ _ _ _ _ (-1) Hinv).
  - inv_bind H. inv_ok H. destruct a as [v s]. simpl.
    pose proof (uwovid_call_static (LoadChunk read_nframes) self s) as Hs.
    simpl in Hs. rewrite E in Hs. specialize (Hs eq_refl).
    injection Hs as -> -> ->.
    destruct (uwovid_loadChunk_cache _ _ _ _ E)
      as [(ff & times & _ & _ & [(_ & _ & ->)|(_ & _ & ->)])
         |(ff & _ & _ & _ & -> & ->)]; exact Hinv.
  - unfold InputTypeUWOVid.nextFrame in H. rewrite py_mod_ok in H by lia.
    injection H as <-. simpl.
    exact (streaming_inv_frame _ _ _ _ _ 1 Hinv).
  - unfold InputTypeUWOVid.prevFrame in H. rewrite py_mod_ok in H by lia.
    injection H as <-. simpl.
    exact (streaming_inv_frame _ _ _ _ _ (-1) Hinv).
Qed.

Lemma images_call_inv (c : call) (self self' : InputTypeImages.t) :
  images_inv self -> do_call c self = Ok self' -> images_inv self'.
Proof.
  unfold images_inv. intros Hinv H.
  pose proof Hinv as (Ht & Hl & Hc & Hchunk & Hframe).
  destruct c; simpl in H.
  - unfold InputTypeImages.nextChunk in H. rewrite py_mod_ok in H by lia.
    injection H as <-. simpl.
    exact (streaming_inv_chunk _ _ _ _ _ 1 Hinv).
  - unfold InputTypeImages.prevChunk in H. rewrite py_mod_ok in H by lia.
    injection H as <-. simpl.
    exact (streaming_inv_chunk _ _ _ _ _ (-1) Hinv).
  - inv_bind H. inv_ok H. destruct a as [ff s]. simpl.
    pose proof (images_call_static (LoadChunk read_nframes) self s) as Hs.
    simpl in Hs. rewrite E in Hs. specialize (Hs eq_refl).
    injection Hs as -> -> -> _.
    destruct (images_loadChunk_cache _ _ _ _ E)
      as [[_ ->]|(_ & _ & -> & ->)]; exact Hinv.
  - unfold InputTypeImages.nextFrame in H. rewrite py_mod_ok in H by lia.
    simpl in H. inv_bind H. injection H as <-. simpl.
    exact (streaming_inv_frame _ _ _ _ _ 1 Hinv).
  - unfold InputTypeImages.prevFrame in H. rewrite py_mod_ok in H by lia.
    simpl in H. inv_bind H. injection H as <-. simpl.
    exact (streaming_inv_frame _ _ _ _ _ (-1) Hinv).
Qed.

Lemma video_init_inv (c : InputTypeVideo.VideoCapture) :
  0 < InputTypeVideo.cap_frame_count c -> video_inv (InputTypeVideo.init c).
Proof.
  intros Hc. unfold video_inv, streaming_inv. simpl.
  pose proof (compute_total_fr_chunks_pos (InputTypeVideo.cap_frame_count c)
                256). lia.
Qed.

Lemma uwovid_init_inv (f : InputTypeUWOVid.VidFile)
    (self0 : InputTypeUWOVid.t) :
  InputTypeUWOVid.init f = Ok self0 ->
  0 < InputTypeUWOVid.total_frames self0 -> uwovid_inv self0.
Proof.
  intros Hinit Ht.
  pose proof (uwovid_init_static f self0 Hinit) as Hs.
  injection Hs as Hl Hc.
  unfold InputTypeUWOVid.init in Hinit.
  destruct (InputTypeUWOVid.readVidFrame _ f) as [[frame v] f'].
  inv_bind Hinit. inv_bind Hinit. destruct a0 as [r self].
  inv_bind Hinit. inv_ok Hinit.
  assert (InputTypeUWOVid.current_frame_chunk self = 0
          /\ InputTypeUWOVid.current_frame self = 0) as [Hchunk Hframe].
  { destruct (uwovid_loadChunk_cache _ _ _ _ E0)
      as [(ff & times & Hhit & _)|(ff & _ & _ & _ & -> & ->)].
    - simpl in Hhit. rewrite lookup_empty in Hhit. discriminate Hhit.
    - split; reflexivity. }
  unfold uwovid_inv, streaming_inv. simpl in *.
  rewrite Hchunk, Hframe, Hl, Hc.
  pose proof (compute_total_fr_chunks_pos (InputTypeUWOVid.total_frames self)
                128). lia.
Qed.

Lemma images_init_inv (imgs : list InputTypeImages.ImageFile)
    (self0 : InputTypeImages.t) :
  InputTypeImages.init imgs = Ok self0 -> images_inv self0.
Proof.
  intros Hinit.
  pose proof (images_init_static imgs self0 Hinit) as Hs.
  injection Hs as Ht Hl Hc _.
  unfold InputTypeImages.init in Hinit.
  destruct imgs as [|first rest]; [discriminate Hinit|].
  inv_bind Hinit. inv_bind Hinit. destruct a0 as [r self]. inv_ok Hinit.
  assert (InputTypeImages.current_frame_chunk self = 0
          /\ InputTypeImages.current_frame self = 0) as [Hchunk Hframe].
  { destruct (images_loadChunk_cache _ _ _ _ E0)
      as [[Hhit _]|(_ & _ & -> & ->)].
    - simpl in Hhit. rewrite lookup_empty in Hhit. discriminate Hhit.
    - split; reflexivity. }
  unfold images_inv, streaming_inv.
  rewrite Hchunk, Hframe, Hl, Hc, Ht.
  pose proof (compute_total_fr_chunks_pos (Z.of_nat (length (first :: rest)))
                64).
  simpl length in *. lia.
Qed.

(** The invariant of the archive handle over the folder [files] with the
    sorted names [names]: the file index is in range and names the current
    file, and the frame index is within the loaded file. *)
Definition ff_inv (files : gmap string FFMimickInterface)
    (names : list string) (self : InputTypeFF.t) : Prop :=
  InputTypeFF.ff_files self = files
  /\ InputTypeFF.ff_list self = names
  /\ 0 <= InputTypeFF.current_ff_index self < Z.of_nat (length names)
  /\ py_index names (InputTypeFF.current_ff_index self)
     = Ok (InputTypeFF.current_ff_file self)
  /\ exists ff, InputTypeFF.ff self = Some ff
       /\ 0 <= InputTypeFF.current_frame self < nframes ff.

Lemma ff_call_inv (files : gmap string FFMimickInterface)
    (names : list string) (c : call) (self self' : InputTypeFF.t) :
  (forall name ff, files !! name = Some ff -> 0 < nframes ff) ->
  ff_inv files names self -> do_call c self = Ok self' ->
  ff_inv files names self'.
Proof.
  intros Hfiles (Hf & Hn & Hidx & Hfile & ff & Hff & Hframe) H.
  destruct c; simpl in H.
  - unfold InputTypeFF.nextChunk in H. rewrite Hn in H.
    rewrite py_mod_ok in H by lia. simpl in H. inv_bind H. inv_ok H.
    unfold ff_inv. simpl.
    split; [exact Hf|]. split; [exact Hn|].
    split; [apply Z.mod_pos_bound; lia|]. split; [exact E|]. eauto.
  - unfold InputTypeFF.prevChunk in H. rewrite Hn in H.
    rewrite py_mod_ok in H by lia. simpl in H. inv_bind H. inv_ok H.
    unfold ff_inv. simpl.
    split; [exact Hf|]. split; [exact Hn|].
    split; [apply Z.mod_pos_bound; lia|]. split; [exact E|]. eauto.
  - inv_bind H. inv_ok H. destruct a as [x s]. simpl.
    unfold InputTypeFF.loadChunk in E.
    destruct (InputTypeFF.cache self !! InputTypeFF.current_ff_file self).
    + injection E as _ <-. unfold ff_inv. eauto 10.
    + unfold InputTypeFF.readFF in E. rewrite Hf in E.
      destruct (files !! InputTypeFF.current_ff_file self) as [y|] eqn:Hy;
        [|discriminate E].
      simpl in E. injection E as _ <-. unfold ff_inv. simpl.
      split; [reflexivity|]. split; [exact Hn|]. split; [exact Hidx|].
      split; [exact Hfile|]. exists y. split; [reflexivity|].
      pose proof (Hfiles _ _ Hy). lia.
  - unfold InputTypeFF.nextFrame, InputTypeFF.get_ff in H. rewrite Hff in H.
    simpl in H. rewrite py_mod_ok in H by lia. injection H as <-.
    unfold ff_inv. simpl.
    split; [exact Hf|]. split; [exact Hn|]. split; [exact Hidx|].
    split; [exact Hfile|]. exists ff. split; [exact Hff|].
    apply Z.mod_pos_bound. lia.
  - unfold InputTypeFF.prevFrame, InputTypeFF.get_ff in H. rewrite Hff in H.
    simpl in H. rewrite py_mod_ok in H by lia. injection H as <-.
    unfold ff_inv. simpl.
    split; [exact Hf|]. split; [exact Hn|]. split; [exact Hidx|].
    split; [exact Hfile|]. exists ff. split; [exact Hff|].
    apply Z.mod_pos_bound. lia.
Qed.

Lemma ff_init_inv (files : gmap string FFMimickInterface)
    (names : list string) (self0 : InputTypeFF.t) :
  (forall name ff, files !! name = Some ff -> 0 < nframes ff) ->
  InputTypeFF.init files names = Ok self0 -> ff_inv files names self0.
Proof.
  intros Hfiles Hinit. unfold InputTypeFF.init in Hinit.
  destruct names as [|first rest]; [discriminate Hinit|].
  inv_bind Hinit. destruct a as [x s]. inv_ok Hinit.
  unfold InputTypeFF.loadChunk in E. simpl in E.
  rewrite lookup_empty in E. unfold InputTypeFF.readFF in E. simpl in E.
  destruct (files !! first) as [y|] eqn:Hy; [|discriminate E].
  simpl in E. injection E as _ <-. unfold ff_inv. simpl.
  split; [reflexivity|]. split; [reflexivity|]. split; [lia|].
  split; [reflexivity|]. exists y. split; [reflexivity|].
  pose proof (Hfiles _ _ Hy). lia.
Qed.

(** X2: on a handle constructed over a source with at least one frame,
    after every sequence of calls the chunk index is within the chunks and
    the frame index is within the frames (for the archive handle, the
    frames of the loaded file, every file holding at least one frame). *)
Theorem X2_indices_in_range :
  (forall c cs self,
     0 < InputTypeVideo.cap_frame_count c ->
     do_calls cs (InputTypeVideo.init c) = Ok self -> in_range self)
  /\ (forall f self0 cs self,
        InputTypeUWOVid.init f = Ok self0 ->
        0 < InputTypeUWOVid.total_frames self0 ->
        do_calls cs self0 = Ok self -> in_range self)
  /\ (forall imgs self0 cs self,
        InputTypeImages.init imgs = Ok self0 ->
        do_calls cs self0 = Ok self -> in_range self)
  /\ (forall files names self0 cs self,
        (forall name ff, files !! name = Some ff -> 0 < nframes ff) ->
        InputTypeFF.init files names = Ok self0 ->
        do_calls cs self0 = Ok self -> in_range self).
Proof.
  split; [|split; [|split]].
  - intros c cs self Hc Hrun.
    assert (video_inv self) as (_ & _ & _ & H1 & H2).
    { apply (do_calls_preserve video_inv video_call_inv cs
               (InputTypeVideo.init c)); [|exact Hrun].
      apply video_init_inv. exact Hc. }
    split; assumption.
  - intros f self0 cs self Hinit Ht Hrun.
    assert (uwovid_inv self) as (_ & _ & _ & H1 & H2).
    { apply (do_calls_preserve uwovid_inv uwovid_call_inv cs self0);
        [|exact Hrun].
      apply (uwovid_init_inv f); assumption. }
    split; assumption.
  - intros imgs self0 cs self Hinit Hrun.
    assert (images_inv self) as (_ & _ & _ & H1 & H2).
    { apply (do_calls_preserve images_inv images_call_inv cs self0);
        [|exact Hrun].
      apply (images_init_inv imgs). exact Hinit. }
    split; assumption.
  - intros files names self0 cs self Hfiles Hinit Hrun.
    assert (ff_inv files names self) as (_ & Hn & Hidx & _ & ff & Hff & Hfr).
    { apply (do_calls_preserve (ff_inv files names)
               (fun c s s' => ff_call_inv files names c s s' Hfiles)
               cs self0); [|exact Hrun].
      apply ff_init_inv; assumption. }
    unfold in_range. simpl. rewrite Hn, Hff. split; assumption.
Qed.

Lemma sample_ff_files_nframes (name : string) (ff : FFMimickInterface) :
  sample_ff_files 3 !! name = Some ff -> 0 < nframes ff.
Proof.
  intros H. apply elem_of_map_to_list in H. vm_compute in H.
  apply list_elem_of_In in H.
  repeat (destruct H as [H|H]; [injection H as _ <-; reflexivity|]).
  contradiction.
Qed.

Lemma X2_indices_witness :
  in_range
    (InputTypeVideo.set_chunk (InputTypeVideo.init (sample_video 600 600))
       1 256)
  /\ in_range sample_uwovid_handle
  /\ in_range sample_images_handle
  /\ in_range sample_ff_handle.
Proof.
  destruct X2_indices_in_range as (Hv & Hu & Hi & Hf).
  split; [|split; [|split]].
  - apply (Hv (sample_video 600 600) [NextChunk]); run.
  - apply (Hu (sample_vid 3) sample_uwovid_handle []); run.
  - apply (Hi sample_images sample_images_handle []); run.
  - apply (Hf (sample_ff_files 3) (sample_ff_names 3)
             (InputTypeFF.mk (sample_ff_files 3) (sample_ff_names 3) 0 "FF_0"
                0 {[ "FF_0" := mkFF (pixel_frame 9) (pixel_frame 4) 1 1 256 ]}
                (Some (mkFF (pixel_frame 9) (pixel_frame 4) 1 1 256)))
             [NextChunk; NextFrame; NextFrame]);
      [exact sample_ff_files_nframes|run|run].
Defined.

(** ** Steps forth and back *)

Ltac runs := first [run | split; run].

Lemma mod_step_back (i n : Z) :
  0 <= i < n ->
  ((i + 1) mod n - 1) mod n = i /\ ((i - 1) mod n + 1) mod n = i.
Proof.
  intros Hi. split.
  - rewrite Zminus_mod_idemp_l. replace (i + 1 - 1) with i by lia.
    apply Z.mod_small. exact Hi.
  - rewrite Zplus_mod_idemp_l. replace (i - 1 + 1) with i by lia.
    apply Z.mod_small. exact Hi.
Qed.

(** On a handle for which [ok] holds and whose frame index is in range,
    [nextFrame] then [prevFrame], and [prevFrame] then [nextFrame], give
    the handle back; likewise for the chunk steps when the chunk index is
    in range. *)
Definition frame_steps_inverse (T : Type) `{Handle T} (ok : T -> Prop)
    : Prop :=
  forall self : T, ok self ->
    0 <= frame_index self < frame_count self ->
    next_frame self ≫= prev_frame = Ok self
    /\ prev_frame self ≫= next_frame = Ok self.

Definition chunk_steps_inverse (T : Type) `{Handle T} (ok : T -> Prop)
    : Prop :=
  forall self : T, ok self ->
    0 <= chunk_index self < chunk_count self ->
    next_chunk self ≫= prev_chunk = Ok self
    /\ prev_chunk self ≫= next_chunk = Ok self.

(** The image handle shows the image of the current frame. *)
Definition images_shows_current (self : InputTypeImages.t) : Prop :=
  py_index (InputTypeImages.img_list self) (InputTypeImages.current_frame self)
  = Ok (InputTypeImages.current_img_file self).

(** The archive handle names the file of the current index. *)
Definition ff_names_current (self : InputTypeFF.t) : Prop :=
  py_index (InputTypeFF.ff_list self) (InputTypeFF.current_ff_index self)
  = Ok (InputTypeFF.name self).

(** X3: [nextFrame] and [prevFrame] undo each other on every handle whose
    frame index is in range (the image handle showing the image of its
    current frame); [nextChunk] and [prevChunk] undo each other on a
    streaming handle that stands at the first frame of its chunk and on an
    archive handle that names the file of its index. *)
Theorem X3_steps_undo_each_other :
  (frame_steps_inverse InputTypeFF.t (fun _ => True)
   /\ frame_steps_inverse InputTypeVideo.t (fun _ => True)
   /\ frame_steps_inverse InputTypeUWOVid.t (fun _ => True)
   /\ frame_steps_inverse InputTypeImages.t
        (fun self => consistent self /\ images_shows_current self))
  /\ (chunk_steps_inverse InputTypeFF.t ff_names_current
      /\ chunk_steps_inverse InputTypeVideo.t
           (fun self =>
              frame_index self
              = chunk_index self * InputTypeVideo.fr_chunk_no self)
      /\ chunk_steps_inverse InputTypeUWOVid.t
           (fun self =>
              frame_index self
              = chunk_index self * InputTypeUWOVid.fr_chunk_no self)
      /\ chunk_steps_inverse InputTypeImages.t
           (fun self =>
              frame_index self
              = chunk_index self * InputTypeImages.fr_chunk_no self)).
Proof.
  split; [split; [|split; [|split]]|split; [|split; [|split]]].
  - intros self _ Hr. simpl in Hr.
    destruct (InputTypeFF.ff self) as [ff|] eqn:Hff; [|lia].
    destruct (mod_step_back _ _ Hr) as [H1 H2].
    destruct self. simpl in *. subst.
    unfold InputTypeFF.nextFrame, InputTypeFF.prevFrame, InputTypeFF.get_ff.
    simpl. rewrite !py_mod_ok by lia. simpl. rewrite !py_mod_ok by lia.
    simpl. unfold InputTypeFF.set_current_frame. simpl.
    rewrite H1, H2. split; reflexivity.
  - intros self _ Hr. simpl in Hr.
    destruct (mod_step_back _ _ Hr) as [H1 H2].
    destruct self. simpl in *.
    unfold InputTypeVideo.nextFrame, InputTypeVideo.prevFrame.
    simpl. rewrite !py_mod_ok by lia. simpl. rewrite !py_mod_ok by lia.
    simpl. unfold InputTypeVideo.set_current_frame, InputTypeVideo.set_chunk.
    simpl. rewrite H1, H2. split; reflexivity.
  - intros self _ Hr. simpl in Hr.
    destruct (mod_step_back _ _ Hr) as [H1 H2].
    destruct self. simpl in *.
    unfold InputTypeUWOVid.nextFrame, InputTypeUWOVid.prevFrame.
    simpl. rewrite !py_mod_ok by lia. simpl. rewrite !py_mod_ok by lia.
    simpl.
    unfold InputTypeUWOVid.set_current_frame, InputTypeUWOVid.set_chunk.
    simpl. rewrite H1, H2. split; reflexivity.
  - intros self [Hc Hshow] Hr. unfold images_shows_current in Hshow.
    simpl in Hr, Hc.
    destruct (mod_step_back _ _ Hr) as [H1 H2].
    destruct self. simpl in *.
    unfold InputTypeImages.nextFrame, InputTypeImages.prevFrame.
    simpl. rewrite !py_mod_ok by lia. simpl.
    destruct (py_index_ok img_list ((current_frame + 1) mod total_frames))
      as [x1 E1]; [rewrite <- Hc; apply Z.mod_pos_bound; lia|].
    destruct (py_index_ok img_list ((current_frame - 1) mod total_frames))
      as [x2 E2]; [rewrite <- Hc; apply Z.mod_pos_bound; lia|].
    rewrite E1, E2. simpl. rewrite !py_mod_ok by lia. simpl.
    rewrite H1, H2, Hshow. simpl. split; reflexivity.
  - intros self Hname Hr. unfold ff_names_current, InputTypeFF.name in Hname.
    simpl in Hr.
    destruct (mod_step_back _ _ Hr) as [H1 H2].
    destruct self. simpl in *.
    unfold InputTypeFF.nextChunk, InputTypeFF.prevChunk.
    simpl. rewrite !py_mod_ok by lia. simpl.
    destruct (py_index_ok ff_list
                ((current_ff_index + 1) mod Z.of_nat (length ff_list)))
      as [x1 E1]; [apply Z.mod_pos_bound; lia|].
    destruct (py_index_ok ff_list
                ((current_ff_index - 1) mod Z.of_nat (length ff_list)))
      as [x2 E2]; [apply Z.mod_pos_bound; lia|].
    rewrite E1, E2. simpl. rewrite !py_mod_ok by lia. simpl.
    rewrite H1, H2, Hname. simpl. split; reflexivity.
  - intros self Hstart Hr. simpl in Hr, Hstart.
    destruct (mod_step_back _ _ Hr) as [H1 H2].
    destruct self. simpl in *.
    unfold InputTypeVideo.nextChunk, InputTypeVideo.prevChunk.
    simpl. rewrite !py_mod_ok by lia. simpl. rewrite !py_mod_ok by lia.
    simpl. unfold InputTypeVideo.set_chunk. simpl.
    rewrite H1, H2, <- Hstart. split; reflexivity.
  - intros self Hstart Hr. simpl in Hr, Hstart.
    destruct (mod_step_back _ _ Hr) as [H1 H2].
    destruct self. simpl in *.
    unfold InputTypeUWOVid.nextChunk, InputTypeUWOVid.prevChunk.
    simpl. rewrite !py_mod_ok by lia. simpl. rewrite !py_mod_ok by lia.
    simpl. unfold InputTypeUWOVid.set_chunk. simpl.
    rewrite H1, H2, <- Hstart. split; reflexivity.
  - intros self Hstart Hr. simpl in Hr, Hstart.
    destruct (mod_step_back _ _ Hr) as [H1 H2].
    destruct self. simpl in *.
    unfold InputTypeImages.nextChunk, InputTypeImages.prevChunk.
    simpl. rewrite !py_mod_ok by lia. simpl. rewrite !py_mod_ok by lia.
    simpl. unfold InputTypeImages.set_chunk. simpl.
    rewrite H1, H2, <- Hstart. split; reflexivity.
Qed.

Lemma X3_steps_witness :
  (InputTypeFF.nextFrame sample_ff_handle ≫= InputTypeFF.prevFrame
   = Ok sample_ff_handle)
  /\ (InputTypeVideo.prevFrame (InputTypeVideo.init (sample_video 600 600))
        ≫= InputTypeVideo.nextFrame
      = Ok (InputTypeVideo.init (sample_video 600 600)))
  /\ (InputTypeUWOVid.nextFrame sample_uwovid_handle
        ≫= InputTypeUWOVid.prevFrame
      = Ok sample_uwovid_handle)
  /\ (InputTypeImages.nextFrame sample_images_handle
        ≫= InputTypeImages.prevFrame
      = Ok sample_images_handle)
  /\ (InputTypeFF.prevChunk sample_ff_handle ≫= InputTypeFF.nextChunk
      = Ok sample_ff_handle)
  /\ (InputTypeVideo.nextChunk (InputTypeVideo.init (sample_video 600 600))
        ≫= InputTypeVideo.prevChunk
      = Ok (InputTypeVideo.init (sample_video 600 600)))
  /\ (InputTypeUWOVid.nextChunk sample_uwovid_handle
        ≫= InputTypeUWOVid.prevChunk
      = Ok sample_uwovid_handle)
  /\ (InputTypeImages.prevChunk sample_images_handle
        ≫= InputTypeImages.nextChunk
      = Ok sample_images_handle).
Proof.
  destruct X3_steps_undo_each_other
    as ((Ff & Fv & Fu & Fi) & (Cf & Cv & Cu & Ci)).
  split; [apply (Ff sample_ff_handle); runs|].
  split; [apply (Fv (InputTypeVideo.init (sample_video 600 600))); runs|].
  split; [apply (Fu sample_uwovid_handle); runs|].
  split; [apply (Fi sample_images_handle); runs|].
  split; [apply (Cf sample_ff_handle); runs|].
  split; [apply (Cv (InputTypeVideo.init (sample_video 600 600))); runs|].
  split; [apply (Cu sample_uwovid_handle); runs|].
  apply (Ci sample_images_handle); runs.
Defined.

(** ** The default window *)

(** X4: on a source of at least one frame, for a chunk index within the
    number of chunks the constructor computes, the default number of frames
    to read is the smaller of the chunk length and the frame count; it is
    at least 1 and the window it opens at the chunk offset ends within the
    source.  When the source holds a whole chunk the window ends within the
    first [total_frames // fr_chunk_no] chunks, so the frames after them
    are in no default window. *)
Theorem X4_default_window_within_source :
  forall total_frames fr_chunk_no chunk : Z,
    0 < total_frames -> 0 < fr_chunk_no ->
    0 <= chunk < compute_total_fr_chunks total_frames fr_chunk_no ->
    computeFramesToRead None total_frames fr_chunk_no chunk
    = Z.min fr_chunk_no total_frames
    /\ 1 <= computeFramesToRead None total_frames fr_chunk_no chunk
    /\ chunk * fr_chunk_no
       + computeFramesToRead None total_frames fr_chunk_no chunk
       <= total_frames
    /\ (fr_chunk_no <= total_frames ->
        chunk * fr_chunk_no
        + computeFramesToRead None total_frames fr_chunk_no chunk
        <= total_frames / fr_chunk_no * fr_chunk_no).
Proof.
  intros total_frames fr_chunk_no chunk Ht Hl Hc.
  pose proof (chunk_start_in_source _ _ _ Ht Hl Hc) as Hstart.
  rewrite computeFramesToRead_spec.
  destruct (decide (@None Z = Some (-1))) as [Heq|_]; [discriminate Heq|].
  unfold compute_total_fr_chunks in Hc.
  pose proof (Z.mul_div_le total_frames fr_chunk_no Hl) as Hdiv.
  pose proof (Z.div_pos total_frames fr_chunk_no) as Hdp.
  assert (fr_chunk_no <= total_frames -> 1 <= total_frames / fr_chunk_no)
    as Hone.
  { intros Hle. apply Z.div_le_lower_bound; lia. }
  assert (total_frames < fr_chunk_no -> total_frames / fr_chunk_no = 0)
    as Hzero.
  { intros Hlt. apply Z.div_small. lia. }
  destruct (Z.eqb_spec (total_frames / fr_chunk_no) 0) as [Hz|Hnz];
    case_decide; simpl; nia.
Qed.

Lemma X4_default_window_witness :
  computeFramesToRead None 600 256 1 = Z.min 256 600
  /\ 1 * 256 + computeFramesToRead None 600 256 1 <= 600 / 256 * 256
  /\ computeFramesToRead None 100 256 0 = Z.min 256 100.
Proof.
  split; [apply (X4_default_window_within_source 600 256 1); runs|].
  split; [apply (X4_default_window_within_source 600 256 1); runs|].
  apply (X4_default_window_within_source 100 256 0); runs.
Defined.

(** ** Calls that return, calls that raise *)

(** The requests a caller makes of [loadChunk]: no count, -1, or a
    positive count. *)
Definition request_ok (read_nframes : option Z) : Prop :=
  match read_nframes with
  | None => True
  | Some n => n = -1 \/ 0 < n
  end.

Definition call_ok (c : call) : Prop :=
  match c with
  | LoadChunk read_nframes => request_ok read_nframes
  | _ => True
  end.

(** Under the invariant of a streaming handle every such request asks for
    at least one frame. *)
Lemma request_frames_to_read_pos (read_nframes : option Z)
    (total_frames fr_chunk_no total_fr_chunks chunk frame : Z) :
  streaming_inv total_frames fr_chunk_no total_fr_chunks chunk frame ->
  request_ok read_nframes ->
  0 < computeFramesToRead read_nframes total_frames fr_chunk_no chunk.
Proof.
  intros (Ht & Hl & Hc & Hchunk & Hframe) Hr.
  rewrite Hc in Hchunk.
  pose proof (chunk_start_in_source _ _ _ Ht Hl Hchunk) as Hstart.
  rewrite computeFramesToRead_spec.
  case_decide; [exact Ht|]. case_decide; [|lia].
  destruct read_nframes as [n|]; simpl in *; [|exact Hl].
  destruct Hr as [->|Hn]; [congruence|exact Hn].
Qed.

Lemma video_request_returns (read_nframes : option Z)
    (self : InputTypeVideo.t) :
  video_inv self -> request_ok read_nframes ->
  exists ff self', InputTypeVideo.loadChunk read_nframes self = Ok (ff, self').
Proof.
  intros Hinv Hr.
  destruct (InputTypeVideo.cache self
              !! cache_id read_nframes (InputTypeVideo.current_frame_chunk self))
    as [ff|] eqn:Hc.
  - exists ff, self. unfold InputTypeVideo.loadChunk. rewrite Hc. reflexivity.
  - destruct (video_loadChunk_miss read_nframes self Hc)
      as (self' & E & _).
    + unfold video_start. destruct Hinv as (Ht & Hl & _ & Hchunk & _).
      destruct (is_minus_one read_nframes); nia.
    + apply (request_frames_to_read_pos _ _ _ _ _ _ Hinv Hr).
    + eauto.
Qed.

Lemma images_request_returns (read_nframes : option Z)
    (self : InputTypeImages.t) :
  images_inv self -> consistent self -> request_ok read_nframes ->
  exists ff self', InputTypeImages.loadChunk read_nframes self = Ok (ff, self').
Proof.
  intros Hinv Hcons Hr.
  destruct (InputTypeImages.cache self
              !! cache_id read_nframes
                   (InputTypeImages.current_frame_chunk self))
    as [ff|] eqn:Hc.
  - exists ff, self. unfold InputTypeImages.loadChunk. rewrite Hc.
    reflexivity.
  - destruct (images_loadChunk_miss read_nframes self Hcons Hc)
      as (self' & E & _).
    + unfold images_first. destruct Hinv as (Ht & Hl & _ & Hchunk & _).
      destruct (is_minus_one read_nframes); nia.
    + apply (request_frames_to_read_pos _ _ _ _ _ _ Hinv Hr).
    + eauto.
Qed.

Lemma images_call_consistent (c : call) (self self' : InputTypeImages.t) :
  consistent self -> do_call c self = Ok self' -> consistent self'.
Proof.
  simpl. intros Hc H.
  pose proof (images_call_static c self self' H) as Hs.
  injection Hs as -> _ _ ->. exact Hc.
Qed.

Lemma video_calls_return (cs : list call) :
  Forall call_ok cs ->
  forall self : InputTypeVideo.t,
    video_inv self -> exists self', do_calls cs self = Ok self'.
Proof.
  induction 1 as [|c cs Hc _ IH]; intros self Hinv; [eexists; reflexivity|].
  assert (exists s, do_call c self = Ok s) as [s Hs].
  { pose proof Hinv as (Ht & Hl & Hch & Hchunk & Hframe).
    destruct c; simpl.
    - unfold InputTypeVideo.nextChunk. rewrite py_mod_ok by lia. eauto.
    - unfold InputTypeVideo.prevChunk. rewrite py_mod_ok by lia. eauto.
    - destruct (video_request_returns read_nframes self Hinv Hc)
        as (ff & s & ->). eauto.
    - unfold InputTypeVideo.nextFrame. rewrite py_mod_ok by lia. eauto.
    - unfold InputTypeVideo.prevFrame. rewrite py_mod_ok by lia. eauto. }
  destruct (IH s (video_call_inv c self s Hinv Hs)) as [self' E].
  exists self'. simpl. rewrite Hs. exact E.
Qed.

Lemma images_calls_return (cs : list call) :
  Forall call_ok cs ->
  forall self : InputTypeImages.t,
    images_inv self -> consistent self ->
    exists self', do_calls cs self = Ok self'.
Proof.
  induction 1 as [|c cs Hc _ IH]; intros self Hinv Hcons;
    [eexists; reflexivity|].
  assert (exists s, do_call c self = Ok s) as [s Hs].
  { pose proof Hinv as (Ht & Hl & Hch & Hchunk & Hframe).
    destruct c; simpl.
    - unfold InputTypeImages.nextChunk. rewrite py_mod_ok by lia. eauto.
    - unfold InputTypeImages.prevChunk. rewrite py_mod_ok by lia. eauto.
    - destruct (images_request_returns read_nframes self Hinv Hcons Hc)
        as (ff & s & ->). eauto.
    - destruct (images_frame_steps self Hcons Ht) as [(s & E & _) _].
      exists s. exact E.
    - destruct (images_frame_steps self Hcons Ht) as [_ (s & E & _)].
      exists s. exact E. }
  destruct (IH s (images_call_inv c self s Hinv Hs)
              (images_call_consistent c self s Hcons Hs)) as [self' E].
  exists self'. simpl. rewrite Hs. exact E.
Qed.

(** An array of [nrows] rows of [ncols] entries each. *)
Definition has_shape {A : Type} (nrows ncols : Z) (a : list (list A)) : bool :=
  (Z.of_nat (length a) =? nrows)
  && forallb (fun row => Z.of_nat (length row) =? ncols) a.

(** X5: the video handle that the constructor leaves for a capture that
    reports at least one frame and decodes frames of the height and width
    it reports, and the image handle that the constructor leaves for a
    folder of images of one size, answer every sequence of navigation
    calls and of [loadChunk] calls without a count, with -1 or with a
    positive count: no call raises. *)
Theorem X5_video_and_images_calls_return :
  (forall (c : InputTypeVideo.VideoCapture) (cs : list call),
     0 < InputTypeVideo.cap_frame_count c ->
     0 <= InputTypeVideo.cap_height c -> 0 <= InputTypeVideo.cap_width c ->
     forallb (has_shape (InputTypeVideo.cap_height c)
                (InputTypeVideo.cap_width c))
       (InputTypeVideo.cap_frames c) = true ->
     Forall call_ok cs ->
     exists self, do_calls cs (InputTypeVideo.init c) = Ok self)
  /\ (forall (imgs : list InputTypeImages.ImageFile)
             (self0 : InputTypeImages.t) (cs : list call),
        InputTypeImages.init imgs = Ok self0 ->
        forallb (fun img =>
                   has_shape (InputTypeImages.nrows self0)
                     (InputTypeImages.ncols self0)
                     (InputTypeImages.img_gray img)) imgs = true ->
        Forall call_ok cs ->
        exists self, do_calls cs self0 = Ok self).
Proof.
  split.
  - intros c cs Hc _ _ _ Hcs. apply video_calls_return; [exact Hcs|].
    apply video_init_inv. exact Hc.
  - intros imgs self0 cs H0 _ Hcs.
    apply (images_calls_return cs Hcs self0).
    + apply (images_init_inv imgs). exact H0.
    + pose proof (images_init_static imgs self0 H0) as Hs.
      injection Hs as Ht _ _ Hl. simpl. rewrite Ht, Hl. reflexivity.
Qed.

Lemma X5_calls_return_witness :
  (exists self,
     do_calls [LoadChunk (Some 400); NextChunk; LoadChunk None; PrevFrame;
               LoadChunk (Some (-1))]
       (InputTypeVideo.init (sample_video 600 600)) = Ok self)
  /\ (exists self0 self,
        InputTypeImages.init sample_images = Ok self0
        /\ do_calls [LoadChunk (Some (-1)); NextFrame; PrevChunk;
                     LoadChunk (Some 5)] self0 = Ok self).
Proof.
  destruct X5_video_and_images_calls_return as [Hv Hi].
  split.
  - apply Hv; [run|run|run|run|].
    repeat (apply Forall_cons; split); try apply Forall_nil; simpl;
      first [exact I | lia].
  - destruct (Hi sample_images sample_images_handle
                [LoadChunk (Some (-1)); NextFrame; PrevChunk;
                 LoadChunk (Some 5)]) as [self E]; [run|run| |].
    + repeat (apply Forall_cons; split); try apply Forall_nil; simpl;
        first [exact I | lia].
    + exists sample_images_handle, self. split; [run|exact E].
Defined.

(** X6: on each streaming handle of a geometry without a negative side a
    [loadChunk] that misses the cache and comes to read no frame at all (a
    count of 0, a negative count other than -1, or a source that reports
    no frame) leaves its loop variable unbound and raises
    [UnboundLocalError]; on the binary-stream handle the offset the file
    is set to is not negative either.  On a video that reports no frame
    the frame steps raise [ZeroDivisionError], while the chunk steps
    return and stay at chunk 0. *)
Theorem X6_nothing_to_read_raises :
  (forall read_nframes self,
     InputTypeVideo.cache self
       !! cache_id read_nframes (InputTypeVideo.current_frame_chunk self)
     = None ->
     0 <= InputTypeVideo.nrows self -> 0 <= InputTypeVideo.ncols self ->
     video_frames_to_read read_nframes self <= 0 ->
     InputTypeVideo.loadChunk read_nframes self = Raise UnboundLocalError)
  /\ (forall read_nframes self,
        InputTypeUWOVid.cache self
          !! cache_id read_nframes (InputTypeUWOVid.current_frame_chunk self)
        = None ->
        0 <= uwovid_start read_nframes self ->
        0 <= InputTypeUWOVid.nrows self -> 0 <= InputTypeUWOVid.ncols self ->
        uwovid_frames_to_read read_nframes self <= 0 ->
        InputTypeUWOVid.loadChunk read_nframes self = Raise UnboundLocalError)
  /\ (forall read_nframes self,
        InputTypeImages.cache self
          !! cache_id read_nframes (InputTypeImages.current_frame_chunk self)
        = None ->
        0 <= InputTypeImages.nrows self -> 0 <= InputTypeImages.ncols self ->
        images_frames_to_read read_nframes self <= 0 ->
        InputTypeImages.loadChunk read_nframes self = Raise UnboundLocalError)
  /\ (forall c : InputTypeVideo.VideoCapture,
        InputTypeVideo.cap_frame_count c = 0 ->
        (0 <= InputTypeVideo.cap_height c ->
         0 <= InputTypeVideo.cap_width c ->
         InputTypeVideo.loadChunk None (InputTypeVideo.init c)
         = Raise UnboundLocalError
         /\ InputTypeVideo.loadChunk (Some (-1)) (InputTypeVideo.init c)
            = Raise UnboundLocalError)
        /\ InputTypeVideo.nextFrame (InputTypeVideo.init c)
           = Raise ZeroDivisionError
        /\ InputTypeVideo.prevFrame (InputTypeVideo.init c)
           = Raise ZeroDivisionError
        /\ InputTypeVideo.nextChunk (InputTypeVideo.init c)
           = Ok (InputTypeVideo.init c)
        /\ InputTypeVideo.prevChunk (InputTypeVideo.init c)
           = Ok (InputTypeVideo.init c)).
Proof.
  assert (forall read_nframes self,
            InputTypeVideo.cache self
              !! cache_id read_nframes (InputTypeVideo.current_frame_chunk self)
            = None ->
            video_frames_to_read read_nframes self <= 0 ->
            InputTypeVideo.loadChunk read_nframes self
            = Raise UnboundLocalError) as Hv.
  { intros r self Hmiss Hn. unfold InputTypeVideo.loadChunk. rewrite Hmiss.
    fold (video_frames_to_read r self). unfold py_range.
    rewrite seqZ_nil by exact Hn. reflexivity. }
  split; [intros r self Hmiss _ _ Hn; exact (Hv r self Hmiss Hn)|].
  split; [|split].
  - intros r self Hmiss _ _ _ Hn. unfold InputTypeUWOVid.loadChunk.
    rewrite Hmiss. fold (uwovid_frames_to_read r self). unfold py_range.
    rewrite seqZ_nil by exact Hn. reflexivity.
  - intros r self Hmiss _ _ Hn. unfold InputTypeImages.loadChunk.
    rewrite Hmiss. fold (images_frames_to_read r self). unfold py_range.
    rewrite seqZ_nil by exact Hn. reflexivity.
  - intros c Hc. split.
    + intros _ _. split; apply Hv; try reflexivity;
        unfold video_frames_to_read; simpl; rewrite Hc; discriminate.
    + unfold InputTypeVideo.nextFrame, InputTypeVideo.prevFrame,
        InputTypeVideo.nextChunk, InputTypeVideo.prevChunk.
      simpl. rewrite Hc. repeat split.
Qed.

Lemma X6_nothing_to_read_witness :
  InputTypeVideo.loadChunk (Some 0)
    (InputTypeVideo.init (sample_video 600 600)) = Raise UnboundLocalError
  /\ (exists self0 self1,
        InputTypeUWOVid.init (sample_vid 300) = Ok self0
        /\ InputTypeUWOVid.nextChunk self0 = Ok self1
        /\ InputTypeUWOVid.loadChunk (Some 0) self1 = Raise UnboundLocalError)
  /\ (exists self0 ff self1,
        InputTypeImages.init (sample_image_folder 70) = Ok self0
        /\ InputTypeImages.loadChunk (Some (-1)) self0 = Ok (ff, self1)
        /\ InputTypeImages.loadChunk (Some (-5)) self1
           = Raise UnboundLocalError)
  /\ InputTypeVideo.loadChunk None (InputTypeVideo.init (sample_video 0 0))
     = Raise UnboundLocalError
  /\ InputTypeVideo.nextFrame (InputTypeVideo.init (sample_video 0 0))
     = Raise ZeroDivisionError.
Proof.
  destruct X6_nothing_to_read_raises as (Hv & Hu & Hi & He).
  split; [apply Hv; run|]. split; [|split].
  - eexists _, _. split; [run|]. split; [run|]. apply Hu; run.
  - eexists _, _, _. split; [run|]. split; [run|]. apply Hi; run.
  - destruct (He (sample_video 0 0)) as (Hload & Hnext & _); [reflexivity|].
    split; [apply Hload; run|exact Hnext].
Defined.

(** ** One slot for two kinds of request *)

Lemma one_entry_lookup {V : Type} (m : gmap Z V) (k k' : Z) (x : V) :
  (size m <= 1)%nat -> m !! k = Some x -> k' <> k -> m !! k' = None.
Proof.
  intros Hsize Hk Hne.
  rewrite <- (insert_delete_id m k x Hk) in Hsize.
  rewrite map_size_insert_None in Hsize by apply lookup_delete_eq.
  assert (delete k m = ∅) as Hempty by (apply map_size_empty_inv; lia).
  rewrite <- (lookup_delete_ne m k k') by congruence.
  rewrite Hempty. apply lookup_empty.
Qed.

Lemma cache_id_other_kind (r r' : option Z) (chunk : Z) :
  0 <= chunk -> is_minus_one r' <> is_minus_one r ->
  cache_id r' chunk <> cache_id r chunk.
Proof.
  unfold cache_id. intros Hc Hne.
  destruct (is_minus_one r), (is_minus_one r'); congruence || lia.
Qed.

(** X7: a streaming handle keeps the aggregate of the whole source and the
    aggregate of a chunk in the same single slot.  After a [loadChunk] of
    one kind has returned, on a handle whose cache held at most one entry,
    the cache holds no entry for a request of the other kind on the same
    chunk: that request computes anew. *)
Theorem X7_whole_source_and_chunk_evict_each_other :
  (forall r r' self ff self',
     (size (InputTypeVideo.cache self) <= 1)%nat ->
     0 <= InputTypeVideo.current_frame_chunk self ->
     InputTypeVideo.loadChunk r self = Ok (ff, self') ->
     is_minus_one r' <> is_minus_one r ->
     InputTypeVideo.cache self'
       !! cache_id r' (InputTypeVideo.current_frame_chunk self') = None)
  /\ (forall r r' self v self',
        (size (InputTypeUWOVid.cache self) <= 1)%nat ->
        0 <= InputTypeUWOVid.current_frame_chunk self ->
        InputTypeUWOVid.loadChunk r self = Ok (v, self') ->
        is_minus_one r' <> is_minus_one r ->
        InputTypeUWOVid.cache self'
          !! cache_id r' (InputTypeUWOVid.current_frame_chunk self') = None)
  /\ (forall r r' self ff self',
        (size (InputTypeImages.cache self) <= 1)%nat ->
        0 <= InputTypeImages.current_frame_chunk self ->
        InputTypeImages.loadChunk r self = Ok (ff, self') ->
        is_minus_one r' <> is_minus_one r ->
        InputTypeImages.cache self'
          !! cache_id r' (InputTypeImages.current_frame_chunk self') = None).
Proof.
  split; [|split].
  - intros r r' self ff self' Hsize Hchunk H Hkind.
    pose proof (cache_id_other_kind r r' _ Hchunk Hkind) as Hne.
    destruct (video_loadChunk_cache _ _ _ _ H)
      as [[Hhit ->]|(_ & -> & -> & _)].
    + exact (one_entry_lookup _ _ _ _ Hsize Hhit Hne).
    + apply lookup_singleton_ne. congruence.
  - intros r r' self v self' Hsize Hchunk H Hkind.
    pose proof (cache_id_other_kind r r' _ Hchunk Hkind) as Hne.
    destruct (uwovid_loadChunk_cache _ _ _ _ H)
      as [(ff & times & Hhit & -> & [(_ & _ & ->)|(_ & _ & ->)])
         |(ff & _ & _ & -> & -> & _)].
    + exact (one_entry_lookup _ _ _ _ Hsize Hhit Hne).
    + exact (one_entry_lookup _ _ _ _ Hsize Hhit Hne).
    + apply lookup_singleton_ne. congruence.
  - intros r r' self ff self' Hsize Hchunk H Hkind.
    pose proof (cache_id_other_kind r r' _ Hchunk Hkind) as Hne.
    destruct (images_loadChunk_cache _ _ _ _ H)
      as [[Hhit ->]|(_ & -> & -> & _)].
    + exact (one_entry_lookup _ _ _ _ Hsize Hhit Hne).
    + apply lookup_singleton_ne. congruence.
Qed.

Lemma X7_evict_witness :
  (exists ff self',
     InputTypeVideo.loadChunk (Some (-1))
       (InputTypeVideo.init (sample_video 600 600)) = Ok (ff, self')
     /\ InputTypeVideo.cache self'
          !! cache_id None (InputTypeVideo.current_frame_chunk self') = None)
  /\ (exists v self',
        InputTypeUWOVid.loadChunk None sample_uwovid_handle = Ok (v, self')
        /\ InputTypeUWOVid.cache self'
             !! cache_id (Some (-1))
                  (InputTypeUWOVid.current_frame_chunk self') = None)
  /\ (exists ff self',
        InputTypeImages.loadChunk (Some (-1)) sample_images_handle
        = Ok (ff, self')
        /\ InputTypeImages.cache self'
             !! cache_id (Some 7)
                  (InputTypeImages.current_frame_chunk self') = None).
Proof.
  destruct X7_whole_source_and_chunk_evict_each_other as (Hv & Hu & Hi).
  split; [|split].
  - eexists _, _. split; [run|].
    eapply (Hv (Some (-1)) None
              (InputTypeVideo.init (sample_video 600 600))); run.
  - eexists _, _. split; [run|].
    eapply (Hu None (Some (-1)) sample_uwovid_handle); run.
  - eexists _, _. split; [run|].
    eapply (Hi (Some (-1)) (Some 7) sample_images_handle); run.
Defined.

(** X8: on the video, image and archive handles a [loadChunk] that follows
    a returned [loadChunk] of the same kind, with no call in between,
    returns the very aggregate of the first call and leaves the handle as
    it is, whatever count it passes: the count is no part of the cache
    key. *)
Theorem X8_repeated_load_ignores_the_count :
  (forall r r' self ff self',
     InputTypeVideo.loadChunk r self = Ok (ff, self') ->
     is_minus_one r' = is_minus_one r ->
     InputTypeVideo.loadChunk r' self' = Ok (ff, self'))
  /\ (forall r r' self ff self',
        InputTypeImages.loadChunk r self = Ok (ff, self') ->
        is_minus_one r' = is_minus_one r ->
        InputTypeImages.loadChunk r' self' = Ok (ff, self'))
  /\ (forall r r' self ff self',
        InputTypeFF.loadChunk r self = Ok (ff, self') ->
        InputTypeFF.loadChunk r' self' = Ok (ff, self')).
Proof.
  split; [|split].
  - intros r r' self ff self' H Hr. exact (video_load_again r r' _ _ _ H Hr).
  - intros r r' self ff self' H Hr. exact (images_load_again r r' _ _ _ H Hr).
  - intros r r' self ff self' H. exact (ff_load_again r r' _ _ _ H).
Qed.

Lemma X8_repeated_load_witness :
  (exists ff self',
     InputTypeVideo.loadChunk (Some 10)
       (InputTypeVideo.init (sample_video 600 600)) = Ok (ff, self')
     /\ InputTypeVideo.current_fr_chunk_size self' = 10
     /\ InputTypeVideo.loadChunk None self' = Ok (ff, self'))
  /\ (exists ff self',
        InputTypeImages.loadChunk (Some (-1)) sample_images_handle
        = Ok (ff, self')
        /\ InputTypeImages.loadChunk (Some (-1)) self' = Ok (ff, self'))
  /\ (exists ff self',
        InputTypeFF.loadChunk None sample_ff_handle = Ok (ff, self')
        /\ InputTypeFF.loadChunk (Some 3) self' = Ok (ff, self')).
Proof.
  destruct X8_repeated_load_ignores_the_count as (Hv & Hi & Hf).
  split; [|split].
  - eexists _, _. split; [run|]. split; [reflexivity|].
    apply (Hv (Some 10) None (InputTypeVideo.init (sample_video 600 600)));
      run.
  - eexists _, _. split; [run|].
    apply (Hi (Some (-1)) (Some (-1)) sample_images_handle); run.
  - eexists _, _. split; [run|].
    apply (Hf None (Some 3) sample_ff_handle); run.
Defined.

(** ** The pixels of [maxpixel] *)

(** The running maximum of one pixel over the frames [fs]. *)
Definition pixel_max (r c : nat) (fs : list Frame) (start : Z) : Z :=
  fold_left
    (fun (m : Z) (frame : Frame) => Z.max m (default 0 (pixel frame r c)))
    fs start.

Lemma pixel_fold_max (r c : nat) (fs : list Frame) :
  forall (mx : Frame) (m : Z),
    pixel mx r c = Some m ->
    Forall (fun frame => is_Some (pixel frame r c)) fs ->
    pixel (fold_left np_max2 fs mx) r c = Some (pixel_max r c fs m).
Proof.
  induction fs as [|f fs IH]; intros mx m Hm Hfs; [exact Hm|].
  apply Forall_cons in Hfs as [[v Hv] Hfs].
  simpl. apply IH; [|exact Hfs].
  rewrite Hv. simpl. apply pixel_zip_with; assumption.
Qed.

Lemma pixel_max_cons (r c : nat) (f : Frame) (fs : list Frame) (m : Z) :
  pixel_max r c (f :: fs) m
  = pixel_max r c fs (Z.max m (default 0 (pixel f r c))).
Proof. reflexivity. Qed.

Lemma pixel_max_bounds (r c : nat) (fs : list Frame) :
  forall m : Z,
    0 <= m ->
    m <= pixel_max r c fs m
    /\ (forall frame v,
          frame ∈ fs -> pixel frame r c = Some v -> v <= pixel_max r c fs m)
    /\ (pixel_max r c fs m = m
        \/ exists frame,
             frame ∈ fs /\ pixel frame r c = Some (pixel_max r c fs m)).
Proof.
  induction fs as [|f fs IH]; intros m Hm.
  - split; [reflexivity|]. split; [|left; reflexivity].
    intros frame v Hin. apply elem_of_nil in Hin. contradiction.
  - rewrite pixel_max_cons.
    set (d := default 0 (pixel f r c)).
    destruct (IH (Z.max m d)) as (H1 & H2 & H3); [lia|].
    split; [lia|]. split.
    + intros frame v Hin Hv. apply elem_of_cons in Hin as [->|Hin].
      * subst d. rewrite Hv in *. simpl in *. lia.
      * exact (H2 frame v Hin Hv).
    + destruct H3 as [H3|(frame & Hin & Hv)].
      * destruct (Z.max_spec m d) as [[Hlt Hmx]|[Hge Hmx]].
        -- destruct (pixel f r c) as [v|] eqn:Hf.
           ++ right. exists f. split; [apply list_elem_of_here|].
              rewrite H3, Hmx. subst d. exact Hf.
           ++ left. subst d. simpl in *. lia.
        -- left. rewrite H3. exact Hmx.
      * right. exists frame. split; [apply list_elem_of_further; exact Hin|].
        exact Hv.
Qed.

(** X9: every pixel of the [maxpixel] a video [loadChunk] computes is the
    maximum of 0 and of that pixel over the frames of the window: it is at
    least every frame's value there, and it is 0 or the value of one of the
    frames. *)
Theorem X9_video_maxpixel_is_the_pixel_maximum :
  forall (read_nframes : option Z) (self : InputTypeVideo.t) (r c : nat),
    InputTypeVideo.cache self
      !! cache_id read_nframes (InputTypeVideo.current_frame_chunk self)
    = None ->
    0 <= video_start read_nframes self ->
    0 < video_frames_to_read read_nframes self ->
    (r < Z.to_nat (InputTypeVideo.nrows self))%nat ->
    (c < Z.to_nat (InputTypeVideo.ncols self))%nat ->
    Forall (fun frame => is_Some (pixel frame r c))
      (video_window read_nframes self) ->
    exists ff self' m,
      InputTypeVideo.loadChunk read_nframes self = Ok (ff, self')
      /\ pixel (maxpixel ff) r c = Some m
      /\ 0 <= m
      /\ (forall frame v,
            frame ∈ video_window read_nframes self ->
            pixel frame r c = Some v -> v <= m)
      /\ (m = 0
          \/ exists frame,
               frame ∈ video_window read_nframes self
               /\ pixel frame r c = Some m).
Proof.
  intros read_nframes self r c Hmiss Hstart Hn Hr Hc Hfs.
  destruct (video_loadChunk_miss read_nframes self Hmiss Hstart Hn)
    as (self' & E & _).
  destruct (pixel_max_bounds r c (video_window read_nframes self) 0)
    as (H1 & H2 & H3); [lia|].
  eexists _, self', _. split; [exact E|]. simpl.
  split; [apply pixel_fold_max; [apply pixel_np_zeros; assumption|exact Hfs]|].
  split; [exact H1|]. split; [exact H2|exact H3].
Qed.

Lemma X9_video_maxpixel_witness :
  exists ff self' m,
    InputTypeVideo.loadChunk (Some 3)
      (InputTypeVideo.init (sample_video 600 600)) = Ok (ff, self')
    /\ pixel (maxpixel ff) 0 0 = Some m
    /\ 0 <= m
    /\ (m = 0
        \/ exists frame,
             frame ∈ video_window (Some 3)
                       (InputTypeVideo.init (sample_video 600 600))
             /\ pixel frame 0 0 = Some m).
Proof.
  destruct (X9_video_maxpixel_is_the_pixel_maximum (Some 3)
              (InputTypeVideo.init (sample_video 600 600)) 0%nat 0%nat)
    as (ff & self' & m & E & P & H0 & _ & H1); [run|run|run|run|run| |].
  { apply Forall_forall. intros frame Hin.
    apply list_elem_of_In in Hin. vm_compute in Hin.
    repeat (destruct Hin as [<-|Hin]; [eexists; reflexivity|]).
    contradiction. }
  exists ff, self', m. split; [exact E|]. split; [exact P|].
  split; [exact H0|exact H1].
Defined.

(** ** The window of the image handle *)

(** X10: whatever the request, a [loadChunk] of the image handle that
    computes an aggregate reads its window out of the images but the
    last: the images from the first index of the request on, as many as
    requested, within the folder without its last image.  Both composites
    are taken over this window, and the size recorded is the length of the
    window when the folder cut it short and one less than the count
    requested otherwise. *)
Theorem X10_images_window_leaves_out_the_last_image :
  forall (read_nframes : option Z) (self : InputTypeImages.t),
    consistent self ->
    InputTypeImages.cache self
      !! cache_id read_nframes (InputTypeImages.current_frame_chunk self)
    = None ->
    0 <= images_first read_nframes self ->
    0 < images_frames_to_read read_nframes self ->
    let n := images_frames_to_read read_nframes self in
    let read :=
      take (Z.to_nat n)
        (drop (Z.to_nat (images_first read_nframes self))
           (take (length (InputTypeImages.img_list self) - 1)%nat
              (InputTypeImages.img_list self))) in
    exists ff self',
      InputTypeImages.loadChunk read_nframes self = Ok (ff, self')
      /\ maxpixel ff
         = fold_left np_max2 (InputTypeImages.img_gray <$> read)
             (np_zeros 0 (InputTypeImages.nrows self)
                (InputTypeImages.ncols self))
      /\ avepixel ff
         = astype_uint 8
             (fold_left
                (fun (sum : FloatFrame) (frame : Frame) =>
                   np_add sum
                     (np_div (astype_float64 frame) (float_of_Z n)))
                (InputTypeImages.img_gray <$> read)
                (np_zeros 0%float (InputTypeImages.nrows self)
                   (InputTypeImages.ncols self)))
      /\ InputTypeImages.current_fr_chunk_size self'
         = (if (length read <? Z.to_nat n)%nat then Z.of_nat (length read)
            else n - 1).
Proof.
  intros read_nframes self Hc Hmiss Hfirst Hn n read.
  destruct (images_loadChunk_miss read_nframes self Hc Hmiss Hfirst Hn)
    as (self' & E & _ & S & _).
  simpl in Hc.
  assert (images_window read_nframes self = InputTypeImages.img_gray <$> read)
    as Hw.
  { unfold images_window, images_ahead, read. fold n.
    replace (Z.to_nat (InputTypeImages.total_frames self - 1))
      with (length (InputTypeImages.img_list self) - 1)%nat by lia.
    rewrite fmap_take, fmap_drop. reflexivity. }
  rewrite Hw in E.
  eexists _, self'. split; [exact E|]. split; [reflexivity|].
  split; [reflexivity|]. rewrite S. fold n.
  set (ahead := images_ahead self (images_first read_nframes self)).
  assert (length read = Nat.min (Z.to_nat n) (length ahead)) as Hl.
  { rewrite <- (length_fmap InputTypeImages.img_gray read), <- Hw.
    unfold images_window. fold n. rewrite length_take. reflexivity. }
  rewrite Hl.
  destruct (Nat.ltb_spec (length ahead) (Z.to_nat n));
    destruct (Nat.ltb_spec (Nat.min (Z.to_nat n) (length ahead))
                (Z.to_nat n)); lia.
Qed.

Lemma X10_images_window_witness :
  exists ff self',
    InputTypeImages.loadChunk (Some (-1)) sample_images_handle
    = Ok (ff, self')
    /\ maxpixel ff = [[0]]
    /\ InputTypeImages.current_fr_chunk_size self' = 1.
Proof.
  destruct (X10_images_window_leaves_out_the_last_image (Some (-1))
              sample_images_handle)
    as (ff & self' & E & M & _ & S); [run|run|run|run|].
  exists ff, self'. split; [exact E|]. split; [rewrite M; run|].
  rewrite S. run.
Defined.

(** ** Single frames of the video handle *)

Definition frame_of (r : InputTypeVideo.frame_result) : option Frame :=
  match r with
  | InputTypeVideo.FrameOk frame _ => Some frame
  | InputTypeVideo.CvError _ => None
  end.

Definition handle_of (r : InputTypeVideo.frame_result) : InputTypeVideo.t :=
  match r with
  | InputTypeVideo.FrameOk _ self => self
  | InputTypeVideo.CvError self => self
  end.

(** The frame [loadFrame] decodes: the frame of the capture at the index
    [current_frame], if there is one. *)
Lemma video_loadFrame_frame (avepixel : bool) (self : InputTypeVideo.t) :
  frame_of (InputTypeVideo.loadFrame avepixel self)
  = if InputTypeVideo.current_frame self <? 0 then None
    else InputTypeVideo.cap_frames (InputTypeVideo.cap self)
           !! Z.to_nat (InputTypeVideo.current_frame self).
Proof.
  unfold InputTypeVideo.loadFrame, InputTypeVideo.cap_read. simpl.
  destruct (InputTypeVideo.current_frame self <? 0); [reflexivity|].
  destruct (InputTypeVideo.cap_frames (InputTypeVideo.cap self)
              !! Z.to_nat (InputTypeVideo.current_frame self));
    reflexivity.
Qed.

(** The aggregation loop moves the capture and leaves its frames and
    properties as they are. *)
Definition cap_source (c : InputTypeVideo.VideoCapture)
    : list Frame * Z * Z * Z :=
  (InputTypeVideo.cap_frames c, InputTypeVideo.cap_frame_count c,
   InputTypeVideo.cap_height c, InputTypeVideo.cap_width c).

Lemma video_loop_source (n : Z) (idx : list Z) :
  forall (i i' : option Z) (c c' : InputTypeVideo.VideoCapture)
         (acc acc' : Frame * FloatFrame),
    for_in (InputTypeVideo.loop_body n) idx i (c, acc) = Ok (i', (c', acc')) ->
    cap_source c' = cap_source c.
Proof.
  induction idx as [|j idx IH]; intros i i' c c' acc acc' H.
  - injection H as _ <- _. reflexivity.
  - simpl in H. unfold InputTypeVideo.loop_body at 1 in H.
    unfold InputTypeVideo.cap_read in H. simpl in H.
    destruct (InputTypeVideo.cap_pos c <? 0).
    + injection H as _ <- _. reflexivity.
    + destruct (InputTypeVideo.cap_frames c
                  !! Z.to_nat (InputTypeVideo.cap_pos c)).
      * apply IH in H. rewrite H. reflexivity.
      * injection H as _ <- _. reflexivity.
Qed.

Lemma video_loadChunk_source (r : option Z) (self self' : InputTypeVideo.t)
    (ff : FFMimickInterface) :
  InputTypeVideo.loadChunk r self = Ok (ff, self') ->
  cap_source (InputTypeVideo.cap self') = cap_source (InputTypeVideo.cap self)
  /\ InputTypeVideo.nrows self' = InputTypeVideo.nrows self
  /\ InputTypeVideo.ncols self' = InputTypeVideo.ncols self.
Proof.
  intros H. unfold InputTypeVideo.loadChunk in H.
  destruct (InputTypeVideo.cache self !! _).
  - injection H as _ <-. repeat split.
  - inv_bind H. destruct a as [[i|] [c [mx av]]]; [|discriminate H].
    injection H as _ <-. simpl.
    apply video_loop_source in E. rewrite E.
    destruct (is_minus_one r); repeat split.
Qed.

(** X11: [loadFrame] of the video handle decodes the frame at the index
    [current_frame], or ends in [cv2.error] when the capture holds no such
    frame, and changes nothing of the handle but the position of the
    capture.  Chunk loads and frame loads do not disturb each other: a
    [loadChunk] gives the same result after a [loadFrame] as before it when
    it computes, and the same aggregate when it finds its entry; and
    [loadFrame] decodes the same frame after a [loadChunk] as before. *)
Theorem X11_video_frame_and_chunk_loads_are_independent :
  forall (avepixel : bool) (r : option Z) (self : InputTypeVideo.t),
    let self1 := handle_of (InputTypeVideo.loadFrame avepixel self) in
    (forall frame,
       0 <= InputTypeVideo.current_frame self ->
       InputTypeVideo.cap_frames (InputTypeVideo.cap self)
         !! Z.to_nat (InputTypeVideo.current_frame self) = Some frame ->
       InputTypeVideo.loadFrame avepixel self
       = InputTypeVideo.FrameOk frame
           (InputTypeVideo.set_cap self
              (InputTypeVideo.cap_set_pos (InputTypeVideo.cap self)
                 (InputTypeVideo.current_frame self + 1))))
    /\ (Z.of_nat (length (InputTypeVideo.cap_frames (InputTypeVideo.cap self)))
        <= InputTypeVideo.current_frame self ->
        frame_of (InputTypeVideo.loadFrame avepixel self) = None)
    /\ (InputTypeVideo.cache self
          !! cache_id r (InputTypeVideo.current_frame_chunk self) = None ->
        InputTypeVideo.loadChunk r self1 = InputTypeVideo.loadChunk r self)
    /\ (forall ff self',
          InputTypeVideo.loadChunk r self = Ok (ff, self') ->
          exists self1', InputTypeVideo.loadChunk r self1 = Ok (ff, self1'))
    /\ (forall ff self',
          InputTypeVideo.loadChunk r self = Ok (ff, self') ->
          frame_of (InputTypeVideo.loadFrame avepixel self')
          = frame_of (InputTypeVideo.loadFrame avepixel self)).
Proof.
  intros avepixel r self self1.
  assert (InputTypeVideo.cache self
            !! cache_id r (InputTypeVideo.current_frame_chunk self) = None ->
          InputTypeVideo.loadChunk r self1 = InputTypeVideo.loadChunk r self)
    as Hmiss.
  { intros Hmiss. subst self1.
    unfold InputTypeVideo.loadFrame, InputTypeVideo.cap_read. simpl.
    destruct (InputTypeVideo.current_frame self <? 0);
      [|destruct (InputTypeVideo.cap_frames (InputTypeVideo.cap self)
                    !! Z.to_nat (InputTypeVideo.current_frame self))];
      unfold InputTypeVideo.loadChunk; simpl; rewrite Hmiss; reflexivity. }
  split; [|split; [|split; [exact Hmiss|split]]].
  - intros frame Hpos Hf.
    unfold InputTypeVideo.loadFrame, InputTypeVideo.cap_read. simpl.
    destruct (Z.ltb_spec (InputTypeVideo.current_frame self) 0); [lia|].
    rewrite Hf. reflexivity.
  - intros Hlen. rewrite video_loadFrame_frame.
    destruct (InputTypeVideo.current_frame self <? 0); [reflexivity|].
    apply lookup_ge_None. lia.
  - intros ff self' H.
    destruct (InputTypeVideo.cache self
                !! cache_id r (InputTypeVideo.current_frame_chunk self))
      as [x|] eqn:Hc.
    + assert (x = ff) as ->.
      { unfold InputTypeVideo.loadChunk in H. rewrite Hc in H.
        congruence. }
      exists self1. subst self1.
      unfold InputTypeVideo.loadFrame, InputTypeVideo.cap_read. simpl.
      destruct (InputTypeVideo.current_frame self <? 0);
        [|destruct (InputTypeVideo.cap_frames (InputTypeVideo.cap self)
                      !! Z.to_nat (InputTypeVideo.current_frame self))];
        unfold InputTypeVideo.loadChunk; simpl; rewrite Hc; reflexivity.
    + exists self'. rewrite Hmiss by reflexivity. exact H.
  - intros ff self' H. rewrite !video_loadFrame_frame.
    destruct (video_loadChunk_source _ _ _ _ H) as (Hs & _).
    injection Hs as -> _ _ _.
    destruct (video_loadChunk_cache _ _ _ _ H)
      as [[_ ->]|(_ & _ & _ & ->)]; reflexivity.
Qed.

Lemma X11_video_loads_witness :
  frame_of
    (InputTypeVideo.loadFrame false
       (InputTypeVideo.set_current_frame
          (InputTypeVideo.init (sample_video 600 600)) 5))
  = Some [[5]]
  /\ frame_of
       (InputTypeVideo.loadFrame false
          (InputTypeVideo.set_current_frame
             (InputTypeVideo.init (sample_video 2 3)) 2))
     = None
  /\ InputTypeVideo.loadChunk (Some 3)
       (handle_of
          (InputTypeVideo.loadFrame false
             (InputTypeVideo.set_current_frame
                (InputTypeVideo.init (sample_video 600 600)) 5)))
     = InputTypeVideo.loadChunk (Some 3)
         (InputTypeVideo.set_current_frame
            (InputTypeVideo.init (sample_video 600 600)) 5).
Proof.
  split; [|split].
  - destruct (X11_video_frame_and_chunk_loads_are_independent false None
                (InputTypeVideo.set_current_frame
                   (InputTypeVideo.init (sample_video 600 600)) 5))
      as (H & _).
    rewrite (H [[5]]); run.
  - apply (X11_video_frame_and_chunk_loads_are_independent false None
             (InputTypeVideo.set_current_frame
                (InputTypeVideo.init (sample_video 2 3)) 2)).
    run.
  - apply (X11_video_frame_and_chunk_loads_are_independent false (Some 3)
             (InputTypeVideo.set_current_frame
                (InputTypeVideo.init (sample_video 600 600)) 5)).
    run.
Defined.

(** ** Single frames of the binary-stream handle and their time *)

(** A file whose record headers all carry the record length of the
    file. *)
Definition coherent (f : InputTypeUWOVid.VidFile) : bool :=
  (0 <? InputTypeUWOVid.vid_seqlen f)
  && forallb (fun r => InputTypeUWOVid.seqlen r.1
                       =? InputTypeUWOVid.vid_seqlen f)
       (InputTypeUWOVid.vid_records f).

(** The handle reads the file [f]: it holds the records of [f], counts
    them all as its frames and steps through them by their length. *)
Definition uwovid_reads (f : InputTypeUWOVid.VidFile)
    (self : InputTypeUWOVid.t) : Prop :=
  InputTypeUWOVid.vid_records (InputTypeUWOVid.vid_file self)
  = InputTypeUWOVid.vid_records f
  /\ InputTypeUWOVid.vid_seqlen (InputTypeUWOVid.vid_file self)
     = InputTypeUWOVid.vid_seqlen f
  /\ InputTypeUWOVid.seqlen (InputTypeUWOVid.vidinfo self)
     = InputTypeUWOVid.vid_seqlen f
  /\ 0 < InputTypeUWOVid.vid_seqlen f
  /\ InputTypeUWOVid.total_frames self
     = Z.of_nat (length (InputTypeUWOVid.vid_records f))
  /\ uwovid_inv self.

(** The aggregation loop moves the file pointer and leaves the records
    as they are. *)
Lemma uwovid_loop_source (n : Z) (idx : list Z) :
  forall (i i' : option Z) (s s' : InputTypeUWOVid.loop_state),
    for_in (InputTypeUWOVid.loop_body n) idx i s = Ok (i', s') ->
    InputTypeUWOVid.vid_records s'.1.1.2 = InputTypeUWOVid.vid_records s.1.1.2
    /\ InputTypeUWOVid.vid_seqlen s'.1.1.2 = InputTypeUWOVid.vid_seqlen s.1.1.2.
Proof.
  induction idx as [|j idx IH]; intros i i' s s' H.
  - injection H as _ <-. split; reflexivity.
  - simpl in H. destruct s as [[[v f] times] acc].
    unfold InputTypeUWOVid.loop_body at 1 in H.
    unfold InputTypeUWOVid.readVidFrame in H.
    destruct ((InputTypeUWOVid.vid_tell f <? 0)
              || (InputTypeUWOVid.vid_seqlen f <=? 0)); [discriminate H|].
    destruct (InputTypeUWOVid.vid_records f !! _) as [[header frame]|];
      [|discriminate H].
    simpl in H. apply IH in H. exact H.
Qed.

Lemma uwovid_call_source (c : call) (self self' : InputTypeUWOVid.t) :
  do_call c self = Ok self' ->
  InputTypeUWOVid.vid_records (InputTypeUWOVid.vid_file self')
  = InputTypeUWOVid.vid_records (InputTypeUWOVid.vid_file self)
  /\ InputTypeUWOVid.vid_seqlen (InputTypeUWOVid.vid_file self')
     = InputTypeUWOVid.vid_seqlen (InputTypeUWOVid.vid_file self)
  /\ InputTypeUWOVid.vidinfo self' = InputTypeUWOVid.vidinfo self.
Proof.
  destruct c; simpl; intros H.
  - unfold InputTypeUWOVid.nextChunk in H. inv_bind H. inv_ok H.
    repeat split.
  - unfold InputTypeUWOVid.prevChunk in H. inv_bind H. inv_ok H.
    repeat split.
  - inv_bind H. inv_ok H. unfold InputTypeUWOVid.loadChunk in E.
    destruct (InputTypeUWOVid.cache self !! _) as [[ff times]|].
    + destruct (is_minus_one read_nframes); injection E as <-; repeat split.
    + inv_bind E. destruct a0 as [[i|] [[[v f] times] [mx av]]];
        [|discriminate E].
      injection E as <-. simpl.
      apply uwovid_loop_source in E0. simpl in E0.
      destruct E0 as [-> ->].
      destruct (is_minus_one read_nframes); repeat split.
  - unfold InputTypeUWOVid.nextFrame in H. inv_bind H. inv_ok H.
    repeat split.
  - unfold InputTypeUWOVid.prevFrame in H. inv_bind H. inv_ok H.
    repeat split.
Qed.

Lemma uwovid_call_reads (f : InputTypeUWOVid.VidFile) (c : call)
    (self self' : InputTypeUWOVid.t) :
  uwovid_reads f self -> do_call c self = Ok self' -> uwovid_reads f self'.
Proof.
  intros (Hr & Hs & Hv & Hpos & Ht & Hinv) H.
  destruct (uwovid_call_source c self self' H) as (Hr' & Hs' & Hi').
  pose proof (uwovid_call_static c self self' H) as Hst.
  injection Hst as Ht' _ _.
  unfold uwovid_reads. rewrite Hr', Hs', Hi', Ht'.
  split; [exact Hr|]. split; [exact Hs|]. split; [exact Hv|].
  split; [exact Hpos|]. split; [exact Ht|].
  apply (uwovid_call_inv c self self' Hinv H).
Qed.

(** The constructor opens a coherent file on a handle that reads it. *)
Lemma uwovid_init_reads (f : InputTypeUWOVid.VidFile)
    (self0 : InputTypeUWOVid.t) :
  coherent f = true -> InputTypeUWOVid.init f = Ok self0 ->
  uwovid_reads f self0.
Proof.
  unfold coherent. intros Hco Hinit.
  apply andb_true_iff in Hco as [Hpos Hall].
  apply Z.ltb_lt in Hpos. rewrite forallb_forall in Hall.
  pose proof (uwovid_init_inv f self0 Hinit) as Hinv.
  unfold InputTypeUWOVid.init in Hinit.
  destruct (InputTypeUWOVid.readVidFrame _ f) as [[frame v] f'] eqn:R.
  unfold InputTypeUWOVid.readVidFrame in R.
  assert (InputTypeUWOVid.vid_records f' = InputTypeUWOVid.vid_records f
          /\ InputTypeUWOVid.vid_seqlen f' = InputTypeUWOVid.vid_seqlen f
          /\ (InputTypeUWOVid.seqlen v = 0
              \/ InputTypeUWOVid.seqlen v = InputTypeUWOVid.vid_seqlen f
                 /\ InputTypeUWOVid.vid_records f <> []))
    as (Hr & Hs & Hv).
  { destruct ((InputTypeUWOVid.vid_tell f <? 0)
              || (InputTypeUWOVid.vid_seqlen f <=? 0)).
    - injection R as _ <- <-. repeat split. left. reflexivity.
    - destruct (InputTypeUWOVid.vid_records f !! _) as [[header x]|] eqn:Hk.
      + injection R as _ <- <-. repeat split. right. split.
        * apply Z.eqb_eq. apply (Hall (header, x)).
          apply list_elem_of_In. apply (list_elem_of_lookup_2 _ _ _ Hk).
        * intros Hnil. rewrite Hnil in Hk. discriminate Hk.
      + injection R as _ <- <-. repeat split. left. reflexivity. }
  inv_bind Hinit.
  destruct Hv as [Hzero|[Hv Hne]].
  { rewrite Hzero in E. unfold py_floordiv in E. simpl in E.
    discriminate E. }
  assert (a = Z.of_nat (length (InputTypeUWOVid.vid_records f))) as ->.
  { unfold py_floordiv in E. rewrite Hv in E.
    destruct (Z.eqb_spec (InputTypeUWOVid.vid_seqlen f) 0); [lia|].
    injection E as <-. unfold InputTypeUWOVid.getsize. simpl.
    rewrite Hr, Hs. apply Z.div_mul. lia. }
  inv_bind Hinit. destruct a as [r self]. inv_bind Hinit. inv_ok Hinit.
  match type of E0 with
  | InputTypeUWOVid.loadChunk None ?s0 = _ =>
      pose proof (uwovid_call_source (LoadChunk None) s0 self) as Hsrc;
      pose proof (uwovid_call_static (LoadChunk None) s0 self) as Hst
  end.
  simpl in Hsrc, Hst. rewrite E0 in Hsrc, Hst.
  specialize (Hsrc eq_refl). specialize (Hst eq_refl).
  destruct Hsrc as (Hr' & Hs' & Hi'). injection Hst as Ht' _ _.
  assert (0 < Z.of_nat (length (InputTypeUWOVid.vid_records f))) as Hlen.
  { destruct (InputTypeUWOVid.vid_records f); [congruence|simpl; lia]. }
  unfold uwovid_reads. simpl in *.
  rewrite Hr', Hs', Hi', Ht'.
  repeat split; try assumption.
  all: apply Hinv; rewrite Ht'; exact Hlen.
Qed.

Section UWOVidFrameTime.

Variable datetime : Type.
Variable unixTime2Date : Z -> Z -> datetime.
Variables year month day hour minute second microsecond : datetime -> Z.

Let framed := InputTypeUWOVid.framed datetime.
Let loadFrame := InputTypeUWOVid.loadFrame datetime unixTime2Date.
Let currentFrameTime :=
  InputTypeUWOVid.currentFrameTime datetime year month day hour minute second
    microsecond.
Let handle := InputTypeUWOVid.handle datetime.
Let frame_time := InputTypeUWOVid.current_frame_time datetime.

(** [loadFrame] on a handle that reads [f]: the record at the index
    [current_frame] is read, its frame returned and its time kept. *)
Lemma uwovid_loadFrame_reads (f : InputTypeUWOVid.VidFile) (avepixel : bool)
    (self : framed) :
  uwovid_reads f (handle self) ->
  exists header frame,
    InputTypeUWOVid.vid_records f
      !! Z.to_nat (InputTypeUWOVid.current_frame (handle self))
    = Some (header, frame)
    /\ loadFrame avepixel self
       = (Some frame,
          InputTypeUWOVid.mkFramed datetime
            (InputTypeUWOVid.set_vid (handle self) header
               (InputTypeUWOVid.seek (InputTypeUWOVid.vid_file (handle self))
                  (InputTypeUWOVid.current_frame (handle self)
                   * InputTypeUWOVid.vid_seqlen f
                   + InputTypeUWOVid.vid_seqlen f)))
            (Some (unixTime2Date (InputTypeUWOVid.ts header)
                     (InputTypeUWOVid.tu header)))).
Proof.
  intros (Hr & Hs & Hv & Hpos & Ht & Hinv).
  destruct Hinv as (_ & _ & _ & _ & Hframe). rewrite Ht in Hframe.
  destruct (lookup_lt_is_Some_2 (InputTypeUWOVid.vid_records f)
              (Z.to_nat (InputTypeUWOVid.current_frame (handle self))))
    as [[header frame] Hk]; [lia|].
  exists header, frame. split; [exact Hk|].
  unfold loadFrame, InputTypeUWOVid.loadFrame,
    InputTypeUWOVid.readVidFrame. simpl.
  fold (handle self). rewrite Hv, Hs, Hr.
  destruct (Z.ltb_spec (InputTypeUWOVid.current_frame (handle self)
                        * InputTypeUWOVid.vid_seqlen f) 0) as [?|_]; [nia|].
  destruct (Z.leb_spec (InputTypeUWOVid.vid_seqlen f) 0) as [?|_]; [lia|].
  simpl. rewrite Z.div_mul by lia. rewrite Hk. reflexivity.
Qed.

Lemma uwovid_frame_call_reads (f : InputTypeUWOVid.VidFile) (c : frame_call)
    (self self' : framed) :
  uwovid_reads f (handle self) ->
  do_frame_call datetime unixTime2Date c self = Ok self' ->
  uwovid_reads f (handle self').
Proof.
  intros Hreads H. destruct c as [c|avepixel]; simpl in H.
  - unfold keep_time in H. inv_bind H. inv_ok H. simpl.
    apply (uwovid_call_reads f c _ _ Hreads E).
  - destruct (uwovid_loadFrame_reads f avepixel self Hreads)
      as (header & frame & _ & E).
    unfold loadFrame in E. rewrite E in H. inv_ok H.
    destruct Hreads as (Hr & Hs & Hv & Hpos & Ht & Hinv).
    split; [exact Hr|]. split; [exact Hs|]. split; [exact Hv|].
    split; [exact Hpos|]. split; [exact Ht|exact Hinv].
Qed.

Lemma uwovid_frame_calls_reads (f : InputTypeUWOVid.VidFile)
    (cs : list frame_call) :
  forall self self' : framed,
    uwovid_reads f (handle self) ->
    do_frame_calls datetime unixTime2Date cs self = Ok self' ->
    uwovid_reads f (handle self').
Proof.
  induction cs as [|c cs IH]; simpl; intros self self' Hreads H.
  - inv_ok H. exact Hreads.
  - inv_bind H. eapply IH; [|exact H].
    eapply uwovid_frame_call_reads; [exact Hreads|exact E].
Qed.

(** Calls other than [loadFrame] leave the frame time as it is. *)
Lemma uwovid_steps_keep_time (cs : list call) :
  forall self self' : framed,
    do_frame_calls datetime unixTime2Date (Step <$> cs) self = Ok self' ->
    frame_time self' = frame_time self.
Proof.
  induction cs as [|c cs IH]; simpl; intros self self' H.
  - inv_ok H. reflexivity.
  - inv_bind H. rewrite (IH _ _ H).
    unfold keep_time in E. inv_bind E. inv_ok E. reflexivity.
Qed.

(** X12: on the binary-stream handle constructed over a file whose record
    headers carry the record length, [currentFrameTime] raises
    [AttributeError] as long as no frame has been loaded, whatever
    navigation and chunk loads were made.  After any sequence of calls,
    [loadFrame] returns the frame of the record at the index
    [current_frame] and leaves the indices and the cache as they are; from
    then on, through every sequence of [nextChunk], [prevChunk],
    [loadChunk], [nextFrame] and [prevFrame], [currentFrameTime] gives the
    time in the header of that record, whatever the frame index has
    become. *)
Theorem X12_uwovid_frame_time_is_that_of_the_loaded_frame :
  forall (f : InputTypeUWOVid.VidFile) (self0 : framed),
    coherent f = true ->
    construct datetime f = Ok self0 ->
    (forall (cs : list call) (self : framed) (dt_obj : bool),
       do_frame_calls datetime unixTime2Date (Step <$> cs) self0 = Ok self ->
       currentFrameTime dt_obj self = Raise AttributeError)
    /\ (forall (cs : list frame_call) (self : framed) (avepixel : bool),
          do_frame_calls datetime unixTime2Date cs self0 = Ok self ->
          exists header frame,
            0 <= InputTypeUWOVid.current_frame (handle self)
            /\ InputTypeUWOVid.vid_records f
                 !! Z.to_nat (InputTypeUWOVid.current_frame (handle self))
               = Some (header, frame)
            /\ (loadFrame avepixel self).1 = Some frame
            /\ InputTypeUWOVid.current_frame
                 (handle (loadFrame avepixel self).2)
               = InputTypeUWOVid.current_frame (handle self)
            /\ InputTypeUWOVid.current_frame_chunk
                 (handle (loadFrame avepixel self).2)
               = InputTypeUWOVid.current_frame_chunk (handle self)
            /\ InputTypeUWOVid.cache (handle (loadFrame avepixel self).2)
               = InputTypeUWOVid.cache (handle self)
            /\ forall (cs' : list call) (self' : framed),
                 do_frame_calls datetime unixTime2Date (Step <$> cs')
                   (loadFrame avepixel self).2 = Ok self' ->
                 currentFrameTime true self'
                 = Ok (InputTypeUWOVid.DateTime datetime
                         (unixTime2Date (InputTypeUWOVid.ts header)
                            (InputTypeUWOVid.tu header)))).
Proof.
  intros f self0 Hco H0. unfold construct in H0. inv_bind H0. inv_ok H0.
  pose proof (uwovid_init_reads f a Hco E) as Hreads0.
  split.
  - intros cs self dt_obj H.
    apply uwovid_steps_keep_time in H.
    unfold currentFrameTime, InputTypeUWOVid.currentFrameTime.
    unfold frame_time in H. rewrite H. reflexivity.
  - intros cs self avepixel H.
    pose proof (uwovid_frame_calls_reads f cs
                  (InputTypeUWOVid.mkFramed datetime a None) self Hreads0 H)
      as Hreads.
    destruct (uwovid_loadFrame_reads f avepixel self Hreads)
      as (header & frame & Hk & ->).
    exists header, frame.
    destruct Hreads as (_ & _ & _ & _ & _ & (_ & _ & _ & _ & Hframe)).
    split; [apply Hframe|]. split; [exact Hk|].
    split; [reflexivity|]. split; [reflexivity|].
    split; [reflexivity|]. split; [reflexivity|].
    intros cs' self' H'. apply uwovid_steps_keep_time in H'.
    unfold currentFrameTime, InputTypeUWOVid.currentFrameTime.
    unfold frame_time in H'. rewrite H'. reflexivity.
Qed.

End UWOVidFrameTime.

Lemma X12_uwovid_frame_time_witness :
  exists self0 self self',
    construct (Z * Z) (sample_vid 3) = Ok self0
    /\ do_frame_calls (Z * Z) pair [Step NextFrame; Step NextFrame] self0
       = Ok self
    /\ (InputTypeUWOVid.loadFrame (Z * Z) pair false self).1 = Some [[2]]
    /\ do_frame_calls (Z * Z) pair [Step NextFrame; Step (LoadChunk None)]
         (InputTypeUWOVid.loadFrame (Z * Z) pair false self).2
       = Ok self'
    /\ InputTypeUWOVid.current_frame (InputTypeUWOVid.handle _ self') = 0
    /\ InputTypeUWOVid.currentFrameTime (Z * Z) fst fst fst fst fst fst snd
         true self'
       = Ok (InputTypeUWOVid.DateTime (Z * Z) (1002, 0)).
Proof.
  let r := eval vm_compute in (construct (Z * Z) (sample_vid 3)) in
  match r with
  | Ok ?s0 =>
      let r1 := eval vm_compute in
          (do_frame_calls (Z * Z) pair [Step NextFrame; Step NextFrame] s0) in
      match r1 with
      | Ok ?s =>
          let r2 := eval vm_compute in
              (do_frame_calls (Z * Z) pair
                 [Step NextFrame; Step (LoadChunk None)]
                 (InputTypeUWOVid.loadFrame (Z * Z) pair false s).2) in
          match r2 with
          | Ok ?s' =>
              exists s0, s, s';
              destruct (X12_uwovid_frame_time_is_that_of_the_loaded_frame
                          (Z * Z) pair fst fst fst fst fst fst snd
                          (sample_vid 3) s0) as [_ Hload]; [run|run|];
              destruct (Hload [Step NextFrame; Step NextFrame] s false)
                as (header & frame & _ & Hk & Hframe & _ & _ & _ & Htime);
                [run|];
              vm_compute in Hk; injection Hk as <- <-;
              split; [run|]; split; [run|]; split; [exact Hframe|];
              split; [run|]; split; [run|];
              apply (Htime [NextFrame; LoadChunk None]); run
          end
      end
  end.
Defined.

(** ** The file name without its extension *)

(** [ch in s] *)
Fixpoint has_char (ch : Ascii.ascii) (s : string) : bool :=
  match s with
  | EmptyString => false
  | String c rest => Ascii.eqb c ch || has_char ch rest
  end.

Lemma py_split_nonempty (sep : Ascii.ascii) (s : string) :
  py_split sep s <> [].
Proof.
  destruct s as [|c rest]; simpl; [discriminate|].
  destruct (Ascii.eqb c sep); [discriminate|].
  destruct (py_split sep rest); discriminate.
Qed.

Lemma py_split_no_sep (sep : Ascii.ascii) (s : string) :
  has_char sep s = false -> py_split sep s = [s].
Proof.
  induction s as [|c rest IH]; simpl; [reflexivity|].
  destruct (Ascii.eqb c sep); [discriminate|]. simpl.
  intros H. rewrite (IH H). reflexivity.
Qed.

Lemma py_split_append (sep : Ascii.ascii) (base ext : string) :
  has_char sep ext = false ->
  py_split sep (String.append base (String sep ext))
  = py_split sep base ++ [ext].
Proof.
  intros Hext. induction base as [|c rest IH]; simpl.
  - rewrite Ascii.eqb_refl, (py_split_no_sep _ _ Hext). reflexivity.
  - destruct (Ascii.eqb c sep); [rewrite IH; reflexivity|].
    rewrite IH.
    destruct (py_split sep rest) as [|word words] eqn:E;
      [destruct (py_split_nonempty _ _ E)|reflexivity].
Qed.

Lemma py_join_split (sep : Ascii.ascii) (s : string) :
  py_join (String sep EmptyString) (py_split sep s) = s.
Proof.
  induction s as [|c rest IH]; simpl; [reflexivity|].
  destruct (Ascii.eqb_spec c sep) as [->|Hne].
  - destruct (py_split sep rest) as [|word words] eqn:E;
      [destruct (py_split_nonempty _ _ E)|].
    simpl in *. rewrite IH. reflexivity.
  - destruct (py_split sep rest) as [|word words] eqn:E;
      [destruct (py_split_nonempty _ _ E)|].
    destruct words as [|word' words]; simpl in *; rewrite <- IH; reflexivity.
Qed.

Lemma py_but_last_snoc {A : Type} (l : list A) (x : A) :
  py_but_last (l ++ [x]) = l.
Proof.
  unfold py_but_last. rewrite length_app. simpl.
  replace (length l + 1 - 1)%nat with (length l) by lia.
  apply take_app_length.
Qed.

(** X13: the name the video constructor parses the beginning time from is
    the file name up to its last dot: [base] for a file name [base.ext]
    whose extension holds no dot, also when [base] itself holds dots, and
    the empty string for a file name without any dot.  Splitting a name at
    its dots and joining the parts with dots gives the name back. *)
Theorem X13_file_name_without_extension :
  (forall base ext : string,
     has_char "." ext = false ->
     file_name_noext (String.append base (String "." ext)) = base)
  /\ (forall file_name : string,
        has_char "." file_name = false ->
        file_name_noext file_name = EmptyString)
  /\ (forall s : string, py_join "." (py_split "." s) = s).
Proof.
  split; [|split].
  - intros base ext Hext. unfold file_name_noext.
    rewrite (py_split_append _ _ _ Hext), py_but_last_snoc.
    apply py_join_split.
  - intros file_name Hno. unfold file_name_noext.
    rewrite (py_split_no_sep _ _ Hno). reflexivity.
  - intros s. apply py_join_split.
Qed.

Lemma X13_file_name_witness :
  file_name_noext "20230615_231045.500000.mp4" = "20230615_231045.500000"
  /\ file_name_noext "video" = "".
Proof.
  destruct X13_file_name_without_extension as (H1 & H2 & _).
  split.
  - apply (H1 "20230615_231045.500000" "mp4"). reflexivity.
  - apply (H2 "video"). reflexivity.
Defined.

(** ** The archive handle and its files *)

(** Every entry of the cache is the content of the file it is stored
    under. *)
Definition ff_cache_of_files (files : gmap string FFMimickInterface)
    (self : InputTypeFF.t) : Prop :=
  InputTypeFF.ff_files self = files
  /\ forall name ff,
       InputTypeFF.cache self !! name = Some ff -> files !! name = Some ff.

Lemma ff_call_cache_of_files (files : gmap string FFMimickInterface)
    (c : call) (self self' : InputTypeFF.t) :
  ff_cache_of_files files self -> do_call c self = Ok self' ->
  ff_cache_of_files files self'.
Proof.
  intros [Hf Hc] H. destruct c; simpl in H.
  - unfold InputTypeFF.nextChunk in H. inv_bind H. inv_bind H. inv_ok H.
    split; assumption.
  - unfold InputTypeFF.prevChunk in H. inv_bind H. inv_bind H. inv_ok H.
    split; assumption.
  - inv_bind H. inv_ok H. destruct a as [x s]. simpl.
    unfold InputTypeFF.loadChunk in E.
    destruct (InputTypeFF.cache self !! InputTypeFF.current_ff_file self).
    + injection E as _ <-. split; assumption.
    + unfold InputTypeFF.readFF in E. rewrite Hf in E.
      destruct (files !! InputTypeFF.current_ff_file self) as [y|] eqn:Hy;
        [|discriminate E].
      simpl in E. injection E as _ <-. split; [reflexivity|]. simpl.
      intros name ff Hl. apply lookup_singleton_Some in Hl as [<- <-].
      exact Hy.
  - unfold InputTypeFF.nextFrame in H. inv_bind H. inv_bind H. inv_ok H.
    split; assumption.
  - unfold InputTypeFF.prevFrame in H. inv_bind H. inv_bind H. inv_ok H.
    split; assumption.
Qed.

Lemma ff_init_cache_of_files (files : gmap string FFMimickInterface)
    (names : list string) (self0 : InputTypeFF.t) :
  InputTypeFF.init files names = Ok self0 -> ff_cache_of_files files self0.
Proof.
  intros Hinit. unfold InputTypeFF.init in Hinit.
  destruct names as [|first rest]; [discriminate Hinit|].
  inv_bind Hinit. destruct a as [x s]. inv_ok Hinit.
  match type of E with
  | InputTypeFF.loadChunk None ?s0 = _ =>
      apply (ff_call_cache_of_files files (LoadChunk None) s0)
  end.
  - split; [reflexivity|]. simpl. intros name ff Hl.
    rewrite lookup_empty in Hl. discriminate Hl.
  - simpl. rewrite E. reflexivity.
Qed.

(** X14: on an archive handle, constructed over any folder and driven by
    any sequence of calls, a [loadChunk] that returns hands back the
    content of the file the handle names, be it read or taken from the
    cache, and afterwards that file is the one in the cache. *)
Theorem X14_ff_load_returns_the_named_file :
  forall files names self0 cs self read_nframes ff self',
    InputTypeFF.init files names = Ok self0 ->
    do_calls cs self0 = Ok self ->
    InputTypeFF.loadChunk read_nframes self = Ok (ff, self') ->
    files !! InputTypeFF.name self = Some ff
    /\ InputTypeFF.cache self' !! InputTypeFF.name self' = Some ff
    /\ InputTypeFF.name self' = InputTypeFF.name self.
Proof.
  intros files names self0 cs self r ff self' Hinit Hrun H.
  assert (ff_cache_of_files files self) as [Hf Hc].
  { apply (do_calls_preserve (ff_cache_of_files files)
             (ff_call_cache_of_files files) cs self0); [|exact Hrun].
    apply (ff_init_cache_of_files files names). exact Hinit. }
  unfold InputTypeFF.name.
  destruct (ff_loadChunk_cache _ _ _ _ H)
    as [[Hhit ->]|(Hmiss & Hc' & Hname & _)].
  - split; [exact (Hc _ _ Hhit)|]. split; [exact Hhit|reflexivity].
  - split.
    + unfold InputTypeFF.loadChunk in H. rewrite Hmiss in H.
      unfold InputTypeFF.readFF in H. rewrite Hf in H.
      destruct (files !! InputTypeFF.current_ff_file self) as [y|];
        [|discriminate H].
      simpl in H. congruence.
    + rewrite Hname, Hc'. split; [apply lookup_singleton_eq|reflexivity].
Qed.

Lemma X14_ff_load_witness :
  exists ff self',
    InputTypeFF.loadChunk None sample_ff_handle = Ok (ff, self')
    /\ sample_ff_files 3 !! "FF_1" = Some ff.
Proof.
  eexists _, _. split; [run|].
  eapply (X14_ff_load_returns_the_named_file (sample_ff_files 3)
            (sample_ff_names 3)
            (InputTypeFF.mk (sample_ff_files 3) (sample_ff_names 3) 0 "FF_0"
               0 {[ "FF_0" := mkFF (pixel_frame 9) (pixel_frame 4) 1 1 256 ]}
               (Some (mkFF (pixel_frame 9) (pixel_frame 4) 1 1 256)))
            [NextChunk; NextFrame; NextFrame] sample_ff_handle None); run.
Defined.

(** The invariant of an archive handle on the single file [name] of
    content [ff]. *)
Definition single_ff (name : string) (ff : FFMimickInterface)
    (self : InputTypeFF.t) : Prop :=
  InputTypeFF.ff_list self = [name]
  /\ InputTypeFF.current_ff_index self = 0
  /\ InputTypeFF.current_ff_file self = name
  /\ InputTypeFF.cache self !! name = Some ff.

Lemma single_ff_call (name : string) (ff : FFMimickInterface) (c : call)
    (self self' : InputTypeFF.t) :
  single_ff name ff self -> do_call c self = Ok self' ->
  single_ff name ff self'.
Proof.
  intros (Hl & Hi & Hf & Hc) H. destruct c; simpl in H.
  - unfold InputTypeFF.nextChunk in H. rewrite Hl, Hi in H. simpl in H.
    injection H as <-. repeat split; assumption.
  - unfold InputTypeFF.prevChunk in H. rewrite Hl, Hi in H. simpl in H.
    injection H as <-. repeat split; assumption.
  - inv_bind H. inv_ok H. destruct a as [x s]. simpl.
    unfold InputTypeFF.loadChunk in E. rewrite Hf, Hc in E.
    injection E as _ <-. repeat split; assumption.
  - unfold InputTypeFF.nextFrame in H. inv_bind H. inv_bind H. inv_ok H.
    repeat split; assumption.
  - unfold InputTypeFF.prevFrame in H. inv_bind H. inv_bind H. inv_ok H.
    repeat split; assumption.
Qed.

(** X15: an archive handle on a single file never leaves that file:
    [nextChunk] and [prevChunk] stay at index 0, and after construction
    every [loadChunk] finds the file in the cache and returns it without
    touching the handle, so that no later call resets the frame index. *)
Theorem X15_single_ff_never_reloads :
  forall files name self0 cs self,
    InputTypeFF.init files [name] = Ok self0 ->
    do_calls cs self0 = Ok self ->
    exists ff,
      files !! name = Some ff
      /\ InputTypeFF.current_ff_index self = 0
      /\ InputTypeFF.name self = name
      /\ forall read_nframes,
           InputTypeFF.loadChunk read_nframes self = Ok (ff, self).
Proof.
  intros files name self0 cs self Hinit Hrun.
  assert (exists ff, files !! name = Some ff /\ single_ff name ff self0)
    as (ff & Hff & H0).
  { unfold InputTypeFF.init in Hinit.
    inv_bind Hinit. destruct a as [x s]. inv_ok Hinit.
    unfold InputTypeFF.loadChunk in E. simpl in E.
    rewrite lookup_empty in E. unfold InputTypeFF.readFF in E. simpl in E.
    destruct (files !! name) as [y|]; [|discriminate E].
    simpl in E. injection E as _ <-. exists y. split; [reflexivity|].
    repeat split. simpl. apply lookup_insert_eq. }
  assert (single_ff name ff self) as (Hl & Hi & Hf & Hc).
  { apply (do_calls_preserve (single_ff name ff) (single_ff_call name ff)
             cs self0); assumption. }
  exists ff. split; [exact Hff|]. split; [exact Hi|]. split; [exact Hf|].
  intros r. unfold InputTypeFF.loadChunk. rewrite Hf, Hc. reflexivity.
Qed.

Lemma X15_single_ff_witness :
  exists self0 self ff,
    InputTypeFF.init (sample_ff_files 1) ["FF_0"] = Ok self0
    /\ do_calls [NextFrame; NextChunk; LoadChunk None; PrevChunk] self0
       = Ok self
    /\ InputTypeFF.current_frame self = 1
    /\ InputTypeFF.loadChunk None self = Ok (ff, self).
Proof.
  let r := eval vm_compute in
      (InputTypeFF.init (sample_ff_files 1) ["FF_0"]) in
  match r with
  | Ok ?s0 =>
      let r' := eval vm_compute in
          (do_calls [NextFrame; NextChunk; LoadChunk None; PrevChunk] s0) in
      match r' with
      | Ok ?s =>
          exists s0, s;
          destruct (X15_single_ff_never_reloads (sample_ff_files 1) "FF_0"
                      s0 [NextFrame; NextChunk; LoadChunk None; PrevChunk] s)
            as (ff & _ & _ & _ & Hload); [run|run|];
          exists ff; split; [run|]; split; [run|]; split; [run|apply Hload]
      end
  end.
Defined.

(** ** The image that the image handle shows *)

(** X16: the image handle shows the image of its current frame after
    construction and after every frame step.  A chunk step moves the
    frame index, and neither it nor a chunk load changes the image, so
    that [loadFrame()] then still gives the image of the frame the handle
    stood at before, which [loadFrame(fr_no=...)] gives for that earlier
    index. *)
Theorem X16_images_chunk_step_keeps_the_old_image :
  (forall imgs self0,
     InputTypeImages.init imgs = Ok self0 -> images_shows_current self0)
  /\ (forall self self',
        InputTypeImages.nextFrame self = Ok self'
        \/ InputTypeImages.prevFrame self = Ok self' ->
        images_shows_current self')
  /\ (forall self self',
        images_shows_current self ->
        InputTypeImages.nextChunk self = Ok self'
        \/ InputTypeImages.prevChunk self = Ok self'
        \/ (exists r ff, InputTypeImages.loadChunk r self = Ok (ff, self')) ->
        InputTypeImages.loadFrame (InputTypeImages.img_list self')
          (InputTypeImages.current_img_file self') None
        = InputTypeImages.loadFrame (InputTypeImages.img_list self')
            (InputTypeImages.current_img_file self')
            (Some (InputTypeImages.current_frame self))).
Proof.
  split; [|split].
  - intros imgs self0 Hinit. unfold InputTypeImages.init in Hinit.
    destruct imgs as [|first rest]; [discriminate Hinit|].
    simpl in Hinit. inv_bind Hinit. destruct a as [ff s]. inv_ok Hinit.
    destruct (images_loadChunk_cache _ _ _ _ E) as [[Hhit _]|Hmiss].
    + simpl in Hhit. rewrite lookup_empty in Hhit. discriminate Hhit.
    + unfold InputTypeImages.loadChunk in E. simpl in E.
      rewrite lookup_empty in E. inv_bind E.
      destruct a as [[i|] [mx av]]; [|discriminate E].
      injection E as _ <-. reflexivity.
  - intros self self' [H|H];
      [unfold InputTypeImages.nextFrame in H
      |unfold InputTypeImages.prevFrame in H];
      inv_bind H; inv_bind H; inv_ok H; exact E0.
  - intros self self' Hshow H. unfold images_shows_current in Hshow.
    assert (InputTypeImages.img_list self' = InputTypeImages.img_list self
            /\ InputTypeImages.current_img_file self'
               = InputTypeImages.current_img_file self) as [-> ->].
    { destruct H as [H|[H|(r & ff & H)]].
      - unfold InputTypeImages.nextChunk in H. inv_bind H. inv_ok H.
        split; reflexivity.
      - unfold InputTypeImages.prevChunk in H. inv_bind H. inv_ok H.
        split; reflexivity.
      - unfold InputTypeImages.loadChunk in H.
        destruct (InputTypeImages.cache self !! _).
        + injection H as _ <-. split; reflexivity.
        + inv_bind H. destruct a as [[i|] [mx av]]; [|discriminate H].
          injection H as _ <-. split; reflexivity. }
    unfold InputTypeImages.loadFrame. rewrite Hshow. reflexivity.
Qed.

Lemma X16_images_old_image_witness :
  exists self0 self',
    InputTypeImages.init (sample_image_folder 130) = Ok self0
    /\ InputTypeImages.nextChunk self0 = Ok self'
    /\ InputTypeImages.current_frame self' = 64
    /\ InputTypeImages.loadFrame (InputTypeImages.img_list self')
         (InputTypeImages.current_img_file self') None
       = Ok (pixel_frame 0)
    /\ InputTypeImages.loadFrame (InputTypeImages.img_list self')
         (InputTypeImages.current_img_file self') (Some 64)
       = Ok (pixel_frame 64).
Proof.
  let r := eval vm_compute in
      (InputTypeImages.init (sample_image_folder 130)) in
  match r with
  | Ok ?s0 =>
      let r' := eval vm_compute in (InputTypeImages.nextChunk s0) in
      match r' with
      | Ok ?s =>
          exists s0, s;
          destruct X16_images_chunk_step_keeps_the_old_image
            as (Hinit & _ & Hstep);
          assert (InputTypeImages.init (sample_image_folder 130) = Ok s0)
            as H0 by run;
          assert (InputTypeImages.nextChunk s0 = Ok s) as H1 by run;
          pose proof (Hstep s0 s (Hinit _ _ H0) (or_introl H1)) as Hold;
          split; [run|]; split; [run|]; split; [run|];
          split; [eapply eq_trans; [exact Hold|run]|run]
      end
  end.
Defined.

(** ** The cache of the video handle under plain requests *)

(** The requests that name no frame count: the nominal chunk and the
    whole source. *)
Definition plain_request (r : option Z) : Prop := r = None \/ r = Some (-1).

Definition plain_call (c : call) : Prop :=
  match c with
  | LoadChunk r => plain_request r
  | _ => True
  end.

Lemma do_calls_preserve_plain {T : Type} `{Handle T} (P : T -> Prop) :
  (forall c self self',
     plain_call c -> P self -> do_call c self = Ok self' -> P self') ->
  forall cs self self',
    Forall plain_call cs -> P self -> do_calls cs self = Ok self' -> P self'.
Proof.
  intros Hstep cs. induction cs as [|c cs IH]; simpl;
    intros self self' Hcs HP Hr.
  - injection Hr as <-. exact HP.
  - inv_bind Hr. apply Forall_cons in Hcs as [Hc Hcs].
    eapply IH; [exact Hcs| |exact Hr]. eapply Hstep; eauto.
Qed.

(** The video handle with its cache emptied. *)
Definition video_drop_cache (self : InputTypeVideo.t) : InputTypeVideo.t :=
  InputTypeVideo.mk (InputTypeVideo.cap self)
    (InputTypeVideo.current_frame_chunk self)
    (InputTypeVideo.total_frames self) (InputTypeVideo.nrows self)
    (InputTypeVideo.ncols self) (InputTypeVideo.fr_chunk_no self)
    (InputTypeVideo.total_fr_chunks self)
    (InputTypeVideo.current_fr_chunk_size self)
    (InputTypeVideo.current_frame self) ∅.

(** The video handle rewound, at chunk [chunk], with an empty cache. *)
Definition video_uncached (self : InputTypeVideo.t) (chunk : Z)
    : InputTypeVideo.t :=
  InputTypeVideo.mk (InputTypeVideo.cap_set_pos (InputTypeVideo.cap self) 0)
    chunk (InputTypeVideo.total_frames self) (InputTypeVideo.nrows self)
    (InputTypeVideo.ncols self) (InputTypeVideo.fr_chunk_no self)
    (InputTypeVideo.total_fr_chunks self) 0 0 ∅.

(** The aggregate that [loadChunk] computes when it misses the cache
    depends on the frames and the properties of the capture, the frame
    count, the chunk length and, unless the whole source is requested, the
    chunk index; on nothing else. *)
Lemma video_compute_indep (r : option Z) (s1 s2 : InputTypeVideo.t) :
  InputTypeVideo.cache s1
    !! cache_id r (InputTypeVideo.current_frame_chunk s1) = None ->
  InputTypeVideo.cache s2
    !! cache_id r (InputTypeVideo.current_frame_chunk s2) = None ->
  cap_source (InputTypeVideo.cap s1) = cap_source (InputTypeVideo.cap s2) ->
  InputTypeVideo.total_frames s1 = InputTypeVideo.total_frames s2 ->
  InputTypeVideo.fr_chunk_no s1 = InputTypeVideo.fr_chunk_no s2 ->
  InputTypeVideo.nrows s1 = InputTypeVideo.nrows s2 ->
  InputTypeVideo.ncols s1 = InputTypeVideo.ncols s2 ->
  InputTypeVideo.current_frame_chunk s1 = InputTypeVideo.current_frame_chunk s2
  \/ is_minus_one r = true ->
  fst <$> InputTypeVideo.loadChunk r s1 = fst <$> InputTypeVideo.loadChunk r s2.
Proof.
  destruct s1 as [[f1 p1 n1 h1 w1] k1 t1 r1 c1 l1 tc1 sz1 fr1 ca1].
  destruct s2 as [[f2 p2 n2 h2 w2] k2 t2 r2 c2 l2 tc2 sz2 fr2 ca2].
  unfold cap_source. simpl.
  intros H1 H2 [= -> -> -> ->] -> -> -> -> Hk.
  unfold InputTypeVideo.loadChunk, InputTypeVideo.cap_set_pos. simpl.
  rewrite H1, H2. unfold computeFramesToRead.
  destruct (is_minus_one r) eqn:Hm.
  - destruct (for_in _ _ _ _) as [[[i|] [c [mx av]]]|e]; reflexivity.
  - destruct Hk as [->|Hk]; [|discriminate Hk].
    destruct (for_in _ _ _ _) as [[[i|] [c [mx av]]]|e]; reflexivity.
Qed.

(** The key of a plain request tells the request. *)
Definition request_of_key (k : Z) : option Z :=
  if k =? -1 then Some (-1) else None.

(** Every entry of the cache is the aggregate that the plain request of
    its key computes: the whole source under the key -1, the nominal chunk
    [k] under the key [k]. *)
Definition video_cache_sound (self : InputTypeVideo.t) : Prop :=
  forall k ff,
    InputTypeVideo.cache self !! k = Some ff ->
    fst <$> InputTypeVideo.loadChunk (request_of_key k) (video_uncached self k)
    = Ok ff.

Lemma plain_request_key (r : option Z) (chunk : Z) :
  plain_request r -> 0 <= chunk ->
  request_of_key (cache_id r chunk) = r.
Proof.
  unfold request_of_key, cache_id.
  intros [-> | ->] Hc; simpl; [|reflexivity].
  destruct (Z.eqb_spec chunk (-1)); [lia|reflexivity].
Qed.

(** What a plain request computes on a miss is what it computes on the
    rewound handle with an empty cache. *)
Lemma video_miss_uncached (r : option Z) (self : InputTypeVideo.t) :
  InputTypeVideo.cache self
    !! cache_id r (InputTypeVideo.current_frame_chunk self) = None ->
  fst <$> InputTypeVideo.loadChunk r
            (video_uncached self
               (cache_id r (InputTypeVideo.current_frame_chunk self)))
  = fst <$> InputTypeVideo.loadChunk r self.
Proof.
  intros Hmiss.
  apply video_compute_indep;
    [apply lookup_empty | exact Hmiss | reflexivity | reflexivity
    | reflexivity | reflexivity | reflexivity | ].
  unfold cache_id. simpl. destruct (is_minus_one r); auto.
Qed.

Lemma video_call_cache_sound (c : call) (self self' : InputTypeVideo.t) :
  plain_call c -> video_inv self /\ video_cache_sound self ->
  do_call c self = Ok self' -> video_inv self' /\ video_cache_sound self'.
Proof.
  intros Hplain [Hinv Hs] H.
  split; [exact (video_call_inv c self self' Hinv H)|].
  pose proof Hinv as (_ & _ & _ & Hchunk & _).
  destruct c; simpl in H.
  - unfold InputTypeVideo.nextChunk in H. inv_bind H. inv_ok H.
    intros k x Hk. exact (Hs k x Hk).
  - unfold InputTypeVideo.prevChunk in H. inv_bind H. inv_ok H.
    intros k x Hk. exact (Hs k x Hk).
  - inv_bind H. inv_ok H. destruct a as [ff s]. simpl.
    destruct (video_loadChunk_cache _ _ _ _ E)
      as [[_ ->]|(Hmiss & Hc & _ & _)]; [exact Hs|].
    destruct (video_loadChunk_source _ _ _ _ E) as (Hsrc & Hrows & Hcols).
    pose proof (video_call_static (LoadChunk read_nframes) self s) as Hst.
    simpl in Hst. rewrite E in Hst. specialize (Hst eq_refl).
    unfold video_static in Hst. injection Hst as Ht Hl _.
    intros k x Hk. rewrite Hc in Hk.
    apply lookup_singleton_Some in Hk as [<- <-].
    rewrite plain_request_key by (exact Hplain || lia).
    assert (fst <$> InputTypeVideo.loadChunk read_nframes self = Ok ff) as <-
      by (rewrite E; reflexivity).
    rewrite <- (video_miss_uncached _ _ Hmiss).
    apply video_compute_indep; simpl; try apply lookup_empty; auto.
  - unfold InputTypeVideo.nextFrame in H. inv_bind H. inv_ok H.
    intros k x Hk. exact (Hs k x Hk).
  - unfold InputTypeVideo.prevFrame in H. inv_bind H. inv_ok H.
    intros k x Hk. exact (Hs k x Hk).
Qed.

(** X17: on a video handle constructed over a capture that reports at
    least one frame and driven by chunk steps, frame steps and plain
    requests only, the cache is invisible in the aggregates: whatever a
    plain [loadChunk] returns, from the cache or not, is the aggregate the
    same call computes on the same handle with its cache emptied. *)
Theorem X17_video_cache_is_transparent_for_plain_requests :
  forall c cs self r ff self',
    0 < InputTypeVideo.cap_frame_count c ->
    Forall plain_call cs ->
    do_calls cs (InputTypeVideo.init c) = Ok self ->
    plain_request r ->
    InputTypeVideo.loadChunk r self = Ok (ff, self') ->
    exists self'',
      InputTypeVideo.loadChunk r (video_drop_cache self) = Ok (ff, self'').
Proof.
  intros c cs self r ff self' Hcount Hcs Hrun Hr H.
  assert (video_inv self /\ video_cache_sound self) as [Hinv Hs].
  { apply (do_calls_preserve_plain
             (fun s => video_inv s /\ video_cache_sound s)
             video_call_cache_sound cs (InputTypeVideo.init c));
      [exact Hcs| |exact Hrun].
    split; [apply video_init_inv; exact Hcount|].
    intros k x Hk. simpl in Hk. rewrite lookup_empty in Hk.
    discriminate Hk. }
  pose proof Hinv as (_ & _ & _ & Hchunk & _).
  assert (fst <$> InputTypeVideo.loadChunk r (video_drop_cache self) = Ok ff)
    as Hfresh.
  { destruct (video_loadChunk_cache _ _ _ _ H)
      as [[Hhit _]|(Hmiss & _)].
    - apply Hs in Hhit. rewrite plain_request_key in Hhit
        by (exact Hr || lia).
      rewrite <- Hhit.
      apply video_compute_indep; simpl; try apply lookup_empty; auto.
      unfold cache_id. destruct (is_minus_one r); auto.
    - assert (fst <$> InputTypeVideo.loadChunk r self = Ok ff) as <-
        by (rewrite H; reflexivity).
      apply video_compute_indep; simpl; try apply lookup_empty; auto. }
  destruct (InputTypeVideo.loadChunk r (video_drop_cache self))
    as [[ff' s]|e]; [|discriminate Hfresh].
  injection Hfresh as ->. exists s. reflexivity.
Qed.

Lemma X17_video_cache_witness :
  exists self ff self' self'',
    do_calls [LoadChunk None; NextChunk; LoadChunk (Some (-1)); PrevChunk]
      (InputTypeVideo.init (sample_video 600 600)) = Ok self
    /\ InputTypeVideo.loadChunk (Some (-1)) self = Ok (ff, self')
    /\ self' = self
    /\ InputTypeVideo.loadChunk (Some (-1)) (video_drop_cache self)
       = Ok (ff, self'').
Proof.
  let r := eval vm_compute in
      (do_calls [LoadChunk None; NextChunk; LoadChunk (Some (-1)); PrevChunk]
         (InputTypeVideo.init (sample_video 600 600))) in
  match r with
  | Ok ?s =>
      let r' := eval vm_compute in (InputTypeVideo.loadChunk (Some (-1)) s) in
      match r' with
      | Ok (?x, ?s') =>
          exists s, x, s';
          destruct (X17_video_cache_is_transparent_for_plain_requests
                      (sample_video 600 600)
                      [LoadChunk None; NextChunk; LoadChunk (Some (-1));
                       PrevChunk] s (Some (-1)) x s') as [s'' Hs''];
            [run
            |repeat constructor; first [left; reflexivity|right; reflexivity]
            |run
            |right; reflexivity
            |run
            |exists s''; split; [run|]; split; [run|];
             split; [run|exact Hs'']]
      end
  end.
Defined.
